(** * Agricultural equipment store backend: business rules of the use-case layer

    A shallow embedding of the Go use cases (sales, catalog, auth, upload
    clean-up) and of the MongoDB-backed repositories they call, followed by
    the properties the specification states about them.

    Conventions of the embedding:
    - Go's [int] is the 64-bit machine integer: a [Z] whose arithmetic is
      wrapped by [wrap64];
    - Go's [float64] is Rocq's primitive binary64 [float];
    - a Go [error] is its message, a [string]; a function returning
      [(T, error)] is a computation in the monad [M], which threads the
      state of the database ([World]) and stops at the first error;
    - a call to the database may fail: [World] carries the outcome of the
      upcoming storage calls ([faults]), consumed one per call. *)

From Stdlib Require Import ZArith NArith List Bool Ascii String DecimalString Floats Permutation.
From Stdlib Require Import Sorted.
From stdpp Require Import base option gmap strings list fin_maps.

Open Scope string_scope.
Open Scope list_scope.
Open Scope Z_scope.

(** ** Machine integers and floats *)

Definition wrap64 (z : Z) : Z := (z + 2 ^ 63) mod 2 ^ 64 - 2 ^ 63.

Definition int64_range (z : Z) : Prop := - 2 ^ 63 <= z < 2 ^ 63.

Abbreviation float64 := PrimFloat.float.

(** [float64(n)] for an [int] [n]: the nearest binary64, ties to even. *)
Definition float64_of_int (z : Z) : float64 :=
  if z =? - 2 ^ 63 then PrimFloat.opp (PrimFloat.mul (PrimFloat.of_uint63 (Uint63.of_Z (2 ^ 62))) 2%float)
  else if z <? 0 then PrimFloat.opp (PrimFloat.of_uint63 (Uint63.of_Z (- z)))
  else PrimFloat.of_uint63 (Uint63.of_Z z).

(** [a > 0] on floats (false on NaN). *)
Definition fgt0 (a : float64) : bool := PrimFloat.ltb 0%float a.

(** ** Identities and time *)

(** [primitive.ObjectID] is twelve bytes; it is kept as the number they spell. *)
Abbreviation ObjectID := N.
Definition NilObjectID : ObjectID := 0%N.

(** [time.Time] as an instant counted from the zero [time.Time]. *)
Abbreviation Time := Z.
Definition zeroTime : Time := 0.

(** ** Domain model (package domain) *)

Module ProductImage.
Record t := mk {
  ID : string;
  URL : string;
  Filename : string;
  FilePath : string;
  FileSize : Z;
  MimeType : string;
  IsURL : bool;
  IsPrimary : bool;
  CreatedAt : Time }.

Definition with_URL (u : string) (i : t) : t :=
  mk (ID i) u (Filename i) (FilePath i) (FileSize i) (MimeType i) (IsURL i) (IsPrimary i) (CreatedAt i).
Definition with_IsPrimary (b : bool) (i : t) : t :=
  mk (ID i) (URL i) (Filename i) (FilePath i) (FileSize i) (MimeType i) (IsURL i) b (CreatedAt i).

(** The literal [ProductImage{ID:, URL:, IsURL: true, IsPrimary:, CreatedAt:}]. *)
Definition of_url (id url : string) (primary : bool) (now : Time) : t :=
  mk id url "" "" 0 "" true primary now.
End ProductImage.

Module Product.
Record t := mk {
  ID : ObjectID;
  Name : string;
  Description : string;
  Price : float64;
  Category : string;
  Brand : string;
  ImageURL : string;
  Images : list ProductImage.t;
  Stock : Z;
  IsActive : bool;
  CreatedAt : Time;
  UpdatedAt : Time }.

Definition with_ID (x : ObjectID) (p : t) : t :=
  mk x (Name p) (Description p) (Price p) (Category p) (Brand p) (ImageURL p) (Images p) (Stock p) (IsActive p) (CreatedAt p) (UpdatedAt p).
Definition with_Name (x : string) (p : t) : t :=
  mk (ID p) x (Description p) (Price p) (Category p) (Brand p) (ImageURL p) (Images p) (Stock p) (IsActive p) (CreatedAt p) (UpdatedAt p).
Definition with_Description (x : string) (p : t) : t :=
  mk (ID p) (Name p) x (Price p) (Category p) (Brand p) (ImageURL p) (Images p) (Stock p) (IsActive p) (CreatedAt p) (UpdatedAt p).
Definition with_Price (x : float64) (p : t) : t :=
  mk (ID p) (Name p) (Description p) x (Category p) (Brand p) (ImageURL p) (Images p) (Stock p) (IsActive p) (CreatedAt p) (UpdatedAt p).
Definition with_Category (x : string) (p : t) : t :=
  mk (ID p) (Name p) (Description p) (Price p) x (Brand p) (ImageURL p) (Images p) (Stock p) (IsActive p) (CreatedAt p) (UpdatedAt p).
Definition with_Brand (x : string) (p : t) : t :=
  mk (ID p) (Name p) (Description p) (Price p) (Category p) x (ImageURL p) (Images p) (Stock p) (IsActive p) (CreatedAt p) (UpdatedAt p).
Definition with_ImageURL (x : string) (p : t) : t :=
  mk (ID p) (Name p) (Description p) (Price p) (Category p) (Brand p) x (Images p) (Stock p) (IsActive p) (CreatedAt p) (UpdatedAt p).
Definition with_Images (x : list ProductImage.t) (p : t) : t :=
  mk (ID p) (Name p) (Description p) (Price p) (Category p) (Brand p) (ImageURL p) x (Stock p) (IsActive p) (CreatedAt p) (UpdatedAt p).
Definition with_Stock (x : Z) (p : t) : t :=
  mk (ID p) (Name p) (Description p) (Price p) (Category p) (Brand p) (ImageURL p) (Images p) x (IsActive p) (CreatedAt p) (UpdatedAt p).
Definition with_IsActive (x : bool) (p : t) : t :=
  mk (ID p) (Name p) (Description p) (Price p) (Category p) (Brand p) (ImageURL p) (Images p) (Stock p) x (CreatedAt p) (UpdatedAt p).
Definition with_CreatedAt (x : Time) (p : t) : t :=
  mk (ID p) (Name p) (Description p) (Price p) (Category p) (Brand p) (ImageURL p) (Images p) (Stock p) (IsActive p) x (UpdatedAt p).
Definition with_UpdatedAt (x : Time) (p : t) : t :=
  mk (ID p) (Name p) (Description p) (Price p) (Category p) (Brand p) (ImageURL p) (Images p) (Stock p) (IsActive p) (CreatedAt p) x.
End Product.

Module Sale.
Record t := mk {
  ID : ObjectID;
  ProductID : ObjectID;
  Product : option Product.t;
  Quantity : Z;
  Price : float64;
  Total : float64;
  DateSold : Time;
  CreatedAt : Time;
  UpdatedAt : Time }.
End Sale.

Module CreateSaleRequest.
Record t := mk {
  ProductID : ObjectID;
  Quantity : Z;
  Price : float64 }.
End CreateSaleRequest.

Module User.
Record t := mk {
  ID : ObjectID;
  Email : string;
  Password : string;
  Name : string;
  Role : string;
  IsActive : bool;
  CreatedAt : Time;
  UpdatedAt : Time }.
End User.

Module CreateUserRequest.
Record t := mk {
  Email : string;
  Password : string;
  Name : string;
  Role : string }.
End CreateUserRequest.

(** ** The state of the collaborators and the monad of the use cases *)

Record World := mkWorld {
  products : gmap ObjectID Product.t;   (* collection "products", by _id *)
  sales : list Sale.t;                  (* collection "sales", in insertion order *)
  users : list User.t;                  (* collection "users", in insertion order *)
  faults : list (option string);        (* outcome of the upcoming storage calls *)
  clock : Time;                         (* what time.Now() returns next *)
  oids : ObjectID;                      (* what primitive.NewObjectID() returns next *)
  uuids : N }.                          (* what uuid.New() returns next *)

Definition set_products (x : gmap ObjectID Product.t) (w : World) : World :=
  mkWorld x (sales w) (users w) (faults w) (clock w) (oids w) (uuids w).
Definition set_sales (x : list Sale.t) (w : World) : World :=
  mkWorld (products w) x (users w) (faults w) (clock w) (oids w) (uuids w).
Definition set_users (x : list User.t) (w : World) : World :=
  mkWorld (products w) (sales w) x (faults w) (clock w) (oids w) (uuids w).
Definition set_faults (x : list (option string)) (w : World) : World :=
  mkWorld (products w) (sales w) (users w) x (clock w) (oids w) (uuids w).
Definition set_clock (x : Time) (w : World) : World :=
  mkWorld (products w) (sales w) (users w) (faults w) x (oids w) (uuids w).
Definition set_oids (x : ObjectID) (w : World) : World :=
  mkWorld (products w) (sales w) (users w) (faults w) (clock w) x (uuids w).
Definition set_uuids (x : N) (w : World) : World :=
  mkWorld (products w) (sales w) (users w) (faults w) (clock w) (oids w) x.

Inductive Res (A : Type) : Type :=
| Ok (a : A)
| Err (e : string).
Arguments Ok {A} a.
Arguments Err {A} e.

Definition M (A : Type) : Type := World -> Res A * World.

#[global] Instance M_ret : MRet M := fun A a w => (Ok a, w).
#[global] Instance M_bind : MBind M := fun A B f m w =>
  match m w with
  | (Ok a, w') => f a w'
  | (Err e, w') => (Err e, w')
  end.

(** [return nil, errors.New(msg)] *)
Definition fail {A} (msg : string) : M A := fun w => (Err msg, w).
Definition get : M World := fun w => (Ok w, w).
Definition modify (f : World -> World) : M unit := fun w => (Ok tt, f w).

(** [v, _ := c]: the error of [c] is dropped and [v] is then the zero value. *)
Definition ignoring_error {A} (zero : A) (c : M A) : M A := fun w =>
  match c w with
  | (Ok a, w') => (Ok a, w')
  | (Err _, w') => (Ok zero, w')
  end.

(** One round trip to the database: it fails when the next scheduled outcome
    is an error, and succeeds when it is [None] or the schedule is used up. *)
Definition storage_call : M unit := fun w =>
  match faults w with
  | Some e :: rest => (Err e, set_faults rest w)
  | _ => (Ok tt, set_faults (tail (faults w)) w)
  end.

(** [time.Now()]: the clock is read and moves on by one unit. *)
Definition time_Now : M Time := fun w => (Ok (clock w), set_clock (clock w + 1) w).
(** [primitive.NewObjectID()]: a fresh identity on every call. *)
Definition NewObjectID : M ObjectID := fun w => (Ok (oids w), set_oids (oids w + 1)%N w).

(** The next [n] storage calls succeed. *)
Definition healthy (n : nat) (w : World) : bool :=
  forallb (fun o : option string => match o with None => true | Some _ => false end)
          (take n (faults w)).

(** ** package repository: productRepository *)

(** Decoding a stored document: its [_id] is the key it is stored under. *)
Definition decode (id : ObjectID) (doc : Product.t) : Product.t := Product.with_ID id doc.

(** [FindOne] by [_id]; [mongo.ErrNoDocuments] becomes [(nil, nil)]. *)
Definition productRepo_GetByID (id : ObjectID) : M (option Product.t) :=
  storage_call;;
  w ← get;
  mret (decode id <$> products w !! id).

(** [UpdateOne({_id: product.ID}, {$set: product})]: the matching document,
    when there is one, is replaced field by field; the caller's struct gets
    the new [UpdatedAt], so the updated struct is returned. *)
Definition productRepo_Update (product : Product.t) : M Product.t :=
  now ← time_Now;
  let product := Product.with_UpdatedAt now product in
  storage_call;;
  modify (fun w =>
    match products w !! Product.ID product with
    | Some _ => set_products (<[Product.ID product := product]> (products w)) w
    | None => w
    end);;
  mret product.

(** [UpdateOne({_id: id}, {$set: {stock, updated_at: time.Now()}})] *)
Definition productRepo_UpdateStock (id : ObjectID) (stock : Z) : M unit :=
  now ← time_Now;
  storage_call;;
  modify (fun w =>
    set_products
      (alter (fun p => Product.with_UpdatedAt now (Product.with_Stock stock p)) id (products w)) w).

(** ** package repository: saleRepository *)

(** [Create] stamps the caller's struct and inserts it. *)
Definition saleRepo_Create (sale : Sale.t) : M Sale.t :=
  id ← NewObjectID;
  created ← time_Now;
  updated ← time_Now;
  let sale := Sale.mk id (Sale.ProductID sale) (Sale.Product sale) (Sale.Quantity sale)
                      (Sale.Price sale) (Sale.Total sale) (Sale.DateSold sale) created updated in
  storage_call;;
  modify (fun w => set_sales (sales w ++ [sale]) w);;
  mret sale.

(** ** package usecase: the two CreateSale implementations *)

(** inventory_usecase.go, [SaleUseCase.CreateSale] *)
Definition SaleUseCase_CreateSale (req : CreateSaleRequest.t) : M Sale.t :=
  product ← productRepo_GetByID (CreateSaleRequest.ProductID req);
  match product with
  | None => fail "product not found"
  | Some product =>
    if Product.Stock product <? CreateSaleRequest.Quantity req then fail "insufficient stock"
    else
      let total := PrimFloat.mul (CreateSaleRequest.Price req)
                                 (float64_of_int (CreateSaleRequest.Quantity req)) in
      now ← time_Now;
      let sale := Sale.mk NilObjectID (CreateSaleRequest.ProductID req) None
                          (CreateSaleRequest.Quantity req) (CreateSaleRequest.Price req)
                          total now zeroTime zeroTime in
      sale ← saleRepo_Create sale;
      let newStock := wrap64 (Product.Stock product - CreateSaleRequest.Quantity req) in
      productRepo_UpdateStock (CreateSaleRequest.ProductID req) newStock;;
      mret sale
  end.

(** sales_usecase.go, [SalesUseCase.CreateSale] *)
Definition SalesUseCase_CreateSale (req : CreateSaleRequest.t) : M Sale.t :=
  product ← productRepo_GetByID (CreateSaleRequest.ProductID req);
  match product with
  | None => fail "product not found"
  | Some product =>
    if Product.Stock product <? CreateSaleRequest.Quantity req then fail "insufficient stock"
    else
      let total := PrimFloat.mul (Product.Price product)
                                 (float64_of_int (CreateSaleRequest.Quantity req)) in
      now ← time_Now;
      let sale := Sale.mk NilObjectID (CreateSaleRequest.ProductID req) None
                          (CreateSaleRequest.Quantity req) (Product.Price product)
                          total now zeroTime zeroTime in
      sale ← saleRepo_Create sale;
      let product :=
        Product.with_Stock (wrap64 (Product.Stock product - CreateSaleRequest.Quantity req)) product in
      productRepo_Update product;;
      mret sale
  end.

(** ** Queries with a sort option *)

(** [SetSort({key: -1})]: documents by decreasing key. MongoDB leaves the
    order of equal keys open and may give them in another order on every
    query; this is one of the orders it may answer with (of two equal keys,
    the one stored later comes first). *)
Fixpoint insert_desc {A} (key : A -> Z) (x : A) (l : list A) : list A :=
  match l with
  | [] => [x]
  | y :: rest => if key y <? key x then x :: y :: rest else y :: insert_desc key x rest
  end.

Definition sort_desc {A} (key : A -> Z) (l : list A) : list A :=
  foldr (insert_desc key) [] l.

(** The filter [{date_sold: {$gte: fromDate, $lte: toDate}}]. *)
Definition date_sold_in (fromDate toDate : Time) (s : Sale.t) : bool :=
  (fromDate <=? Sale.DateSold s) && (Sale.DateSold s <=? toDate).

(** [saleRepository.GetSalesByDateRange]: one [Find] whose cursor is read to
    the end; either the whole result or an error comes back. *)
Definition saleRepo_GetSalesByDateRange (fromDate toDate : Time) : M (list Sale.t) :=
  storage_call;;
  w ← get;
  mret (sort_desc Sale.DateSold (List.filter (date_sold_in fromDate toDate) (sales w))).

(** ** Formatting *)

Definition hex_digit (n : N) : ascii :=
  nth (N.to_nat n) (list_ascii_of_string "0123456789abcdef") "0"%char.

Fixpoint hex_digits (k : nat) (n : N) (acc : string) : string :=
  match k with
  | O => acc
  | S k' => hex_digits k' (n / 16)%N (String (hex_digit (n mod 16)%N) acc)
  end.

(** [ObjectID.Hex()]: the twelve bytes as 24 hexadecimal digits. *)
Definition ObjectID_Hex (id : ObjectID) : string := hex_digits 24 id "".

(** The verb [%d]. *)
Definition sprintf_d (z : Z) : string := NilZero.string_of_int (Z.to_int z).

(** The verbs of package fmt and the layouts of package time that the
    export uses on floats and instants are those of the Go runtime. *)
Class Formatting := {
  sprintf_2f : float64 -> string;          (* the verb [%.2f] *)
  time_Format : string -> Time -> string   (* [t.Format(layout)] *)
}.

Definition newline : string := String (ascii_of_nat 10) EmptyString.

Definition csv_header : string :=
  "ID,Product ID,Product Name,Quantity,Price,Total,Date Sold" +:+ newline.

Section SalesExport.
Context `{Formatting}.

(** [fmt.Sprintf("%s,%s,%s,%d,%.2f,%.2f,%s\n", ...)] of one sale. *)
Definition csv_row (sale : Sale.t) (productName : string) : string :=
  ObjectID_Hex (Sale.ID sale) +:+ "," +:+
  ObjectID_Hex (Sale.ProductID sale) +:+ "," +:+
  productName +:+ "," +:+
  sprintf_d (Sale.Quantity sale) +:+ "," +:+
  sprintf_2f (Sale.Price sale) +:+ "," +:+
  sprintf_2f (Sale.Total sale) +:+ "," +:+
  time_Format "2006-01-02 15:04:05" (Sale.DateSold sale) +:+ newline.

(** The loop over the sales; [csvBuilder] is the text written so far. *)
Fixpoint ExportSales_rows (sales : list Sale.t) (csvBuilder : string) : M string :=
  match sales with
  | [] => mret csvBuilder
  | sale :: rest =>
    product ← ignoring_error None (productRepo_GetByID (Sale.ProductID sale));
    let productName :=
      match product with
      | Some product => Product.Name product
      | None => "Unknown"
      end in
    ExportSales_rows rest (csvBuilder +:+ csv_row sale productName)
  end.

(** sales_usecase.go, [SalesUseCase.ExportSales] *)
Definition ExportSales (fromDate toDate : Time) (format : string) : M string :=
  if negb (String.eqb format "csv") then fail "unsupported format"
  else
    sales ← saleRepo_GetSalesByDateRange fromDate toDate;
    ExportSales_rows sales ("" +:+ csv_header).
End SalesExport.

(** ** package usecase: the catalog (ProductUseCase) *)

Module CreateProductRequest.
Record t := mk {
  Name : string;
  Description : string;
  Price : float64;
  Category : string;
  Brand : string;
  ImageURL : string;
  ImageURLs : list string;
  Stock : Z }.
End CreateProductRequest.

Module UpdateProductRequest.
Record t := mk {
  Name : string;
  Description : string;
  Price : float64;
  Category : string;
  Brand : string;
  ImageURL : string;
  ImageURLs : list string;
  Stock : Z;
  IsActive : option bool }.
End UpdateProductRequest.

(** [uuid.New().String()]: a fresh identifier on every call. *)
Definition uuid_String (n : N) : string := hex_digits 32 n "".
Definition uuid_New : M string := fun w => (Ok (uuid_String (uuids w)), set_uuids (uuids w + 1)%N w).

(** [s != ""] *)
Definition nonempty (s : string) : bool := negb (String.eqb s "").

(** [productRepository.Create] stamps the caller's struct and inserts it;
    the collection refuses a second document under the same [_id]. *)
Definition productRepo_Create (product : Product.t) : M Product.t :=
  id ← NewObjectID;
  created ← time_Now;
  updated ← time_Now;
  let product := Product.with_UpdatedAt updated (Product.with_CreatedAt created (Product.with_ID id product)) in
  storage_call;;
  w ← get;
  match products w !! id with
  | Some _ => fail "duplicate key"
  | None =>
    modify (set_products (<[id := product]> (products w)));;
    mret product
  end.

(** The loop of [CreateProduct] over [req.ImageURLs], from index [i] on:
    the image of index 0 is flagged primary. *)
Fixpoint CreateProduct_urls (i : nat) (urls : list string) (images : list ProductImage.t)
  : M (list ProductImage.t) :=
  match urls with
  | [] => mret images
  | url :: rest =>
    if nonempty url then
      id ← uuid_New;
      now ← time_Now;
      CreateProduct_urls (S i) rest (images ++ [ProductImage.of_url id url (Nat.eqb i 0) now])
    else CreateProduct_urls (S i) rest images
  end.

(** The legacy single URL, used when no image has been collected. *)
Definition legacy_image (imageURL : string) (images : list ProductImage.t)
  : M (list ProductImage.t) :=
  if nonempty imageURL && Nat.eqb (length images) 0 then
    id ← uuid_New;
    now ← time_Now;
    mret (images ++ [ProductImage.of_url id imageURL true now])
  else mret images.

Definition new_product (req : CreateProductRequest.t) : Product.t :=
  Product.mk NilObjectID (CreateProductRequest.Name req) (CreateProductRequest.Description req)
             (CreateProductRequest.Price req) (CreateProductRequest.Category req)
             (CreateProductRequest.Brand req) (CreateProductRequest.ImageURL req) []
             (CreateProductRequest.Stock req) true zeroTime zeroTime.

(** [ProductUseCase.CreateProduct] *)
Definition CreateProduct (req : CreateProductRequest.t) : M Product.t :=
  let product := new_product req in
  images ← (if (0 <? length (CreateProductRequest.ImageURLs req))%nat
            then CreateProduct_urls 0 (CreateProductRequest.ImageURLs req) (Product.Images product)
            else mret (Product.Images product));
  images ← legacy_image (CreateProductRequest.ImageURL req) images;
  productRepo_Create (Product.with_Images images product).

(** The loop of the two [...WithImages] paths over [req.ImageURLs]: an image
    is flagged primary when nothing has been collected before it. *)
Fixpoint WithImages_urls (urls : list string) (images : list ProductImage.t)
  : M (list ProductImage.t) :=
  match urls with
  | [] => mret images
  | url :: rest =>
    if nonempty url then
      id ← uuid_New;
      now ← time_Now;
      WithImages_urls rest (images ++ [ProductImage.of_url id url (Nat.eqb (length images) 0) now])
    else WithImages_urls rest images
  end.

(** "Ensure at least one image is marked as primary". *)
Definition ensure_primary (images : list ProductImage.t) : list ProductImage.t :=
  if (0 <? length images)%nat then
    if existsb ProductImage.IsPrimary images then images
    else match images !! 0%nat with
         | Some first => <[0%nat := ProductImage.with_IsPrimary true first]> images
         | None => images
         end
  else images.

(** [ProductUseCase.CreateProductWithImages] *)
Definition CreateProductWithImages (req : CreateProductRequest.t)
    (uploadedImages : list ProductImage.t) : M Product.t :=
  let product := new_product req in
  let images := Product.Images product ++ uploadedImages in
  images ← (if (0 <? length (CreateProductRequest.ImageURLs req))%nat
            then WithImages_urls (CreateProductRequest.ImageURLs req) images
            else mret images);
  images ← legacy_image (CreateProductRequest.ImageURL req) images;
  productRepo_Create (Product.with_Images (ensure_primary images) product).

(** The scan of [UpdateProduct] for an image that carries the legacy URL:
    [None] is [hasLegacyImage == false]; otherwise the images after the scan,
    which stops at the first URL image that has the URL already or is
    primary (and then receives it). *)
Fixpoint legacy_scan (imageURL : string) (images : list ProductImage.t)
  : option (list ProductImage.t) :=
  match images with
  | [] => None
  | img :: rest =>
    if ProductImage.IsURL img && String.eqb (ProductImage.URL img) imageURL then Some (img :: rest)
    else if ProductImage.IsURL img && ProductImage.IsPrimary img
    then Some (ProductImage.with_URL imageURL img :: rest)
    else option_map (cons img) (legacy_scan imageURL rest)
  end.

(** The loop of [UpdateProduct] over [req.ImageURLs]: the URL of index 0 is
    flagged primary when no uploaded image was kept. *)
Fixpoint UpdateProduct_urls (i : nat) (urls : list string) (newImages : list ProductImage.t)
  : M (list ProductImage.t) :=
  match urls with
  | [] => mret newImages
  | url :: rest =>
    if nonempty url then
      id ← uuid_New;
      now ← time_Now;
      UpdateProduct_urls (S i) rest
        (newImages ++ [ProductImage.of_url id url (Nat.eqb i 0 && Nat.eqb (length newImages) 0) now])
    else UpdateProduct_urls (S i) rest newImages
  end.

(** The scalar fields both update paths overwrite, in the order of
    [UpdateProduct]; the image handling in between is the argument [images]. *)
Definition update_name_to_brand (req : UpdateProductRequest.t) (product : Product.t) : Product.t :=
  let product := if nonempty (UpdateProductRequest.Name req)
                 then Product.with_Name (UpdateProductRequest.Name req) product else product in
  let product := if nonempty (UpdateProductRequest.Description req)
                 then Product.with_Description (UpdateProductRequest.Description req) product else product in
  let product := if fgt0 (UpdateProductRequest.Price req)
                 then Product.with_Price (UpdateProductRequest.Price req) product else product in
  let product := if nonempty (UpdateProductRequest.Category req)
                 then Product.with_Category (UpdateProductRequest.Category req) product else product in
  let product := if nonempty (UpdateProductRequest.Brand req)
                 then Product.with_Brand (UpdateProductRequest.Brand req) product else product in
  product.

Definition update_stock_active (req : UpdateProductRequest.t) (product : Product.t) : Product.t :=
  let product := if 0 <=? UpdateProductRequest.Stock req
                 then Product.with_Stock (UpdateProductRequest.Stock req) product else product in
  let product := match UpdateProductRequest.IsActive req with
                 | Some isActive => Product.with_IsActive isActive product
                 | None => product
                 end in
  product.

(** The block [if req.ImageURL != ""] of [UpdateProduct]: the legacy URL is
    stored and an image that carries it is made sure of. *)
Definition UpdateProduct_legacy_image (req : UpdateProductRequest.t) (product : Product.t)
  : M Product.t :=
  if nonempty (UpdateProductRequest.ImageURL req) then
    let product := Product.with_ImageURL (UpdateProductRequest.ImageURL req) product in
    match legacy_scan (Product.ImageURL product) (Product.Images product) with
    | Some images => mret (Product.with_Images images product)
    | None =>
      imgid ← uuid_New;
      now ← time_Now;
      mret (Product.with_Images
              (ProductImage.of_url imgid (UpdateProductRequest.ImageURL req) true now
                 :: Product.Images product) product)
    end
  else mret product.

(** The block [if len(req.ImageURLs) > 0] of [UpdateProduct]: the URL images
    are replaced by the new ones, the uploaded ones are kept. *)
Definition UpdateProduct_image_urls (req : UpdateProductRequest.t) (product : Product.t)
  : M Product.t :=
  if (0 <? length (UpdateProductRequest.ImageURLs req))%nat then
    let newImages :=
      List.filter (fun img => negb (ProductImage.IsURL img)) (Product.Images product) in
    newImages ← UpdateProduct_urls 0 (UpdateProductRequest.ImageURLs req) newImages;
    mret (Product.with_Images newImages product)
  else mret product.

(** [ProductUseCase.UpdateProduct] *)
Definition UpdateProduct (id : ObjectID) (req : UpdateProductRequest.t) : M Product.t :=
  product ← productRepo_GetByID id;
  match product with
  | None => fail "product not found"
  | Some product =>
    let product := update_name_to_brand req product in
    product ← UpdateProduct_legacy_image req product;
    let product := update_stock_active req product in
    product ← UpdateProduct_image_urls req product;
    productRepo_Update product
  end.

(** [ProductUseCase.UpdateProductWithImages] *)
Definition UpdateProductWithImages (id : ObjectID) (req : UpdateProductRequest.t)
    (uploadedImages : list ProductImage.t) : M Product.t :=
  product ← productRepo_GetByID id;
  match product with
  | None => fail "product not found"
  | Some product =>
    let product := update_name_to_brand req product in
    let product := update_stock_active req product in
    let newImages := [] ++ uploadedImages in
    newImages ← (if (0 <? length (UpdateProductRequest.ImageURLs req))%nat
                 then WithImages_urls (UpdateProductRequest.ImageURLs req) newImages
                 else mret newImages);
    '(newImages, product) ←
       (if nonempty (UpdateProductRequest.ImageURL req) && Nat.eqb (length newImages) 0 then
          imgid ← uuid_New;
          now ← time_Now;
          mret (newImages ++ [ProductImage.of_url imgid (UpdateProductRequest.ImageURL req) true now],
                Product.with_ImageURL (UpdateProductRequest.ImageURL req) product)
        else mret (newImages, product));
    let product := Product.with_Images (ensure_primary newImages) product in
    productRepo_Update product
  end.

(** ** package repository: listing and counting products *)

Module ProductFilter.
Record t := mk {
  Category : string;
  Brand : string;
  MinPrice : float64;
  MaxPrice : float64;
  IsActive : option bool;
  Search : string;
  Page : Z;
  Limit : Z }.
End ProductFilter.

(** The values the repository stores under the keys of a [bson.M] filter. *)
Inductive bsonValue : Type :=
| BString (s : string)                                  (* key: "text" *)
| BBool (b : bool)                                      (* key: true *)
| BRange (gte lte : option float64)                     (* key: {"$gte": a, "$lte": b} *)
| BRegex (pattern options : string).                    (* key: {"$regex": p, "$options": o} *)

(** MongoDB's regular-expression match, [regex_match pattern options subject]. *)
Class Regex := { regex_match : string -> string -> string -> bool }.

(** The filter built at the head of [productRepository.List]. *)
Definition List_mongoFilter (filter : ProductFilter.t) : gmap string bsonValue :=
  let mongoFilter : gmap string bsonValue := ∅ in
  let mongoFilter :=
    if nonempty (ProductFilter.Category filter)
    then <["category" := BString (ProductFilter.Category filter)]> mongoFilter else mongoFilter in
  let mongoFilter :=
    if nonempty (ProductFilter.Brand filter)
    then <["brand" := BString (ProductFilter.Brand filter)]> mongoFilter else mongoFilter in
  let mongoFilter :=
    if fgt0 (ProductFilter.MinPrice filter) || fgt0 (ProductFilter.MaxPrice filter) then
      let gte := if fgt0 (ProductFilter.MinPrice filter) then Some (ProductFilter.MinPrice filter) else None in
      let lte := if fgt0 (ProductFilter.MaxPrice filter) then Some (ProductFilter.MaxPrice filter) else None in
      <["price" := BRange gte lte]> mongoFilter
    else mongoFilter in
  let mongoFilter :=
    match ProductFilter.IsActive filter with
    | Some isActive => <["is_active" := BBool isActive]> mongoFilter
    | None => mongoFilter
    end in
  let mongoFilter :=
    if nonempty (ProductFilter.Search filter)
    then <["name" := BRegex (ProductFilter.Search filter) "i"]> mongoFilter else mongoFilter in
  mongoFilter.

(** The filter built at the head of [productRepository.Count]. *)
Definition Count_mongoFilter (filter : ProductFilter.t) : gmap string bsonValue :=
  let mongoFilter : gmap string bsonValue := ∅ in
  let mongoFilter :=
    if nonempty (ProductFilter.Category filter)
    then <["category" := BString (ProductFilter.Category filter)]> mongoFilter else mongoFilter in
  let mongoFilter :=
    if nonempty (ProductFilter.Brand filter)
    then <["brand" := BString (ProductFilter.Brand filter)]> mongoFilter else mongoFilter in
  let mongoFilter :=
    if fgt0 (ProductFilter.MinPrice filter) || fgt0 (ProductFilter.MaxPrice filter) then
      let priceFilter_gte :=
        if fgt0 (ProductFilter.MinPrice filter) then Some (ProductFilter.MinPrice filter) else None in
      let priceFilter_lte :=
        if fgt0 (ProductFilter.MaxPrice filter) then Some (ProductFilter.MaxPrice filter) else None in
      <["price" := BRange priceFilter_gte priceFilter_lte]> mongoFilter
    else mongoFilter in
  let mongoFilter :=
    match ProductFilter.IsActive filter with
    | Some isActive => <["is_active" := BBool isActive]> mongoFilter
    | None => mongoFilter
    end in
  let mongoFilter :=
    if nonempty (ProductFilter.Search filter)
    then <["name" := BRegex (ProductFilter.Search filter) "i"]> mongoFilter else mongoFilter in
  mongoFilter.

Section Query.
Context `{Regex}.

(** What a product document holds under a bson key, by kind of value. *)
Definition doc_string (key : string) (p : Product.t) : option string :=
  if String.eqb key "name" then Some (Product.Name p)
  else if String.eqb key "description" then Some (Product.Description p)
  else if String.eqb key "category" then Some (Product.Category p)
  else if String.eqb key "brand" then Some (Product.Brand p)
  else if String.eqb key "image_url" then Some (Product.ImageURL p)
  else None.

Definition doc_float (key : string) (p : Product.t) : option float64 :=
  if String.eqb key "price" then Some (Product.Price p) else None.

Definition doc_bool (key : string) (p : Product.t) : option bool :=
  if String.eqb key "is_active" then Some (Product.IsActive p) else None.

(** One entry of a filter, tested on a document. *)
Definition entry_matches (p : Product.t) (entry : string * bsonValue) : bool :=
  let (key, v) := entry in
  match v with
  | BString s =>
    match doc_string key p with Some x => String.eqb x s | None => false end
  | BBool b =>
    match doc_bool key p with Some x => Bool.eqb x b | None => false end
  | BRange gte lte =>
    match doc_float key p with
    | Some x =>
      match gte with Some a => PrimFloat.leb a x | None => true end &&
      match lte with Some b => PrimFloat.leb x b | None => true end
    | None => false
    end
  | BRegex pattern options =>
    match doc_string key p with Some x => regex_match pattern options x | None => false end
  end.

(** A document matches a filter when it matches every entry of it. *)
Definition matches (mongoFilter : gmap string bsonValue) (p : Product.t) : bool :=
  forallb (entry_matches p) (map_to_list mongoFilter).

Definition documents (w : World) : list Product.t :=
  List.map (fun kv : ObjectID * Product.t => decode kv.1 kv.2) (map_to_list (products w)).

(** [productRepository.List] *)
Definition productRepo_List (filter : ProductFilter.t) : M (list Product.t) :=
  let mongoFilter := List_mongoFilter filter in
  let opts :=
    if (0 <? ProductFilter.Page filter) && (0 <? ProductFilter.Limit filter) then
      let skip := wrap64 ((ProductFilter.Page filter - 1) * ProductFilter.Limit filter) in
      Some (skip, ProductFilter.Limit filter)
    else None in
  storage_call;;
  w ← get;
  let found := sort_desc Product.CreatedAt (List.filter (matches mongoFilter) (documents w)) in
  match opts with
  | Some (skip, limit) =>
    if skip <? 0 then fail "skip must be non-negative"
    else mret (take (Z.to_nat limit) (drop (Z.to_nat skip) found))
  | None => mret found
  end.

(** [productRepository.Count] *)
Definition productRepo_Count (filter : ProductFilter.t) : M Z :=
  let mongoFilter := Count_mongoFilter filter in
  storage_call;;
  w ← get;
  mret (Z.of_nat (length (List.filter (matches mongoFilter) (documents w)))).
End Query.

(** ** package utils: removing an uploaded file *)

Module UploadConfig.
Record t := mk {
  UploadDir : string;
  MaxFileSize : Z;
  AllowedTypes : gmap string bool }.
End UploadConfig.

Definition AllowedImageTypes : gmap string bool :=
  <["image/jpeg" := true]> (<["image/jpg" := true]> (<["image/png" := true]>
  (<["image/gif" := true]> (<["image/webp" := true]> ∅)))).

Definition MaxFileSize : Z := 5 * 1024 * 1024.

Definition NewUploadConfig : UploadConfig.t :=
  UploadConfig.mk "uploads/products" MaxFileSize AllowedImageTypes.

(** The files on disk, each named by the directories from the root down to
    it, and the working directory of the process. *)
Record FileSystem := mkFS {
  cwd : list string;
  files : gset (list string) }.

(** The names between the separators of a path. *)
Fixpoint split_on (sep : ascii) (s : string) (cur : string) : list string :=
  match s with
  | EmptyString => [cur]
  | String c rest =>
    if Ascii.eqb c sep then cur :: split_on sep rest ""
    else split_on sep rest (cur +:+ String c EmptyString)
  end.

(** Walking one name down from a directory, as the operating system does:
    an empty name and [.] stay, [..] goes to the parent (the root is its own
    parent). There are no symbolic links. *)
Definition path_step (dir : list string) (name : string) : list string :=
  if String.eqb name "" || String.eqb name "." then dir
  else if String.eqb name ".." then removelast dir
  else dir ++ [name].

(** The place a path names: from the root when it starts with a separator,
    from the working directory otherwise. *)
Definition resolve (fs : FileSystem) (path : string) : list string :=
  let start := if String.prefix "/" path then [] else cwd fs in
  fold_left path_step (split_on "/" path "") start.

(** A directory is there when the process works in it or below it, or when
    a file lies below it (the record holds no empty directories). *)
Definition is_directory (fs : FileSystem) (dir : list string) : bool :=
  bool_decide (dir `prefix_of` cwd fs) ||
  bool_decide (set_Exists (fun file => dir `prefix_of` file /\ dir <> file) (files fs)).

(** What stops the operating system on the way to the last name of a path,
    if anything: every name before the last must lead to a directory. *)
Fixpoint walk_error (fs : FileSystem) (dir : list string) (names : list string)
  : option string :=
  match names with
  | [] => None
  | name :: rest =>
    match rest with
    | [] => None
    | _ :: _ =>
      let dir' := path_step dir name in
      if bool_decide (dir' ∈ files fs) then Some "not a directory"
      else if is_directory fs dir' then walk_error fs dir' rest
      else Some "no such file or directory"
    end
  end.

(** [os.Remove(name)]: the file that the path names is removed; a path
    that leads through something that is no directory, or that names no
    file, is an error. *)
Definition os_Remove (name : string) (fs : FileSystem) : Res unit * FileSystem :=
  let start := if String.prefix "/" name then [] else cwd fs in
  match walk_error fs start (split_on "/" name "") with
  | Some reason => (Err ("remove " +:+ name +:+ ": " +:+ reason), fs)
  | None =>
    let target := resolve fs name in
    if bool_decide (target ∈ files fs)
    then (Ok tt, mkFS (cwd fs) (files fs ∖ {[target]}))
    else (Err ("remove " +:+ name +:+ ": no such file or directory"), fs)
  end.

(** [UploadConfig.DeleteFile] *)
Definition DeleteFile (uc : UploadConfig.t) (filePath : string) (fs : FileSystem)
  : Res unit * FileSystem :=
  if String.eqb filePath "" then (Ok tt, fs)
  else if negb (String.prefix (UploadConfig.UploadDir uc) filePath)
  then (Err "file path is outside upload directory", fs)
  else os_Remove filePath fs.

(** A place lies in the upload directory when the directory's own place is
    an initial part of it. *)
Definition in_upload_dir (uc : UploadConfig.t) (fs : FileSystem) (place : list string) : Prop :=
  resolve fs (UploadConfig.UploadDir uc) `prefix_of` place.

(** ** package usecase: registration (AuthUseCase) *)

(** [bcrypt.GenerateFromPassword(password, cost)] *)
Class Bcrypt := { bcrypt_GenerateFromPassword : string -> Z -> Res string }.
Definition bcrypt_DefaultCost : Z := 10.

(** [userRepository.GetByEmail]: the first user with that email, if any. *)
Definition userRepo_GetByEmail (email : string) : M (option User.t) :=
  storage_call;;
  w ← get;
  mret (List.find (fun u => String.eqb (User.Email u) email) (users w)).

(** [userRepository.Create] stamps the caller's struct and inserts it. *)
Definition userRepo_Create (user : User.t) : M User.t :=
  id ← NewObjectID;
  created ← time_Now;
  updated ← time_Now;
  let user := User.mk id (User.Email user) (User.Password user) (User.Name user)
                      (User.Role user) (User.IsActive user) created updated in
  storage_call;;
  modify (fun w => set_users (users w ++ [user]) w);;
  mret user.

Section Auth.
Context `{Bcrypt}.

(** [AuthUseCase.Register] *)
Definition Register (req : CreateUserRequest.t) : M User.t :=
  existingUser ← userRepo_GetByEmail (CreateUserRequest.Email req);
  match existingUser with
  | Some _ => fail "user already exists"
  | None =>
    match bcrypt_GenerateFromPassword (CreateUserRequest.Password req) bcrypt_DefaultCost with
    | Err e => fail e
    | Ok hashedPassword =>
      let role := CreateUserRequest.Role req in
      let role := if String.eqb role "" then "user" else role in
      let user := User.mk NilObjectID (CreateUserRequest.Email req) hashedPassword
                          (CreateUserRequest.Name req) role true zeroTime zeroTime in
      userRepo_Create user
    end
  end.
End Auth.

(** * The rest of the use-case layer *)

(** ** package usecase: inventory (InventoryUseCase) *)

Module StockUpdateRequest.
Record t := mk { Stock : Z }.
End StockUpdateRequest.

Module LowStockProduct.
Record t := mk {
  ID : ObjectID;
  Name : string;
  Stock : Z;
  Category : string;
  Price : float64 }.
End LowStockProduct.

(** [InventoryUseCase.UpdateStock] *)
Definition InventoryUseCase_UpdateStock (id : ObjectID) (req : StockUpdateRequest.t) : M unit :=
  product ← productRepo_GetByID id;
  match product with
  | None => fail "product not found"
  | Some _ => productRepo_UpdateStock id (StockUpdateRequest.Stock req)
  end.

(** [SetSort({key: 1})]: documents by increasing key. *)
Definition sort_asc {A} (key : A -> Z) (l : list A) : list A :=
  sort_desc (fun x => - key x) l.

(** The filter [{stock: {$lt: threshold}, is_active: true}]. *)
Definition low_stock (threshold : Z) (p : Product.t) : bool :=
  (Product.Stock p <? threshold) && Bool.eqb (Product.IsActive p) true.

(** [productRepository.GetLowStockProducts] *)
Definition productRepo_GetLowStockProducts (threshold : Z) : M (list LowStockProduct.t) :=
  storage_call;;
  w ← get;
  let found := sort_asc Product.Stock (List.filter (low_stock threshold) (documents w)) in
  mret (List.map (fun product =>
                    LowStockProduct.mk (Product.ID product) (Product.Name product)
                                       (Product.Stock product) (Product.Category product)
                                       (Product.Price product)) found).

(** [InventoryUseCase.GetLowStockProducts] *)
Definition InventoryUseCase_GetLowStockProducts (threshold : Z) : M (list LowStockProduct.t) :=
  let threshold := if threshold <=? 0 then 10 else threshold in
  productRepo_GetLowStockProducts threshold.

(** ** package usecase: reading and deleting products (ProductUseCase) *)

(** [productRepository.Delete]: [DeleteOne({_id: id})]. *)
Definition productRepo_Delete (id : ObjectID) : M unit :=
  storage_call;;
  modify (fun w => set_products (delete id (products w)) w).

(** [ProductUseCase.GetProductByID] *)
Definition GetProductByID (id : ObjectID) : M Product.t :=
  product ← productRepo_GetByID id;
  match product with
  | None => fail "product not found"
  | Some product => mret product
  end.

(** [ProductUseCase.DeleteProduct] *)
Definition DeleteProduct (id : ObjectID) : M unit :=
  product ← productRepo_GetByID id;
  match product with
  | None => fail "product not found"
  | Some _ => productRepo_Delete id
  end.

Section Catalog.
Context `{Regex}.

(** [ProductUseCase.GetProducts] *)
Definition GetProducts (filter : ProductFilter.t) : M (list Product.t * Z) :=
  let page := if ProductFilter.Page filter <=? 0 then 1 else ProductFilter.Page filter in
  let limit := if ProductFilter.Limit filter <=? 0 then 10 else ProductFilter.Limit filter in
  let filter := ProductFilter.mk (ProductFilter.Category filter) (ProductFilter.Brand filter)
                                 (ProductFilter.MinPrice filter) (ProductFilter.MaxPrice filter)
                                 (ProductFilter.IsActive filter) (ProductFilter.Search filter)
                                 page limit in
  products ← productRepo_List filter;
  count ← productRepo_Count filter;
  mret (products, count).
End Catalog.

(** ** package repository: listing and counting sales *)

Module SaleFilter.
Record t := mk {
  ProductID : ObjectID;
  FromDate : Time;
  ToDate : Time;
  Page : Z;
  Limit : Z }.
End SaleFilter.

(** [id.IsZero()] and [t.IsZero()] *)
Definition ObjectID_IsZero (id : ObjectID) : bool := N.eqb id NilObjectID.
Definition Time_IsZero (t : Time) : bool := Z.eqb t zeroTime.

(** The values the sale repository stores under the keys of its filter. *)
Inductive saleFilterValue : Type :=
| SObjectID (id : ObjectID)                     (* key: id *)
| SDates (gte lte : option Time).               (* key: {"$gte": a, "$lte": b} *)

(** The filter built at the head of [saleRepository.List]. *)
Definition SaleList_mongoFilter (filter : SaleFilter.t) : gmap string saleFilterValue :=
  let mongoFilter : gmap string saleFilterValue := ∅ in
  let mongoFilter :=
    if negb (ObjectID_IsZero (SaleFilter.ProductID filter))
    then <["product_id" := SObjectID (SaleFilter.ProductID filter)]> mongoFilter
    else mongoFilter in
  let mongoFilter :=
    if negb (Time_IsZero (SaleFilter.FromDate filter)) && negb (Time_IsZero (SaleFilter.ToDate filter))
    then <["date_sold" := SDates (Some (SaleFilter.FromDate filter))
                                 (Some (SaleFilter.ToDate filter))]> mongoFilter
    else if negb (Time_IsZero (SaleFilter.FromDate filter))
    then <["date_sold" := SDates (Some (SaleFilter.FromDate filter)) None]> mongoFilter
    else if negb (Time_IsZero (SaleFilter.ToDate filter))
    then <["date_sold" := SDates None (Some (SaleFilter.ToDate filter))]> mongoFilter
    else mongoFilter in
  mongoFilter.

(** The filter built at the head of [saleRepository.Count]. *)
Definition SaleCount_mongoFilter (filter : SaleFilter.t) : gmap string saleFilterValue :=
  let mongoFilter : gmap string saleFilterValue := ∅ in
  let mongoFilter :=
    if negb (ObjectID_IsZero (SaleFilter.ProductID filter))
    then <["product_id" := SObjectID (SaleFilter.ProductID filter)]> mongoFilter
    else mongoFilter in
  let mongoFilter :=
    if negb (Time_IsZero (SaleFilter.FromDate filter)) && negb (Time_IsZero (SaleFilter.ToDate filter))
    then <["date_sold" := SDates (Some (SaleFilter.FromDate filter))
                                 (Some (SaleFilter.ToDate filter))]> mongoFilter
    else if negb (Time_IsZero (SaleFilter.FromDate filter))
    then <["date_sold" := SDates (Some (SaleFilter.FromDate filter)) None]> mongoFilter
    else if negb (Time_IsZero (SaleFilter.ToDate filter))
    then <["date_sold" := SDates None (Some (SaleFilter.ToDate filter))]> mongoFilter
    else mongoFilter in
  mongoFilter.

(** What a sale document holds under a bson key, by kind of value. *)
Definition sale_doc_id (key : string) (s : Sale.t) : option ObjectID :=
  if String.eqb key "_id" then Some (Sale.ID s)
  else if String.eqb key "product_id" then Some (Sale.ProductID s)
  else None.

Definition sale_doc_time (key : string) (s : Sale.t) : option Time :=
  if String.eqb key "date_sold" then Some (Sale.DateSold s)
  else if String.eqb key "created_at" then Some (Sale.CreatedAt s)
  else if String.eqb key "updated_at" then Some (Sale.UpdatedAt s)
  else None.

(** One entry of a sale filter, tested on a document. *)
Definition sale_entry_matches (s : Sale.t) (entry : string * saleFilterValue) : bool :=
  let (key, v) := entry in
  match v with
  | SObjectID id =>
    match sale_doc_id key s with Some x => N.eqb x id | None => false end
  | SDates gte lte =>
    match sale_doc_time key s with
    | Some x =>
      match gte with Some a => a <=? x | None => true end &&
      match lte with Some b => x <=? b | None => true end
    | None => false
    end
  end.

Definition sale_matches (mongoFilter : gmap string saleFilterValue) (s : Sale.t) : bool :=
  forallb (sale_entry_matches s) (map_to_list mongoFilter).

(** [saleRepository.List] *)
Definition saleRepo_List (filter : SaleFilter.t) : M (list Sale.t) :=
  let mongoFilter := SaleList_mongoFilter filter in
  let page := SaleFilter.Page filter in
  let limit := SaleFilter.Limit filter in
  let page := if page <=? 0 then 1 else page in
  let limit := if limit <=? 0 then 10 else limit in
  let skip := wrap64 ((page - 1) * limit) in
  storage_call;;
  w ← get;
  let found := sort_desc Sale.DateSold (List.filter (sale_matches mongoFilter) (sales w)) in
  if skip <? 0 then fail "skip must be non-negative"
  else mret (take (Z.to_nat limit) (drop (Z.to_nat skip) found)).

(** [saleRepository.Count] *)
Definition saleRepo_Count (filter : SaleFilter.t) : M Z :=
  let mongoFilter := SaleCount_mongoFilter filter in
  storage_call;;
  w ← get;
  mret (Z.of_nat (length (List.filter (sale_matches mongoFilter) (sales w)))).

(** [SaleUseCase.GetSalesByFilter] and [SalesUseCase.GetSales] *)
Definition GetSalesByFilter (filter : SaleFilter.t) : M (list Sale.t) := saleRepo_List filter.

(** [SaleUseCase.GetSalesByDateRange] *)
Definition GetSalesByDateRange (fromDate toDate : Time) : M (list Sale.t) :=
  saleRepo_GetSalesByDateRange fromDate toDate.

(** ** package usecase: login (AuthUseCase) *)

Module LoginRequest.
Record t := mk {
  Email : string;
  Password : string }.
End LoginRequest.

Module LoginResponse.
Record t := mk {
  Token : string;
  User : User.t }.
End LoginResponse.

(** The values [generateJWT] puts in a [jwt.MapClaims], and the other values
    the claims of a parsed token can hold. *)
Inductive claim : Type :=
| ClaimString (s : string)
| ClaimInt (n : Z)
| ClaimOther.

(** [bcrypt.CompareHashAndPassword(hash, password)]: [None] is [nil]. *)
Class BcryptCompare := { bcrypt_CompareHashAndPassword : string -> string -> option string }.

(** [jwt.NewWithClaims(jwt.SigningMethodHS256, claims).SignedString(secret)] *)
Class JwtSigner := { jwt_SignedString : gmap string claim -> string -> Res string }.

(** Instants count nanoseconds, as a [time.Duration] does. *)
Definition time_Hour : Z := 3600 * 10 ^ 9.
(** [t.Unix()]: the seconds since January 1, 1970; the zero [time.Time] is
    January 1 of year 1. *)
Definition time_Unix (t : Time) : Z := t / 10 ^ 9 - 62135596800.

Section Login.
Context `{BcryptCompare} `{JwtSigner}.
Variable jwtSecret : string.

(** [AuthUseCase.generateJWT] *)
Definition generateJWT (user : User.t) : M string :=
  exp ← time_Now;
  iat ← time_Now;
  let claims : gmap string claim :=
    <["user_id" := ClaimString (ObjectID_Hex (User.ID user))]>
    (<["email" := ClaimString (User.Email user)]>
    (<["role" := ClaimString (User.Role user)]>
    (<["exp" := ClaimInt (time_Unix (exp + 24 * time_Hour))]>
    (<["iat" := ClaimInt (time_Unix iat)]> ∅)))) in
  match jwt_SignedString claims jwtSecret with
  | Ok token => mret token
  | Err e => fail e
  end.

(** [AuthUseCase.Login] *)
Definition Login (req : LoginRequest.t) : M LoginResponse.t :=
  user ← userRepo_GetByEmail (LoginRequest.Email req);
  match user with
  | None => fail "invalid email or password"
  | Some user =>
    if negb (User.IsActive user) then fail "user account is inactive"
    else
      match bcrypt_CompareHashAndPassword (User.Password user) (LoginRequest.Password req) with
      | Some _ => fail "invalid email or password"
      | None =>
        token ← generateJWT user;
        mret (LoginResponse.mk token user)
      end
  end.
End Login.

(** ** package middleware: who may pass *)

(** What a middleware does with a request: hand it on with the values set
    on the context, or answer with a status and an error. *)
Inductive Outcome : Type :=
| Next (keys : gmap string (option claim))
| Aborted (status : Z) (error : string).

(** [AuthUseCase.ValidateToken], whose work is the jwt library's. *)
Class TokenValidator := { ValidateToken : string -> Res (gmap string claim) }.

Section Middleware.
Context `{TokenValidator}.

(** [AuthMiddleware.RequireAuth], given the Authorization header. A claim
    that the token does not carry is set as [nil]. *)
Definition RequireAuth (authHeader : string) (keys : gmap string (option claim)) : Outcome :=
  if String.eqb authHeader "" then Aborted 401 "authorization header required"
  else
    let tokenParts := split_on " " authHeader "" in
    if negb (Nat.eqb (length tokenParts) 2) || negb (String.eqb (nth 0 tokenParts "") "Bearer")
    then Aborted 401 "invalid authorization header format"
    else
      let token := nth 1 tokenParts "" in
      match ValidateToken token with
      | Err _ => Aborted 401 "invalid token"
      | Ok claims =>
        Next (<["user_role" := claims !! "role"]>
              (<["user_email" := claims !! "email"]>
              (<["user_id" := claims !! "user_id"]> keys)))
      end.

(** [AuthMiddleware.RequireAdmin] *)
Definition RequireAdmin (keys : gmap string (option claim)) : Outcome :=
  match keys !! "user_role" with
  | None => Aborted 401 "user role not found"
  | Some role =>
    match role with
    | Some (ClaimString r) =>
      if String.eqb r "admin" then Next keys else Aborted 403 "admin access required"
    | _ => Aborted 403 "admin access required"
    end
  end.

(** [AuthMiddleware.OptionalAuth] *)
Definition OptionalAuth (authHeader : string) (keys : gmap string (option claim)) : Outcome :=
  if String.eqb authHeader "" then Next keys
  else
    let tokenParts := split_on " " authHeader "" in
    if negb (Nat.eqb (length tokenParts) 2) || negb (String.eqb (nth 0 tokenParts "") "Bearer")
    then Next keys
    else
      let token := nth 1 tokenParts "" in
      match ValidateToken token with
      | Err _ => Next keys
      | Ok claims =>
        Next (<["user_role" := claims !! "role"]>
              (<["user_email" := claims !! "email"]>
              (<["user_id" := claims !! "user_id"]> keys)))
      end.

(** The chain in front of every admin route:
    [authMiddleware.RequireAuth(), authMiddleware.RequireAdmin(), handler]. *)
Definition admin_route (authHeader : string) : Outcome :=
  match RequireAuth authHeader ∅ with
  | Next keys => RequireAdmin keys
  | Aborted status error => Aborted status error
  end.
End Middleware.

(** ** package utils: checking an upload and naming its URL *)

(** The loop of [filepath.Ext], from the last byte backwards: [before] is
    what is still to scan, last byte first, [after] what has been scanned. *)
Fixpoint Ext_loop (before : list ascii) (after : string) : string :=
  match before with
  | [] => ""
  | c :: more =>
    if Ascii.eqb c "/" then ""
    else if Ascii.eqb c "." then String c after
    else Ext_loop more (String c after)
  end.

(** [filepath.Ext(path)] *)
Definition filepath_Ext (path : string) : string :=
  Ext_loop (rev (list_ascii_of_string path)) "".

(** [strings.ToLower], which works on Unicode letters. *)
Class Strings := { strings_ToLower : string -> string }.

Module FileHeader.
Record t := mk {
  Filename : string;
  Size : Z;
  ContentType : string }.      (* header.Header.Get("Content-Type") *)
End FileHeader.

(** The extensions [ValidateFile] allows. *)
Definition allowedExts : gmap string bool :=
  <[".jpg" := true]> (<[".jpeg" := true]> (<[".png" := true]>
  (<[".gif" := true]> (<[".webp" := true]> ∅)))).

(** [m[key]] on a [map[string]bool]: [false] for a missing key. *)
Definition map_bool (m : gmap string bool) (key : string) : bool :=
  match m !! key with Some b => b | None => false end.

Section Validate.
Context `{Strings}.

(** [UploadConfig.ValidateFile]: [None] is [nil]. *)
Definition ValidateFile (uc : UploadConfig.t) (header : FileHeader.t) : option string :=
  if UploadConfig.MaxFileSize uc <? FileHeader.Size header then
    Some ("file size " +:+ sprintf_d (FileHeader.Size header) +:+
          " exceeds maximum allowed size " +:+ sprintf_d (UploadConfig.MaxFileSize uc))
  else if negb (map_bool (UploadConfig.AllowedTypes uc) (FileHeader.ContentType header)) then
    Some ("file type " +:+ FileHeader.ContentType header +:+ " is not allowed")
  else
    let ext := strings_ToLower (filepath_Ext (FileHeader.Filename header)) in
    if negb (map_bool allowedExts ext) then
      Some ("file extension " +:+ ext +:+ " is not allowed")
    else None.
End Validate.

(** [strings.ReplaceAll(s, old, new)] for one-byte [old] and [new]. *)
Fixpoint replace_byte (old new : ascii) (s : string) : string :=
  match s with
  | EmptyString => EmptyString
  | String c rest => String (if Ascii.eqb c old then new else c) (replace_byte old new rest)
  end.

(** [strings.TrimPrefix(s, "/")] and [strings.TrimSuffix(s, "/")] *)
Definition trim_prefix_slash (s : string) : string :=
  match s with
  | String c rest => if Ascii.eqb c "/" then rest else s
  | EmptyString => s
  end.

Fixpoint trim_suffix_slash (s : string) : string :=
  match s with
  | EmptyString => EmptyString
  | String c EmptyString => if Ascii.eqb c "/" then EmptyString else s
  | String c rest => String c (trim_suffix_slash rest)
  end.

(** [GenerateImageURL] *)
Definition GenerateImageURL (filePath baseURL : string) : string :=
  if String.eqb filePath "" then ""
  else
    let urlPath := replace_byte "\" "/" filePath in
    trim_suffix_slash baseURL +:+ "/" +:+ trim_prefix_slash urlPath.

(** ** Identities from text *)

(** The value of a hexadecimal digit, of either case. *)
Definition hex_value (c : ascii) : option N :=
  let n := N_of_ascii c in
  if (48 <=? n)%N && (n <=? 57)%N then Some (n - 48)%N
  else if (97 <=? n)%N && (n <=? 102)%N then Some (n - 87)%N
  else if (65 <=? n)%N && (n <=? 70)%N then Some (n - 55)%N
  else None.

(** The error of [encoding/hex] for a byte that is no digit. *)
Class HexErrors := { hex_InvalidByteError : ascii -> string }.

Section Hex.
Context `{HexErrors}.

(** [hex.Decode], the bytes read as one number; it stops at the first byte
    that is no digit. *)
Fixpoint hex_Decode (s : string) (acc : N) : Res N :=
  match s with
  | EmptyString => Ok acc
  | String c rest =>
    match hex_value c with
    | Some d => hex_Decode rest (acc * 16 + d)%N
    | None => Err (hex_InvalidByteError c)
    end
  end.

(** [primitive.ObjectIDFromHex] *)
Definition ObjectIDFromHex (s : string) : Res ObjectID :=
  if negb (Nat.eqb (String.length s) 24)
  then Err "the provided hex string is not a valid ObjectID"
  else hex_Decode s 0%N.

(** [parseObjectID] *)
Definition parseObjectID (id : string) : Res ObjectID := ObjectIDFromHex id.
End Hex.

(** ** Categories (CategoryUseCase and its repository) *)

Module Category.
Record t := mk {
  ID : ObjectID;
  Name : string;
  CreatedAt : Time;
  UpdatedAt : Time }.
End Category.

Module CreateCategoryRequest.
Record t := mk { Name : string }.
End CreateCategoryRequest.

(** The database with the collection "categories", in insertion order. *)
Record Store := mkStore {
  world : World;
  categories : list Category.t }.

Definition CM (A : Type) : Type := Store -> Res A * Store.

#[global] Instance CM_ret : MRet CM := fun A a st => (Ok a, st).
#[global] Instance CM_bind : MBind CM := fun A B f m st =>
  match m st with
  | (Ok a, st') => f a st'
  | (Err e, st') => (Err e, st')
  end.

(** What works on the database at large works here too. *)
Definition lift {A} (m : M A) : CM A := fun st =>
  let (r, w') := m (world st) in (r, mkStore w' (categories st)).

Definition cat_fail {A} (msg : string) : CM A := fun st => (Err msg, st).
Definition cat_get : CM (list Category.t) := fun st => (Ok (categories st), st).
Definition cat_put (cs : list Category.t) : CM unit := fun st => (Ok tt, mkStore (world st) cs).

(** [categoryRepository.GetByID] and [GetByName]: the first match, if any. *)
Definition categoryRepo_GetByID (id : ObjectID) : CM (option Category.t) :=
  lift storage_call;;
  cs ← cat_get;
  mret (List.find (fun c => N.eqb (Category.ID c) id) cs).

Definition categoryRepo_GetByName (name : string) : CM (option Category.t) :=
  lift storage_call;;
  cs ← cat_get;
  mret (List.find (fun c => String.eqb (Category.Name c) name) cs).

(** [categoryRepository.Create] *)
Definition categoryRepo_Create (category : Category.t) : CM Category.t :=
  existing ← categoryRepo_GetByName (Category.Name category);
  match existing with
  | Some _ => cat_fail "category already exists"
  | None =>
    id ← lift NewObjectID;
    created ← lift time_Now;
    updated ← lift time_Now;
    let category := Category.mk id (Category.Name category) created updated in
    lift storage_call;;
    cs ← cat_get;
    cat_put (cs ++ [category]);;
    mret category
  end.

(** [DeleteOne({_id: id})]: the first document with that identity goes. *)
Fixpoint delete_first (id : ObjectID) (cs : list Category.t) : list Category.t :=
  match cs with
  | [] => []
  | c :: rest => if N.eqb (Category.ID c) id then rest else c :: delete_first id rest
  end.

(** [categoryRepository.Delete] *)
Definition categoryRepo_Delete (id : ObjectID) : CM unit :=
  lift storage_call;;
  cs ← cat_get;
  cat_put (delete_first id cs).

(** [categoryRepository.List] *)
Definition categoryRepo_List : CM (list Category.t) :=
  lift storage_call;;
  cat_get.

Section Categories.
Context `{HexErrors}.

(** [CategoryUseCase.CreateCategory] *)
Definition CreateCategory (req : CreateCategoryRequest.t) : CM Category.t :=
  existing ← categoryRepo_GetByName (CreateCategoryRequest.Name req);
  match existing with
  | Some _ => cat_fail "category already exists"
  | None =>
    let category := Category.mk NilObjectID (CreateCategoryRequest.Name req) zeroTime zeroTime in
    categoryRepo_Create category
  end.

(** [CategoryUseCase.GetCategories] *)
Definition GetCategories : CM (list Category.t) := categoryRepo_List.

(** [CategoryUseCase.GetCategoryByID] *)
Definition GetCategoryByID (id : string) : CM Category.t :=
  match parseObjectID id with
  | Err e => cat_fail e
  | Ok objID =>
    category ← categoryRepo_GetByID objID;
    match category with
    | None => cat_fail "category not found"
    | Some category => mret category
    end
  end.

(** [CategoryUseCase.DeleteCategory] *)
Definition DeleteCategory (id : string) : CM unit :=
  match parseObjectID id with
  | Err e => cat_fail e
  | Ok objID =>
    category ← categoryRepo_GetByID objID;
    match category with
    | None => cat_fail "category not found"
    | Some _ => categoryRepo_Delete objID
    end
  end.
End Categories.

(** * Sample data *)

Module Sample.
(** Product A of the specification's scenario: stock 5, price 10.00. *)
Definition productA : Product.t :=
  Product.mk 7%N "Plough" "" 10%float "tools" "" "" [] 5 true 0 0.

Definition shop : World := mkWorld {[ 7%N := productA ]} [] [] [] 100 1%N 0%N.

(** A product whose catalog price is one unit in the last place above the
    price a request asks for. *)
Definition productB : Product.t :=
  Product.mk 8%N "Seed drill" "" 0x1.8000000000003p0%float "tools" "" "" [] 5 true 0 0.
Definition requestB : CreateSaleRequest.t :=
  CreateSaleRequest.mk 8%N 3 0x1.8000000000002p0%float.
Definition shopB : World := mkWorld {[ 8%N := productB ]} [] [] [] 100 1%N 0%N.

(** A JSON creation request whose first image URL is blank. *)
Definition request_blank_first_url : CreateProductRequest.t :=
  CreateProductRequest.mk "Harrow" "" 25%float "tools" "" "" [""; "http://img/harrow.png"] 3.

(** A product created with one uploaded file, which is its primary image. *)
Definition uploaded_image : ProductImage.t :=
  ProductImage.mk "f1" "http://localhost:8082/uploads/products/1_f1.png" "harrow.png"
                  "uploads/products/1_f1.png" 2048 "image/png" false true 50.
Definition productC : Product.t :=
  Product.mk 9%N "Harrow" "" 25%float "tools" "" "" [uploaded_image] 3 true 50 50.
Definition shopC : World := mkWorld {[ 9%N := productC ]} [] [] [] 100 1%N 0%N.

(** An update that only gives the legacy image URL, and one that gives nothing. *)
Definition request_legacy_url : UpdateProductRequest.t :=
  UpdateProductRequest.mk "" "" 0%float "" "" "http://img/harrow.png" [] 3 None.
Definition request_nothing : UpdateProductRequest.t :=
  UpdateProductRequest.mk "" "" 0%float "" "" "" [] 0 None.
Definition request_rename : UpdateProductRequest.t :=
  UpdateProductRequest.mk "Disc harrow" "" 0%float "" "" "" [] (-1) None.

(** A search for active tools named like "plough", without pagination. *)
Definition filter_tools : ProductFilter.t :=
  ProductFilter.mk "tools" "" 0%float 0%float (Some true) "Plough" 0 0.

(** A matcher for patterns without metacharacters: the pattern occurs in
    the subject (the option is not looked at). *)
Fixpoint occurs_in (pattern subject : string) : bool :=
  String.prefix pattern subject ||
  match subject with
  | EmptyString => false
  | String _ rest => occurs_in pattern rest
  end.
Definition literal_regex : Regex := {| regex_match := fun pattern _ subject => occurs_in pattern subject |}.

(** Two sales on record: one of product A, one of a product since deleted. *)
Definition sale1 : Sale.t := Sale.mk 21%N 7%N None 2 10%float 20%float 150 151 152.
Definition sale2 : Sale.t := Sale.mk 22%N 99%N None 1 4%float 4%float 160 161 162.
Definition ledger : World := set_sales [sale1; sale2] shop.

(** A product whose name runs over two lines, and its one sale. *)
Definition productD : Product.t :=
  Product.mk 7%N ("Plough" +:+ String (ascii_of_nat 10) "heavy") "" 10%float "tools" "" "" [] 5 true 0 0.
Definition ledgerD : World :=
  mkWorld {[ 7%N := productD ]} [sale1] [] [] 100 1%N 0%N.

(** A rendering of amounts and instants for the examples ([%.2f] of the
    two amounts above, instants as their count). *)
Definition plain_formatting : Formatting :=
  {| sprintf_2f := fun x => if PrimFloat.eqb x 10 then "10.00"
                            else if PrimFloat.eqb x 20 then "20.00"
                            else if PrimFloat.eqb x 4 then "4.00" else "?";
     time_Format := fun _ t => sprintf_d t |}.

(** The server's disk: one uploaded image and, next to the upload
    directory, the environment file of the application. *)
Definition disk : FileSystem :=
  mkFS ["srv"; "app"]
       {[ ["srv"; "app"; "uploads"; "products"; "1700000000_ab12.png"];
          ["srv"; "app"; ".env"] ]}.

(** A path that starts with the upload directory and climbs out of it. *)
Definition escaping_path : string := "uploads/products/../../.env".

(** A hasher for the examples (it is not bcrypt): the password is tagged,
    and passwords over 72 bytes are refused as bcrypt refuses them. *)
Definition tagging_hasher : Bcrypt :=
  {| bcrypt_GenerateFromPassword := fun password _ =>
       if (72 <? String.length password)%nat
       then Err "bcrypt: password length exceeds 72 bytes"
       else Ok ("$2a$10$" +:+ password) |}.

(** A registration that asks for the admin role. *)
Definition request_admin : CreateUserRequest.t :=
  CreateUserRequest.mk "mallory@example.com" "secret1" "Mallory" "admin".

(** The same shop when the third storage call is going to fail. *)
Definition shop_failing_third : World :=
  set_faults [None; None; Some "connection reset"] shop.
End Sample.

(** * What the specification says, as predicates *)

(** The computation fails with [msg] and leaves products and sales as they were. *)
Definition rejected_with {A} (msg : string) (c : M A) (w : World) : Prop :=
  exists w', c w = (Err msg, w') /\ products w' = products w /\ sales w' = sales w.

(** Whatever the outcome of the computation, the stock of [id] is not negative after it. *)
Definition stock_nonneg_after {A} (c : M A) (id : ObjectID) (w : World) : Prop :=
  exists p', products (c w).2 !! id = Some p' /\ 0 <= Product.Stock p'.

(** What a successful CreateSale leaves behind, given the unit price the
    implementation records: the returned sale is the last one persisted,
    carries that price and the total [price * float64(quantity)], and the
    stock of the product went down by the quantity. *)
Definition sale_recorded (price : float64) (req : CreateSaleRequest.t) (p : Product.t)
    (w : World) (sale : Sale.t) (w' : World) : Prop :=
  sales w' = sales w ++ [sale] /\
  Sale.ProductID sale = CreateSaleRequest.ProductID req /\
  Sale.Quantity sale = CreateSaleRequest.Quantity req /\
  Sale.Price sale = price /\
  Sale.Total sale = PrimFloat.mul price (float64_of_int (CreateSaleRequest.Quantity req)) /\
  Product.Stock <$> products w' !! CreateSaleRequest.ProductID req
    = Some (Product.Stock p - CreateSaleRequest.Quantity req).

(** The contract of one CreateSale implementation for a validated request
    that the stock covers: it succeeds when the database does, and every
    success satisfies [sale_recorded] for the price [price_of req p]. *)
Definition CreateSale_contract (CreateSale : CreateSaleRequest.t -> M Sale.t)
    (price_of : CreateSaleRequest.t -> Product.t -> float64) : Prop :=
  forall (w : World) (req : CreateSaleRequest.t) (p : Product.t),
    products w !! CreateSaleRequest.ProductID req = Some p ->
    0 < CreateSaleRequest.Quantity req <= Product.Stock p ->
    int64_range (Product.Stock p) ->
    (healthy 3 w = true -> exists sale w', CreateSale req w = (Ok sale, w')) /\
    (forall sale w', CreateSale req w = (Ok sale, w') ->
       sale_recorded (price_of req p) req p w sale w').

Definition request_price (req : CreateSaleRequest.t) (p : Product.t) : float64 :=
  CreateSaleRequest.Price req.
Definition catalog_price (req : CreateSaleRequest.t) (p : Product.t) : float64 :=
  Product.Price p.

(** C2 as the specification states it, for one implementation: after a
    success on a request that the stock covers, the stock went down by the
    quantity and the persisted sale has the total [q * p], [p] being the
    caller-supplied price. *)
Definition total_from_request_price (CreateSale : CreateSaleRequest.t -> M Sale.t) : Prop :=
  forall (w : World) (req : CreateSaleRequest.t) (p : Product.t) (sale : Sale.t) (w' : World),
    products w !! CreateSaleRequest.ProductID req = Some p ->
    0 < CreateSaleRequest.Quantity req <= Product.Stock p ->
    int64_range (Product.Stock p) ->
    CreateSale req w = (Ok sale, w') ->
    Product.Stock <$> products w' !! CreateSaleRequest.ProductID req
      = Some (Product.Stock p - CreateSaleRequest.Quantity req) /\
    sales w' = sales w ++ [sale] /\
    Sale.Total sale = PrimFloat.mul (CreateSaleRequest.Price req)
                                    (float64_of_int (CreateSaleRequest.Quantity req)).

(** C3 as the specification states it: on the same request and state the two
    implementations record the request price and the catalog price, and
    when these differ the sale records differ and so do their totals. *)
Definition prices_differ_so_totals_differ : Prop :=
  forall (w : World) (req : CreateSaleRequest.t) (p : Product.t)
         (sale1 sale2 : Sale.t) (w1 w2 : World),
    products w !! CreateSaleRequest.ProductID req = Some p ->
    0 < CreateSaleRequest.Quantity req <= Product.Stock p ->
    int64_range (Product.Stock p) ->
    fgt0 (CreateSaleRequest.Price req) = true ->
    fgt0 (Product.Price p) = true ->
    SaleUseCase_CreateSale req w = (Ok sale1, w1) ->
    SalesUseCase_CreateSale req w = (Ok sale2, w2) ->
    Sale.Price sale1 = CreateSaleRequest.Price req /\
    Sale.Price sale2 = Product.Price p /\
    (CreateSaleRequest.Price req <> Product.Price p ->
       sale1 <> sale2 /\ Sale.Total sale1 <> Sale.Total sale2).

(** C4: the computation returns the error [e], one sale for the request has
    been added to the persisted sales, and the products are as before. *)
Definition sale_persisted_stock_kept (c : M Sale.t) (req : CreateSaleRequest.t)
    (e : string) (w : World) : Prop :=
  exists sale w',
    c w = (Err e, w') /\
    sales w' = sales w ++ [sale] /\
    Sale.ProductID sale = CreateSaleRequest.ProductID req /\
    Sale.Quantity sale = CreateSaleRequest.Quantity req /\
    products w' = products w.

(** How many images of a collection are flagged primary. *)
Definition primary_count (images : list ProductImage.t) : nat :=
  length (List.filter ProductImage.IsPrimary images).

(** C5: a collection that is not empty has exactly one primary image. *)
Definition one_primary (images : list ProductImage.t) : Prop :=
  images <> [] -> primary_count images = 1%nat.

(** C6 as the specification states it, for the stock: a request whose stock
    is zero leaves the stored stock as it was. *)
Definition zero_stock_means_unchanged
    (Update : ObjectID -> UpdateProductRequest.t -> M Product.t) : Prop :=
  forall (w : World) (id : ObjectID) (p : Product.t) (req : UpdateProductRequest.t)
         (product : Product.t) (w' : World),
    products w !! id = Some p ->
    UpdateProductRequest.Stock req = 0 ->
    Update id req w = (Ok product, w') ->
    Product.Stock <$> products w' !! id = Some (Product.Stock p).

(** C6, as the code has it: what the stored product [p'] is after an update
    of [p] by [req]. A string is overwritten when the request's is not
    empty, the price when the request's is positive, the stock when the
    request's is not negative (zero included), the active flag when the
    request carries one; the images are left alone by a request without
    image fields. *)
Definition partially_updated (req : UpdateProductRequest.t) (p p' : Product.t) : Prop :=
  Product.Name p' = (if nonempty (UpdateProductRequest.Name req)
                     then UpdateProductRequest.Name req else Product.Name p) /\
  Product.Description p' = (if nonempty (UpdateProductRequest.Description req)
                            then UpdateProductRequest.Description req else Product.Description p) /\
  Product.Price p' = (if fgt0 (UpdateProductRequest.Price req)
                      then UpdateProductRequest.Price req else Product.Price p) /\
  Product.Category p' = (if nonempty (UpdateProductRequest.Category req)
                         then UpdateProductRequest.Category req else Product.Category p) /\
  Product.Brand p' = (if nonempty (UpdateProductRequest.Brand req)
                      then UpdateProductRequest.Brand req else Product.Brand p) /\
  Product.Stock p' = (if 0 <=? UpdateProductRequest.Stock req
                      then UpdateProductRequest.Stock req else Product.Stock p) /\
  Product.IsActive p' = match UpdateProductRequest.IsActive req with
                        | Some isActive => isActive
                        | None => Product.IsActive p
                        end /\
  Product.CreatedAt p' = Product.CreatedAt p /\
  (UpdateProductRequest.ImageURL req = "" -> Product.ImageURL p' = Product.ImageURL p) /\
  (UpdateProductRequest.ImageURL req = "" -> UpdateProductRequest.ImageURLs req = [] ->
     Product.Images p' = Product.Images p).

(** Reading the clock and drawing identifiers leave the stored data and the
    schedule of storage outcomes as they are. *)
Definition same_store (w w' : World) : Prop :=
  products w' = products w /\ sales w' = sales w /\ users w' = users w /\
  faults w' = faults w.

(** C8: the text after the header, one row per listed sale with the
    product name given for it. *)
Definition csv_rows `{Formatting} (listed : list Sale.t) (names : list string) : string :=
  foldr String.append "" (zip_with csv_row listed names).

(** C8: the lines of a text, each ended by a line feed (a last line may
    lack it). *)
Definition line_feed : ascii := ascii_of_nat 10.

Fixpoint lines_of (text : string) (cur : string) : list string :=
  match text with
  | EmptyString => if String.eqb cur "" then [] else [cur]
  | String c rest =>
    if Ascii.eqb c line_feed then cur :: lines_of rest ""
    else lines_of rest (cur +:+ String c EmptyString)
  end.

Definition text_lines (text : string) : list string := lines_of text "".

Fixpoint no_line_feed (s : string) : bool :=
  match s with
  | EmptyString => true
  | String c rest => negb (Ascii.eqb c line_feed) && no_line_feed rest
  end.

(** C8: the row of a sale as the specification lists its columns: ID,
    Product ID, Product Name, Quantity, Price, Total, Date Sold, separated
    by commas. *)
Definition sale_columns `{Formatting} (sale : Sale.t) (productName : string) : list string :=
  [ ObjectID_Hex (Sale.ID sale);
    ObjectID_Hex (Sale.ProductID sale);
    productName;
    sprintf_d (Sale.Quantity sale);
    sprintf_2f (Sale.Price sale);
    sprintf_2f (Sale.Total sale);
    time_Format "2006-01-02 15:04:05" (Sale.DateSold sale) ].

Definition sale_line `{Formatting} (sale : Sale.t) (productName : string) : string :=
  String.concat "," (sale_columns sale productName).

(** C8: the rendering of amounts and instants breaks no line. *)
Definition formats_on_one_line `{Formatting} : Prop :=
  (forall x, no_line_feed (sprintf_2f x) = true) /\
  (forall layout t, no_line_feed (time_Format layout t) = true).

(** C8: the product name a row may carry. It is "Unknown" when the product
    of the sale is not stored (any more); for a stored product it is the
    product's name, or "Unknown" when looking the product up failed. *)
Definition row_name_ok (w : World) (sale : Sale.t) (name : string) : Prop :=
  match products w !! Sale.ProductID sale with
  | None => name = "Unknown"
  | Some p => name = Product.Name p \/ name = "Unknown"
  end.

(** The name of the product of a sale as the database has it. *)
Definition product_name (w : World) (sale : Sale.t) : string :=
  match products w !! Sale.ProductID sale with
  | None => "Unknown"
  | Some p => Product.Name p
  end.

(** C8: a text that is the header line followed by one line per sale of
    the range, each with the columns of its sale. *)
Definition csv_of_sales `{Formatting} (w : World) (fromDate toDate : Time) (text : string)
  : Prop :=
  exists (listed : list Sale.t) (names : list string),
    Permutation listed (List.filter (date_sold_in fromDate toDate) (sales w)) /\
    Forall2 (row_name_ok w) listed names /\
    text_lines text
      = "ID,Product ID,Product Name,Quantity,Price,Total,Date Sold"
        :: zip_with sale_line listed names.

(** C8 as the specification states it, for the format "csv": whatever is
    stored, the export is the header line followed by exactly one row per
    sale of the range. *)
Definition one_row_per_sale `{Formatting} (Export : Time -> Time -> string -> M string) : Prop :=
  formats_on_one_line ->
  forall (w : World) (fromDate toDate : Time),
    healthy 1 w = true ->
    exists (text : string) (w' : World),
      Export fromDate toDate "csv" w = (Ok text, w') /\ csv_of_sales w fromDate toDate text.

(** C8: no stored product has a line feed in its name. *)
Definition names_on_one_line (w : World) : Prop :=
  forall (id : ObjectID) (p : Product.t),
    products w !! id = Some p -> no_line_feed (Product.Name p) = true.

(** C10: the role Register stores for a request. *)
Definition stored_role (req : CreateUserRequest.t) : string :=
  if String.eqb (CreateUserRequest.Role req) "" then "user" else CreateUserRequest.Role req.

(** * Further sample data and predicates *)

Module Cases.
(** A shop with three products: two active ones low on stock, one inactive. *)
Definition plough : Product.t :=
  Product.mk 1%N "Plough" "" 10%float "tools" "" "" [] 5 true 10 10.
Definition sprayer : Product.t :=
  Product.mk 2%N "Sprayer" "" 40%float "tools" "" "" [] 2 true 20 20.
Definition tractor : Product.t :=
  Product.mk 3%N "Tractor" "" 9000%float "machines" "" "" [] 1 false 30 30.
Definition store : World :=
  mkWorld (<[1%N := plough]> (<[2%N := sprayer]> (<[3%N := tractor]> ∅)))
          [] [] [] 100 4%N 0%N.

(** Every product, two per page. *)
Definition two_per_page (page : Z) : ProductFilter.t :=
  ProductFilter.mk "" "" 0%float 0%float None "" page 2.

(** Three sales of the plough on record. *)
Definition sold1 : Sale.t := Sale.mk 11%N 1%N None 1 10%float 10%float 150 151 152.
Definition sold2 : Sale.t := Sale.mk 12%N 1%N None 2 10%float 20%float 170 171 172.
Definition sold3 : Sale.t := Sale.mk 13%N 2%N None 1 40%float 40%float 160 161 162.
Definition books : World := set_sales [sold1; sold2; sold3] store.

(** The sales of the plough, first page with the default size. *)
Definition plough_sales : SaleFilter.t := SaleFilter.mk 1%N 0 0 0 0.
End Cases.

(** A list in decreasing, respectively increasing, order of a key. *)
Definition descending {A} (key : A -> Z) (l : list A) : Prop :=
  StronglySorted (fun a b => key b <= key a) l.
Definition ascending {A} (key : A -> Z) (l : list A) : Prop :=
  StronglySorted (fun a b => key a <= key b) l.

(** What the low-stock report says of a product. *)
Definition low_stock_entry (product : Product.t) : LowStockProduct.t :=
  LowStockProduct.mk (Product.ID product) (Product.Name product) (Product.Stock product)
                     (Product.Category product) (Product.Price product).

(** The request for page [page] of a listing. *)
Definition at_page (filter : ProductFilter.t) (page : Z) : ProductFilter.t :=
  ProductFilter.mk (ProductFilter.Category filter) (ProductFilter.Brand filter)
                   (ProductFilter.MinPrice filter) (ProductFilter.MaxPrice filter)
                   (ProductFilter.IsActive filter) (ProductFilter.Search filter)
                   page (ProductFilter.Limit filter).

(** The whole listing for a filter: the matching products, newest first. *)
Definition whole_listing `{Regex} (filter : ProductFilter.t) (w : World) : list Product.t :=
  sort_desc Product.CreatedAt (List.filter (matches (List_mongoFilter filter)) (documents w)).

(** The products a successful computation returned, none on an error. *)
Definition returned {A} (r : Res (list A) * World) : list A :=
  match r.1 with Ok l => l | Err _ => [] end.

(** The page and page size a request stands for. *)
Definition effective_page (page : Z) : Z := if page <=? 0 then 1 else page.
Definition effective_limit (limit : Z) : Z := if limit <=? 0 then 10 else limit.

(** What a sale filter asks of a sale. *)
Definition sale_wanted (filter : SaleFilter.t) (s : Sale.t) : Prop :=
  (SaleFilter.ProductID filter <> NilObjectID -> Sale.ProductID s = SaleFilter.ProductID filter) /\
  (SaleFilter.FromDate filter <> zeroTime -> SaleFilter.FromDate filter <= Sale.DateSold s) /\
  (SaleFilter.ToDate filter <> zeroTime -> Sale.DateSold s <= SaleFilter.ToDate filter).

(** The same as a test: each bound counts only when it is given. *)
Definition sale_asked (filter : SaleFilter.t) (s : Sale.t) : bool :=
  (N.eqb (SaleFilter.ProductID filter) NilObjectID
   || N.eqb (Sale.ProductID s) (SaleFilter.ProductID filter)) &&
  (Z.eqb (SaleFilter.FromDate filter) zeroTime
   || (SaleFilter.FromDate filter <=? Sale.DateSold s)) &&
  (Z.eqb (SaleFilter.ToDate filter) zeroTime
   || (Sale.DateSold s <=? SaleFilter.ToDate filter)).

(** The units of a product sold so far, and the units in stock. *)
Definition units_sold (id : ObjectID) (w : World) : Z :=
  foldr (fun s acc => if N.eqb (Sale.ProductID s) id then Sale.Quantity s + acc else acc) 0 (sales w).
Definition units_in_stock (id : ObjectID) (w : World) : Z :=
  match products w !! id with Some p => Product.Stock p | None => 0 end.

(** A registered user of the examples, active or not. *)
Definition member (active : bool) : User.t :=
  User.mk 41%N "ann@example.com" "$2a$10$secret1" "Ann" "user" active 5 5.
Definition club (active : bool) : World :=
  mkWorld ∅ [] [member active] [] 100 50%N 0%N.

(** A comparison for the examples that goes with [Sample.tagging_hasher]. *)
Definition tagging_compare : BcryptCompare :=
  {| bcrypt_CompareHashAndPassword := fun hashed password =>
       if String.eqb hashed ("$2a$10$" +:+ password) then None
       else Some "crypto/bcrypt: hashedPassword is not the hash of the given password" |}.

(** A signer for the examples: the token names the subject and the role. *)
Definition plain_signer : JwtSigner :=
  {| jwt_SignedString := fun claims _ =>
       match claims !! "user_id", claims !! "role" with
       | Some (ClaimString id), Some (ClaimString role) => Ok (id +:+ "." +:+ role)
       | _, _ => Err "token is unverifiable"
       end |}.

(** The login failed with [msg] and stored nothing. *)
Definition login_refused {A} (msg : string) (c : M A) (w : World) : Prop :=
  exists w', c w = (Err msg, w') /\ users w' = users w.

(** A validator for the examples: it reads a token of [plain_signer] whose
    subject is "7", and knows the two roles. *)
Definition plain_validator : TokenValidator :=
  {| ValidateToken := fun token =>
       if String.eqb token "7.admin" then
         Ok (<["user_id" := ClaimString "7"]> (<["role" := ClaimString "admin"]> ∅))
       else if String.eqb token "7.user" then
         Ok (<["user_id" := ClaimString "7"]> (<["role" := ClaimString "user"]> ∅))
       else Err "token is malformed" |}.

(** The request carried a valid token whose role is (or is not) admin. *)
Definition bearer_of `{TokenValidator} (authHeader : string) (admin : bool) : Prop :=
  exists (token : string) (claims : gmap string claim),
    authHeader = "Bearer " +:+ token /\
    ValidateToken token = Ok claims /\
    (if admin then claims !! "role" = Some (ClaimString "admin")
     else claims !! "role" <> Some (ClaimString "admin")).

(** A name without a dot and without a separator. *)
Definition plain_byte (c : ascii) : bool := negb (Ascii.eqb c ".") && negb (Ascii.eqb c "/").
Definition plain_name (s : string) : bool := forallb plain_byte (list_ascii_of_string s).

(** The byte occurs in the string. *)
Definition has_byte (c : ascii) (s : string) : bool :=
  existsb (Ascii.eqb c) (list_ascii_of_string s).

(** Lower case for the letters A to Z, which is what [strings.ToLower] does
    on a string of ASCII. *)
Definition lower_byte (c : ascii) : ascii :=
  let n := N_of_ascii c in
  if (65 <=? n)%N && (n <=? 90)%N then ascii_of_N (n + 32) else c.
Fixpoint lower_ascii (s : string) : string :=
  match s with
  | EmptyString => EmptyString
  | String c rest => String (lower_byte c) (lower_ascii rest)
  end.
Definition ascii_strings : Strings := {| strings_ToLower := lower_ascii |}.

(** An upload that says it is a JPEG of 2048 bytes. *)
Definition upload (name : string) : FileHeader.t := FileHeader.mk name 2048 "image/jpeg".

(** The checks of ValidateFile that a header passes. *)
Definition fits (uc : UploadConfig.t) (header : FileHeader.t) : Prop :=
  FileHeader.Size header <= UploadConfig.MaxFileSize uc.
Definition type_allowed (uc : UploadConfig.t) (header : FileHeader.t) : Prop :=
  UploadConfig.AllowedTypes uc !! FileHeader.ContentType header = Some true.
Definition image_extension (ext : string) : Prop :=
  In ext [".jpg"; ".jpeg"; ".png"; ".gif"; ".webp"].

(** An error of [encoding/hex] for the examples. *)
Definition plain_hex_errors : HexErrors :=
  {| hex_InvalidByteError := fun c => "encoding/hex: invalid byte: " +:+ String c "" |}.

(** The names and the identities on the shelf of categories. *)
Definition names (st : Store) : list string := map Category.Name (categories st).
Definition category_ids (st : Store) : list ObjectID := map Category.ID (categories st).

(** A database of the examples with one category. *)
Definition tractors : Category.t := Category.mk 7%N "Tractors" 3 3.
Definition shelf : Store := mkStore (mkWorld ∅ [] [] [] 100 50%N 0%N) [tractors].

(** The call failed with some error and left the database as it was,
    without having called it. *)
Definition refused_untouched {A} (c : CM A) (st : Store) : Prop :=
  exists e, c st = (Err e, st).

(** The first image is the primary one and no other is. *)
Definition first_is_only_primary (images : list ProductImage.t) : Prop :=
  match images with
  | [] => True
  | first :: rest => ProductImage.IsPrimary first = true /\ primary_count rest = 0%nat
  end.

(** What the loops over the URLs keep: no image is primary, or the first one
    alone is. *)
Definition tidy (images : list ProductImage.t) : Prop :=
  primary_count images = 0%nat \/ first_is_only_primary images.

(** An uploaded picture, not flagged primary by the handler. *)
Definition photo : ProductImage.t :=
  ProductImage.mk "f1" "" "plough.png" "uploads/products/1_f1.png" 2048 "image/png" false false 7.

(** * Properties *)

(** ** Machine arithmetic *)

Lemma wrap64_id (z : Z) : int64_range z -> wrap64 z = z.
Proof.
  unfold int64_range, wrap64. intros Hz.
  rewrite Z.mod_small by lia. lia.
Qed.

(** Two floats that a total order test tells apart are different. *)
Lemma float_neq_by_ltb (a b c : float64) :
  PrimFloat.ltb a c = true -> PrimFloat.ltb b c = false -> a <> b.
Proof. intros Ha Hb ->. congruence. Qed.

(** ** Running the collaborators *)

Lemma bind_run {A B} (m : M A) (f : A -> M B) (w : World) :
  (m ≫= f) w = match m w with (Ok a, w') => f a w' | (Err e, w') => (Err e, w') end.
Proof. reflexivity. Qed.

(** Unfolds the plumbing of the monad, leaving the database operations. *)
Ltac run :=
  cbv [saleRepo_Create productRepo_UpdateStock productRepo_Update productRepo_GetByID
       productRepo_Create userRepo_Create userRepo_GetByEmail saleRepo_GetSalesByDateRange
       mbind mret M_bind M_ret time_Now NewObjectID uuid_New modify fail get storage_call
       ignoring_error];
  simpl.

(** A storage call uses up one scheduled outcome and touches nothing else. *)
Lemma storage_call_cases (w : World) :
  storage_call w = (Ok tt, set_faults (tail (faults w)) w) \/
  exists e, storage_call w = (Err e, set_faults (tail (faults w)) w).
Proof.
  unfold storage_call. destruct (faults w) as [|[e|] rest]; simpl; eauto.
Qed.

Lemma storage_call_healthy (n : nat) (w : World) :
  healthy (S n) w = true ->
  storage_call w = (Ok tt, set_faults (tail (faults w)) w) /\
  healthy n (set_faults (tail (faults w)) w) = true.
Proof.
  unfold healthy, storage_call. destruct (faults w) as [|[e|] rest]; simpl; try done.
  intros _. split; [done|]. by destruct n.
Qed.

Lemma GetByID_healthy (n : nat) (id : ObjectID) (w : World) :
  healthy (S n) w = true ->
  productRepo_GetByID id w
    = (Ok (decode id <$> products w !! id), set_faults (tail (faults w)) w) /\
  healthy n (set_faults (tail (faults w)) w) = true.
Proof.
  intros Hh. destruct (storage_call_healthy n w Hh) as [Hs Hn].
  unfold productRepo_GetByID. rewrite bind_run, Hs. done.
Qed.

Lemma same_store_refl (w : World) : same_store w w.
Proof. by repeat split. Qed.

Lemma same_store_healthy (n : nat) (w w' : World) :
  same_store w w' -> healthy n w = true -> healthy n w' = true.
Proof. intros (_ & _ & _ & Hf). unfold healthy. by rewrite Hf. Qed.

(** ** Sales: the stock check (C1) *)

(** C1. When the product is found and the requested quantity exceeds its
    stock, both CreateSale implementations fail with "insufficient stock" and
    leave the stored products (hence the stock) and the sales unchanged.
    Consequently a validated request (quantity > 0) never drives a
    non-negative stock below zero, whatever the database does. *)
Theorem CreateSale_insufficient_stock (w : World) (req : CreateSaleRequest.t) (p : Product.t) :
  products w !! CreateSaleRequest.ProductID req = Some p ->
  (healthy 1 w = true -> Product.Stock p < CreateSaleRequest.Quantity req ->
     rejected_with "insufficient stock" (SaleUseCase_CreateSale req) w /\
     rejected_with "insufficient stock" (SalesUseCase_CreateSale req) w)
  /\
  (0 < CreateSaleRequest.Quantity req -> 0 <= Product.Stock p < 2 ^ 63 ->
     stock_nonneg_after (SaleUseCase_CreateSale req) (CreateSaleRequest.ProductID req) w /\
     stock_nonneg_after (SalesUseCase_CreateSale req) (CreateSaleRequest.ProductID req) w).
Proof.
  intros Hp. split.
  - intros Hh Hlt.
    destruct (GetByID_healthy 0 (CreateSaleRequest.ProductID req) w Hh) as [Hg _].
    rewrite Hp in Hg. simpl in Hg.
    assert (Hb : (Product.Stock (decode (CreateSaleRequest.ProductID req) p)
                    <? CreateSaleRequest.Quantity req) = true)
      by (apply Z.ltb_lt; exact Hlt).
    split; eexists; (split; [|split]).
    + unfold SaleUseCase_CreateSale. rewrite bind_run, Hg, Hb. reflexivity.
    + reflexivity.
    + reflexivity.
    + unfold SalesUseCase_CreateSale. rewrite bind_run, Hg, Hb. reflexivity.
    + reflexivity.
    + reflexivity.
  - intros Hq Hs.
    unfold stock_nonneg_after, SaleUseCase_CreateSale, SalesUseCase_CreateSale.
    rewrite !bind_run.
    unfold productRepo_GetByID. rewrite !bind_run.
    destruct (storage_call_cases w) as [Hc|[e Hc]]; rewrite Hc; simpl.
    2: { split; exists p; split; auto; lia. }
    rewrite Hp. simpl.
    destruct (Z.ltb_spec (Product.Stock p) (CreateSaleRequest.Quantity req)) as [Hlt|Hge].
    { simpl. split; exists p; split; auto; lia. }
    assert (Hw : wrap64 (Product.Stock p - CreateSaleRequest.Quantity req)
                 = Product.Stock p - CreateSaleRequest.Quantity req)
      by (apply wrap64_id; unfold int64_range; lia).
    rewrite Hw.
    split; run;
      destruct (faults w) as [|o1 [|[e2|] [|[e3|] rest]]]; simpl;
      try (exists p; split; [assumption|lia]).
    all: try (rewrite lookup_alter_eq, Hp; simpl; eexists; split; [reflexivity|simpl; lia]).
    all: rewrite Hp; simpl; rewrite lookup_insert_eq; eexists; split; [reflexivity|simpl; lia].
Qed.

(** The scenario of the specification: product A has stock 5; a sale of 6 is
    rejected, a sale of 5 leaves a stock that is not negative. *)
Lemma CreateSale_insufficient_stock_witness :
  (rejected_with "insufficient stock"
     (SaleUseCase_CreateSale (CreateSaleRequest.mk 7%N 6 10%float)) Sample.shop /\
   rejected_with "insufficient stock"
     (SalesUseCase_CreateSale (CreateSaleRequest.mk 7%N 6 10%float)) Sample.shop)
  /\
  (stock_nonneg_after (SaleUseCase_CreateSale (CreateSaleRequest.mk 7%N 5 10%float)) 7%N Sample.shop /\
   stock_nonneg_after (SalesUseCase_CreateSale (CreateSaleRequest.mk 7%N 5 10%float)) 7%N Sample.shop).
Proof.
  split.
  - apply (CreateSale_insufficient_stock Sample.shop (CreateSaleRequest.mk 7%N 6 10%float)
             Sample.productA); [reflexivity | reflexivity | simpl; lia].
  - apply (CreateSale_insufficient_stock Sample.shop (CreateSaleRequest.mk 7%N 5 10%float)
             Sample.productA); [reflexivity | simpl; lia | simpl; lia].
Defined.

(** ** Sales: a successful sale (C2, C3) *)

Lemma SaleUseCase_CreateSale_contract : CreateSale_contract SaleUseCase_CreateSale request_price.
Proof.
  intros w req p Hp [Hq Hle] Hr.
  assert (Hw : wrap64 (Product.Stock p - CreateSaleRequest.Quantity req)
               = Product.Stock p - CreateSaleRequest.Quantity req)
    by (apply wrap64_id; unfold int64_range in *; lia).
  assert (Hb : (Product.Stock p <? CreateSaleRequest.Quantity req) = false)
    by (apply Z.ltb_ge; lia).
  unfold SaleUseCase_CreateSale, sale_recorded, request_price, healthy. run.
  destruct (faults w) as [|[e1|] [|[e2|] [|[e3|] rest]]]; simpl;
    rewrite ?Hp; simpl; rewrite ?Hb, ?Hw; simpl.
  all: split; [try discriminate; eauto|].
  all: intros sale w' Heq; inversion Heq; subst; clear Heq; simpl.
  all: rewrite lookup_alter_eq, Hp; simpl; auto 10.
Qed.

Lemma SalesUseCase_CreateSale_contract : CreateSale_contract SalesUseCase_CreateSale catalog_price.
Proof.
  intros w req p Hp [Hq Hle] Hr.
  assert (Hw : wrap64 (Product.Stock p - CreateSaleRequest.Quantity req)
               = Product.Stock p - CreateSaleRequest.Quantity req)
    by (apply wrap64_id; unfold int64_range in *; lia).
  assert (Hb : (Product.Stock p <? CreateSaleRequest.Quantity req) = false)
    by (apply Z.ltb_ge; lia).
  unfold SalesUseCase_CreateSale, sale_recorded, catalog_price, healthy. run.
  destruct (faults w) as [|[e1|] [|[e2|] [|[e3|] rest]]]; simpl;
    rewrite ?Hp; simpl; rewrite ?Hb, ?Hw; simpl.
  all: rewrite ?Hp; simpl.
  all: split; [try discriminate; eauto|].
  all: intros sale w' Heq; inversion Heq; subst; clear Heq; simpl.
  all: rewrite lookup_insert_eq; simpl; auto 10.
Qed.

(** C2, counterexample. [SalesUseCase.CreateSale] does not record the
    caller-supplied price: selling 5 units of product A (catalog price 10) at
    a requested price of 11 persists a total of 50, not 55. *)
Lemma SalesUseCase_total_ignores_request_price :
  ~ total_from_request_price SalesUseCase_CreateSale.
Proof.
  intros Hc.
  assert (Hq : 0 < 5 <= Product.Stock Sample.productA) by (simpl; lia).
  assert (Hr : int64_range (Product.Stock Sample.productA))
    by (unfold int64_range; simpl; lia).
  destruct (SalesUseCase_CreateSale_contract Sample.shop (CreateSaleRequest.mk 7%N 5 11%float)
              Sample.productA eq_refl Hq Hr) as [Hex Hall].
  destruct (Hex eq_refl) as (sale & w' & Hrun).
  destruct (Hall sale w' Hrun) as (_ & _ & _ & _ & Hcatalog & _).
  destruct (Hc Sample.shop (CreateSaleRequest.mk 7%N 5 11%float) Sample.productA sale w'
              eq_refl Hq Hr Hrun) as (_ & _ & Hrequest).
  rewrite Hcatalog in Hrequest. revert Hrequest.
  apply (float_neq_by_ltb _ _ 52%float); vm_compute; reflexivity.
Qed.

(** C2, amended. For a validated request (0 < quantity <= stock) both
    implementations succeed when the database does, persist the sale and
    store the stock [s - q]; the total persisted is [q * p] where [p] is the
    caller-supplied price for [SaleUseCase.CreateSale] and the catalog price
    of the product for [SalesUseCase.CreateSale]. *)
Theorem CreateSale_success (w : World) (req : CreateSaleRequest.t) (p : Product.t) :
  products w !! CreateSaleRequest.ProductID req = Some p ->
  0 < CreateSaleRequest.Quantity req <= Product.Stock p ->
  int64_range (Product.Stock p) ->
  ((healthy 3 w = true -> exists sale w', SaleUseCase_CreateSale req w = (Ok sale, w')) /\
   (forall sale w', SaleUseCase_CreateSale req w = (Ok sale, w') ->
      sale_recorded (CreateSaleRequest.Price req) req p w sale w'))
  /\
  ((healthy 3 w = true -> exists sale w', SalesUseCase_CreateSale req w = (Ok sale, w')) /\
   (forall sale w', SalesUseCase_CreateSale req w = (Ok sale, w') ->
      sale_recorded (Product.Price p) req p w sale w')).
Proof.
  intros Hp Hq Hr. split.
  - exact (SaleUseCase_CreateSale_contract w req p Hp Hq Hr).
  - exact (SalesUseCase_CreateSale_contract w req p Hp Hq Hr).
Qed.

(** The scenario of the specification: selling 5 units of product A at 10.00. *)
Lemma CreateSale_success_witness :
  exists sale w',
    SaleUseCase_CreateSale (CreateSaleRequest.mk 7%N 5 10%float) Sample.shop = (Ok sale, w') /\
    sale_recorded 10%float (CreateSaleRequest.mk 7%N 5 10%float) Sample.productA Sample.shop sale w'.
Proof.
  destruct (CreateSale_success Sample.shop (CreateSaleRequest.mk 7%N 5 10%float) Sample.productA)
    as [[Hex Hall] _]; [reflexivity | simpl; lia | unfold int64_range; simpl; lia |].
  destruct (Hex eq_refl) as (sale & w' & Hrun).
  exists sale, w'. split; [exact Hrun | exact (Hall sale w' Hrun)].
Defined.

(** C3, counterexample. Product B has catalog price 1.5 + 3 ulp and the
    request asks 1.5 + 2 ulp for 3 units: the two prices differ, but both
    products round to the same binary64, so the two totals are equal. *)
Lemma different_prices_equal_totals : ~ prices_differ_so_totals_differ.
Proof.
  intros Hc.
  assert (Hq : 0 < CreateSaleRequest.Quantity Sample.requestB <= Product.Stock Sample.productB)
    by (simpl; lia).
  assert (Hr : int64_range (Product.Stock Sample.productB))
    by (unfold int64_range; simpl; lia).
  destruct (SaleUseCase_CreateSale_contract Sample.shopB Sample.requestB Sample.productB
              eq_refl Hq Hr) as [Hex1 Hall1].
  destruct (SalesUseCase_CreateSale_contract Sample.shopB Sample.requestB Sample.productB
              eq_refl Hq Hr) as [Hex2 Hall2].
  destruct (Hex1 eq_refl) as (sale1 & w1 & Hrun1).
  destruct (Hex2 eq_refl) as (sale2 & w2 & Hrun2).
  destruct (Hc Sample.shopB Sample.requestB Sample.productB sale1 sale2 w1 w2
              eq_refl Hq Hr eq_refl eq_refl Hrun1 Hrun2) as (_ & _ & Hd).
  destruct Hd as [_ Htot].
  { apply (float_neq_by_ltb _ _ 0x1.8000000000003p0%float); reflexivity. }
  apply Htot.
  destruct (Hall1 _ _ Hrun1) as (_ & _ & _ & _ & Ht1 & _).
  destruct (Hall2 _ _ Hrun2) as (_ & _ & _ & _ & Ht2 & _).
  rewrite Ht1, Ht2. vm_compute. reflexivity.
Qed.

(** C3, amended. On the same validated request and state,
    [SaleUseCase.CreateSale] records the caller-supplied price and
    [SalesUseCase.CreateSale] the catalog price of the product, each with
    the total [price * float64(quantity)]; when the two prices differ the
    two sale records differ (nothing is said of the totals, which may
    coincide after rounding). *)
Theorem CreateSale_price_sources (w : World) (req : CreateSaleRequest.t) (p : Product.t)
    (sale1 sale2 : Sale.t) (w1 w2 : World) :
  products w !! CreateSaleRequest.ProductID req = Some p ->
  0 < CreateSaleRequest.Quantity req <= Product.Stock p ->
  int64_range (Product.Stock p) ->
  SaleUseCase_CreateSale req w = (Ok sale1, w1) ->
  SalesUseCase_CreateSale req w = (Ok sale2, w2) ->
  Sale.Price sale1 = CreateSaleRequest.Price req /\
  Sale.Price sale2 = Product.Price p /\
  Sale.Total sale1
    = PrimFloat.mul (CreateSaleRequest.Price req) (float64_of_int (CreateSaleRequest.Quantity req)) /\
  Sale.Total sale2
    = PrimFloat.mul (Product.Price p) (float64_of_int (CreateSaleRequest.Quantity req)) /\
  (CreateSaleRequest.Price req <> Product.Price p -> sale1 <> sale2).
Proof.
  intros Hp Hq Hr Hrun1 Hrun2.
  destruct (SaleUseCase_CreateSale_contract w req p Hp Hq Hr) as [_ Hall1].
  destruct (SalesUseCase_CreateSale_contract w req p Hp Hq Hr) as [_ Hall2].
  destruct (Hall1 _ _ Hrun1) as (_ & _ & _ & Hp1 & Ht1 & _).
  destruct (Hall2 _ _ Hrun2) as (_ & _ & _ & Hp2 & Ht2 & _).
  unfold request_price in *. unfold catalog_price in *.
  repeat split; try assumption.
  intros Hne Heq. apply Hne. rewrite <- Hp1, <- Hp2, Heq. reflexivity.
Qed.

(** On product B the two implementations record different prices, hence
    different sales. *)
Lemma CreateSale_price_sources_witness :
  exists sale1 sale2 : Sale.t,
    Sale.Price sale1 = 0x1.8000000000002p0%float /\
    Sale.Price sale2 = 0x1.8000000000003p0%float /\
    sale1 <> sale2.
Proof.
  assert (Hq : 0 < CreateSaleRequest.Quantity Sample.requestB <= Product.Stock Sample.productB)
    by (simpl; lia).
  assert (Hr : int64_range (Product.Stock Sample.productB))
    by (unfold int64_range; simpl; lia).
  destruct (SaleUseCase_CreateSale Sample.requestB Sample.shopB) as [[sale1|e1] w1] eqn:H1;
    [|vm_compute in H1; discriminate].
  destruct (SalesUseCase_CreateSale Sample.requestB Sample.shopB) as [[sale2|e2] w2] eqn:H2;
    [|vm_compute in H2; discriminate].
  destruct (CreateSale_price_sources Sample.shopB Sample.requestB Sample.productB
              sale1 sale2 w1 w2 eq_refl Hq Hr H1 H2) as (Hp1 & Hp2 & _ & _ & Hne).
  exists sale1, sale2. repeat split; [exact Hp1 | exact Hp2 |].
  apply Hne. apply (float_neq_by_ltb _ _ 0x1.8000000000003p0%float); reflexivity.
Defined.

(** ** Sales: the two writes are not atomic (C4) *)

(** C4. When the product is found with enough stock, the insert of the sale
    succeeds and the stock update that follows returns the error [e], both
    CreateSale implementations return [e] to the caller while the sale
    record stays persisted and the stored products (hence the stock) are
    not changed. *)
Theorem CreateSale_not_atomic (w : World) (req : CreateSaleRequest.t) (p : Product.t)
    (e : string) :
  products w !! CreateSaleRequest.ProductID req = Some p ->
  CreateSaleRequest.Quantity req <= Product.Stock p ->
  healthy 2 w = true ->
  faults w !! 2%nat = Some (Some e) ->
  sale_persisted_stock_kept (SaleUseCase_CreateSale req) req e w /\
  sale_persisted_stock_kept (SalesUseCase_CreateSale req) req e w.
Proof.
  intros Hp Hle Hh Hf.
  assert (Hb : (Product.Stock p <? CreateSaleRequest.Quantity req) = false)
    by (apply Z.ltb_ge; lia).
  unfold sale_persisted_stock_kept, SaleUseCase_CreateSale, SalesUseCase_CreateSale.
  unfold healthy in Hh. run.
  destruct (faults w) as [|[e1|] [|[e2|] [|[e3|] rest]]]; simpl in *; try discriminate.
  inversion Hf; subst e3.
  rewrite Hp. simpl. rewrite Hb. simpl.
  split; eexists; eexists; repeat split.
Qed.

(** Product A, when the third storage call fails with "connection reset". *)
Lemma CreateSale_not_atomic_witness :
  sale_persisted_stock_kept
    (SaleUseCase_CreateSale (CreateSaleRequest.mk 7%N 5 10%float))
    (CreateSaleRequest.mk 7%N 5 10%float) "connection reset" Sample.shop_failing_third /\
  sale_persisted_stock_kept
    (SalesUseCase_CreateSale (CreateSaleRequest.mk 7%N 5 10%float))
    (CreateSaleRequest.mk 7%N 5 10%float) "connection reset" Sample.shop_failing_third.
Proof.
  apply (CreateSale_not_atomic Sample.shop_failing_third (CreateSaleRequest.mk 7%N 5 10%float)
           Sample.productA "connection reset");
    [reflexivity | simpl; lia | reflexivity | reflexivity].
Defined.

(** ** Catalog: the primary image (C5) *)

(** C5, at the failing input. A creation request whose first image URL is
    blank and whose second is not yields a product with one image and no
    primary image: [CreateProduct] flags the URL of index 0 only, and that
    one is skipped. *)
Theorem CreateProduct_blank_first_url_no_primary :
  exists product w',
    CreateProduct Sample.request_blank_first_url Sample.shop = (Ok product, w') /\
    length (Product.Images product) = 1%nat /\
    primary_count (Product.Images product) = 0%nat /\
    ~ one_primary (Product.Images product).
Proof.
  eexists. eexists. split; [vm_compute; reflexivity|].
  split; [reflexivity|]. split; [reflexivity|].
  intros Hone. unfold one_primary in Hone.
  assert (Hc : (0 = 1)%nat) by (apply Hone; discriminate).
  discriminate Hc.
Qed.

(** The update path has the same defect in the other direction: giving the
    legacy image URL to a product whose primary image is an uploaded file
    puts a second primary image in front of it. *)
Lemma UpdateProduct_legacy_url_second_primary :
  exists product w',
    UpdateProduct 9%N Sample.request_legacy_url Sample.shopC = (Ok product, w') /\
    primary_count (Product.Images product) = 2%nat.
Proof.
  eexists. eexists. split; [vm_compute; reflexivity|]. reflexivity.
Qed.


(** The two paths that take uploaded files keep the invariant, provided the
    uploaded images come with at most one primary flag (the handler flags
    the first uploaded file only). *)

Lemma primary_count_app (l1 l2 : list ProductImage.t) :
  primary_count (l1 ++ l2) = (primary_count l1 + primary_count l2)%nat.
Proof. unfold primary_count. by rewrite List.filter_app, length_app. Qed.

Lemma primary_count_snoc (images : list ProductImage.t) (id url : string) (now : Time) :
  (primary_count images <= 1)%nat ->
  (primary_count (images ++ [ProductImage.of_url id url (Nat.eqb (length images) 0) now]) <= 1)%nat.
Proof.
  intros Hle. rewrite primary_count_app.
  destruct images as [|img rest]; simpl in *; [reflexivity|].
  unfold primary_count in *. simpl in *. lia.
Qed.

Lemma WithImages_urls_at_most_one (urls : list string) :
  forall (images : list ProductImage.t) (w : World),
  (primary_count images <= 1)%nat ->
  exists images' w',
    WithImages_urls urls images w = (Ok images', w') /\
    (primary_count images' <= 1)%nat /\ same_store w w'.
Proof.
  induction urls as [|url rest IH]; intros images w Hle; simpl.
  - exists images, w. split; [reflexivity|]. split; [exact Hle | apply same_store_refl].
  - destruct (nonempty url); [|by apply IH].
    run.
    match goal with
    | |- context [WithImages_urls rest ?imgs ?w1] =>
      destruct (IH imgs w1) as (images' & w' & Hrun & Hle' & Hs)
    end.
    { by apply primary_count_snoc. }
    exists images', w'. split; [exact Hrun|]. split; [exact Hle' | exact Hs].
Qed.

Lemma legacy_image_at_most_one (imageURL : string) (images : list ProductImage.t) (w : World) :
  (primary_count images <= 1)%nat ->
  exists images' w',
    legacy_image imageURL images w = (Ok images', w') /\
    (primary_count images' <= 1)%nat /\ same_store w w' /\
    (imageURL = "" -> images' = images).
Proof.
  intros Hle. unfold legacy_image.
  destruct (nonempty imageURL) eqn:Hn; simpl.
  - destruct images as [|img rest]; simpl.
    + run. eexists. eexists. split; [reflexivity|].
      split; [reflexivity|]. split; [by repeat split|].
      intros He. rewrite He in Hn. discriminate Hn.
    + exists (img :: rest), w. split; [reflexivity|].
      split; [exact Hle|]. split; [apply same_store_refl | done].
  - exists images, w. split; [reflexivity|].
    split; [exact Hle|]. split; [apply same_store_refl | done].
Qed.

Lemma existsb_primary_count (images : list ProductImage.t) :
  existsb ProductImage.IsPrimary images = false -> primary_count images = 0%nat.
Proof.
  unfold primary_count. induction images as [|img rest IH]; simpl; [done|].
  destruct (ProductImage.IsPrimary img); simpl; [discriminate | exact IH].
Qed.

Lemma existsb_primary_positive (images : list ProductImage.t) :
  existsb ProductImage.IsPrimary images = true -> (1 <= primary_count images)%nat.
Proof.
  unfold primary_count. induction images as [|img rest IH]; simpl; [discriminate|].
  destruct (ProductImage.IsPrimary img); simpl; [lia | exact IH].
Qed.

(** The final step leaves exactly one primary image in a collection that is
    not empty and had at most one. *)
Lemma ensure_primary_one (images : list ProductImage.t) :
  (primary_count images <= 1)%nat -> one_primary (ensure_primary images).
Proof.
  intros Hle Hne. unfold ensure_primary in *.
  destruct images as [|img rest]; [done|].
  cbn [length Nat.ltb Nat.leb] in *.
  destruct (existsb ProductImage.IsPrimary (img :: rest)) eqn:Hex.
  - apply existsb_primary_positive in Hex. lia.
  - apply existsb_primary_count in Hex. unfold primary_count in *. simpl in *.
    destruct (ProductImage.IsPrimary img); simpl in *; [discriminate Hex|].
    by rewrite Hex.
Qed.

Lemma productRepo_Create_images (product created : Product.t) (w w' : World) :
  productRepo_Create product w = (Ok created, w') ->
  Product.Images created = Product.Images product.
Proof.
  run. destruct (faults w) as [|[e|] rest]; simpl.
  all: try discriminate.
  all: destruct (products w !! oids w); simpl; try discriminate.
  all: intros Heq; inversion Heq; reflexivity.
Qed.

Lemma productRepo_Update_images (product updated : Product.t) (w w' : World) :
  productRepo_Update product w = (Ok updated, w') ->
  Product.Images updated = Product.Images product.
Proof.
  run. destruct (faults w) as [|[e|] rest]; simpl.
  all: try discriminate.
  all: intros Heq; inversion Heq; reflexivity.
Qed.

(** C5 holds on [CreateProductWithImages]. *)
Lemma CreateProductWithImages_one_primary (req : CreateProductRequest.t)
    (uploadedImages : list ProductImage.t) (w w' : World) (product : Product.t) :
  (primary_count uploadedImages <= 1)%nat ->
  CreateProductWithImages req uploadedImages w = (Ok product, w') ->
  one_primary (Product.Images product).
Proof.
  intros Hle. unfold CreateProductWithImages. cbn [new_product Product.Images app].
  assert (Hstep : exists images1 w1,
            (if (0 <? length (CreateProductRequest.ImageURLs req))%nat
             then WithImages_urls (CreateProductRequest.ImageURLs req) uploadedImages
             else mret uploadedImages) w = (Ok images1, w1) /\
            (primary_count images1 <= 1)%nat).
  { destruct (0 <? length (CreateProductRequest.ImageURLs req))%nat.
    - destruct (WithImages_urls_at_most_one (CreateProductRequest.ImageURLs req)
                  uploadedImages w Hle) as (i1 & w1 & Hr & Hl & _). eauto.
    - exists uploadedImages, w. by split. }
  destruct Hstep as (images1 & w1 & Hrun1 & Hle1).
  destruct (legacy_image_at_most_one (CreateProductRequest.ImageURL req) images1 w1 Hle1)
    as (images2 & w2 & Hrun2 & Hle2 & _).
  rewrite bind_run, Hrun1, bind_run, Hrun2.
  intros Hcreate. apply productRepo_Create_images in Hcreate. rewrite Hcreate. simpl.
  by apply ensure_primary_one.
Qed.

(** C5 holds on [UpdateProductWithImages]. *)
Lemma UpdateProductWithImages_one_primary (id : ObjectID) (req : UpdateProductRequest.t)
    (uploadedImages : list ProductImage.t) (w w' : World) (product : Product.t) :
  (primary_count uploadedImages <= 1)%nat ->
  UpdateProductWithImages id req uploadedImages w = (Ok product, w') ->
  one_primary (Product.Images product).
Proof.
  intros Hle. unfold UpdateProductWithImages. rewrite bind_run.
  destruct (productRepo_GetByID id w) as [[[stored|]|e] w0]; try discriminate.
  cbn [app].
  set (p1 := update_stock_active req (update_name_to_brand req stored)).
  assert (Hstep : exists images1 w1,
            (if (0 <? length (UpdateProductRequest.ImageURLs req))%nat
             then WithImages_urls (UpdateProductRequest.ImageURLs req) uploadedImages
             else mret uploadedImages) w0 = (Ok images1, w1) /\
            (primary_count images1 <= 1)%nat).
  { destruct (0 <? length (UpdateProductRequest.ImageURLs req))%nat.
    - destruct (WithImages_urls_at_most_one (UpdateProductRequest.ImageURLs req)
                  uploadedImages w0 Hle) as (i1 & w1 & Hr & Hl & _). eauto.
    - exists uploadedImages, w0. by split. }
  destruct Hstep as (images1 & w1 & Hrun1 & Hle1).
  rewrite bind_run, Hrun1, bind_run.
  destruct (nonempty (UpdateProductRequest.ImageURL req) && Nat.eqb (length images1) 0) eqn:Hleg.
  - cbv [mbind M_bind mret M_ret uuid_New time_Now].
    intros Hupd. apply productRepo_Update_images in Hupd. rewrite Hupd. simpl.
    apply ensure_primary_one.
    apply andb_true_iff in Hleg as [_ Hlen]. apply Nat.eqb_eq in Hlen.
    destruct images1; [reflexivity | discriminate Hlen].
  - cbv [mbind M_bind mret M_ret].
    intros Hupd. apply productRepo_Update_images in Hupd. rewrite Hupd. simpl.
    by apply ensure_primary_one.
Qed.

(** ** Catalog: partial updates (C6) *)

(** C6, counterexample. An update that gives no field at all (stock 0, as
    an absent JSON field decodes) sets the stock of product A from 5 to 0. *)
Lemma UpdateProduct_zero_stock_overwrites : ~ zero_stock_means_unchanged UpdateProduct.
Proof.
  intros Hc.
  destruct (UpdateProduct 7%N Sample.request_nothing Sample.shop) as [[product|e] w'] eqn:Hrun;
    [|vm_compute in Hrun; discriminate].
  pose proof (Hc Sample.shop 7%N Sample.productA Sample.request_nothing product w'
                 eq_refl eq_refl Hrun) as Hs.
  vm_compute in Hrun. inversion Hrun; subst w'. vm_compute in Hs. discriminate Hs.
Qed.

Lemma UpdateProduct_urls_ok (urls : list string) :
  forall (i : nat) (newImages : list ProductImage.t) (w : World),
  exists images w',
    UpdateProduct_urls i urls newImages w = (Ok images, w') /\ same_store w w'.
Proof.
  induction urls as [|url rest IH]; intros i newImages w; simpl.
  - exists newImages, w. split; [reflexivity | apply same_store_refl].
  - destruct (nonempty url); [|apply IH].
    run.
    match goal with
    | |- context [UpdateProduct_urls ?j rest ?imgs ?w1] =>
      destruct (IH j imgs w1) as (images & w' & Hrun & Hs)
    end.
    exists images, w'. split; [exact Hrun|]. exact Hs.
Qed.

Lemma UpdateProduct_legacy_image_ok (req : UpdateProductRequest.t) (product : Product.t)
    (w : World) :
  exists images w',
    UpdateProduct_legacy_image req product w
      = (Ok (Product.with_Images images
               (Product.with_ImageURL
                  (if nonempty (UpdateProductRequest.ImageURL req)
                   then UpdateProductRequest.ImageURL req else Product.ImageURL product)
                  product)), w') /\
    same_store w w' /\
    (UpdateProductRequest.ImageURL req = "" -> images = Product.Images product).
Proof.
  unfold UpdateProduct_legacy_image.
  destruct (nonempty (UpdateProductRequest.ImageURL req)) eqn:Hn.
  - simpl.
    destruct (legacy_scan (UpdateProductRequest.ImageURL req) (Product.Images product))
      as [images|]; run.
    + eexists. eexists. split; [reflexivity|]. split; [apply same_store_refl|].
      intros He. rewrite He in Hn. discriminate Hn.
    + eexists. eexists. split; [reflexivity|]. split; [by repeat split|].
      intros He. rewrite He in Hn. discriminate Hn.
  - exists (Product.Images product), w. split; [|split; [apply same_store_refl|done]].
    destruct product; reflexivity.
Qed.

Lemma UpdateProduct_image_urls_ok (req : UpdateProductRequest.t) (product : Product.t)
    (w : World) :
  exists images w',
    UpdateProduct_image_urls req product w = (Ok (Product.with_Images images product), w') /\
    same_store w w' /\
    (UpdateProductRequest.ImageURLs req = [] -> images = Product.Images product).
Proof.
  unfold UpdateProduct_image_urls.
  destruct (UpdateProductRequest.ImageURLs req) as [|url rest] eqn:Hu.
  - exists (Product.Images product), w. simpl.
    split; [|split; [apply same_store_refl|done]].
    destruct product; reflexivity.
  - cbn [length Nat.ltb Nat.leb].
    destruct (UpdateProduct_urls_ok (url :: rest) 0
                (List.filter (fun img => negb (ProductImage.IsURL img)) (Product.Images product)) w)
      as (images & w' & Hrun & Hs).
    exists images, w'. rewrite bind_run, Hrun. split; [reflexivity|]. split; [exact Hs|].
    discriminate.
Qed.

Lemma productRepo_Update_healthy (product q : Product.t) (w : World) :
  healthy 1 w = true ->
  products w !! Product.ID product = Some q ->
  exists w',
    productRepo_Update product w = (Ok (Product.with_UpdatedAt (clock w) product), w') /\
    products w' = <[Product.ID product := Product.with_UpdatedAt (clock w) product]> (products w).
Proof.
  intros Hh Hq. unfold healthy in Hh. run.
  destruct (faults w) as [|[e|] rest]; simpl in *; try discriminate;
    rewrite Hq; eexists; split; reflexivity.
Qed.

Lemma update_name_to_brand_fields (req : UpdateProductRequest.t) (p : Product.t) :
  let q := update_name_to_brand req p in
  Product.Name q = (if nonempty (UpdateProductRequest.Name req)
                    then UpdateProductRequest.Name req else Product.Name p) /\
  Product.Description q = (if nonempty (UpdateProductRequest.Description req)
                           then UpdateProductRequest.Description req else Product.Description p) /\
  Product.Price q = (if fgt0 (UpdateProductRequest.Price req)
                     then UpdateProductRequest.Price req else Product.Price p) /\
  Product.Category q = (if nonempty (UpdateProductRequest.Category req)
                        then UpdateProductRequest.Category req else Product.Category p) /\
  Product.Brand q = (if nonempty (UpdateProductRequest.Brand req)
                     then UpdateProductRequest.Brand req else Product.Brand p) /\
  Product.Stock q = Product.Stock p /\
  Product.IsActive q = Product.IsActive p /\
  Product.CreatedAt q = Product.CreatedAt p /\
  Product.ImageURL q = Product.ImageURL p /\
  Product.Images q = Product.Images p /\
  Product.ID q = Product.ID p.
Proof.
  unfold update_name_to_brand.
  destruct (nonempty (UpdateProductRequest.Name req)),
           (nonempty (UpdateProductRequest.Description req)),
           (fgt0 (UpdateProductRequest.Price req)),
           (nonempty (UpdateProductRequest.Category req)),
           (nonempty (UpdateProductRequest.Brand req)); simpl; repeat split; reflexivity.
Qed.

Lemma update_stock_active_fields (req : UpdateProductRequest.t) (p : Product.t) :
  let q := update_stock_active req p in
  Product.Name q = Product.Name p /\
  Product.Description q = Product.Description p /\
  Product.Price q = Product.Price p /\
  Product.Category q = Product.Category p /\
  Product.Brand q = Product.Brand p /\
  Product.Stock q = (if 0 <=? UpdateProductRequest.Stock req
                     then UpdateProductRequest.Stock req else Product.Stock p) /\
  Product.IsActive q = match UpdateProductRequest.IsActive req with
                       | Some isActive => isActive
                       | None => Product.IsActive p
                       end /\
  Product.CreatedAt q = Product.CreatedAt p /\
  Product.ImageURL q = Product.ImageURL p /\
  Product.Images q = Product.Images p /\
  Product.ID q = Product.ID p.
Proof.
  unfold update_stock_active.
  destruct (0 <=? UpdateProductRequest.Stock req), (UpdateProductRequest.IsActive req);
    simpl; repeat split; reflexivity.
Qed.

(** C6, amended. Updating an existing product while the database works
    succeeds and stores a product in which every string field is the
    request's when that is not empty and the old one otherwise, the price
    is the request's when that is positive, the active flag is the
    request's when present; the stock is overwritten by any request stock
    that is not negative, zero included (only a negative stock leaves it
    unchanged); the creation time and the other products are untouched, and
    the images are untouched when the request names none. *)
Theorem UpdateProduct_partial_update (w : World) (id : ObjectID) (p : Product.t)
    (req : UpdateProductRequest.t) :
  products w !! id = Some p ->
  healthy 2 w = true ->
  exists p' w',
    UpdateProduct id req w = (Ok p', w') /\
    products w' !! id = Some p' /\
    Product.ID p' = id /\
    (forall id', id' <> id -> products w' !! id' = products w !! id') /\
    partially_updated req p p'.
Proof.
  intros Hp Hh.
  destruct (GetByID_healthy 1 id w Hh) as [Hg Hh1].
  rewrite Hp in Hg. simpl in Hg.
  set (w1 := set_faults (tail (faults w)) w) in *.
  set (p1 := update_name_to_brand req (decode id p)).
  destruct (UpdateProduct_legacy_image_ok req p1 w1) as (imgs2 & w2 & Hrun2 & Hs2 & Hi2).
  set (p2 := Product.with_Images imgs2 _) in Hrun2.
  destruct (UpdateProduct_image_urls_ok req (update_stock_active req p2) w2)
    as (imgs3 & w3 & Hrun3 & Hs3 & Hi3).
  set (p3 := Product.with_Images imgs3 _) in Hrun3.
  destruct (update_name_to_brand_fields req (decode id p))
    as (N1 & D1 & P1 & C1 & B1 & S1 & A1 & T1 & U1 & I1 & K1).
  destruct (update_stock_active_fields req p2)
    as (N2 & D2 & P2 & C2 & B2 & S2 & A2 & T2 & U2 & I2 & K2).
  fold p1 in N1, D1, P1, C1, B1, S1, A1, T1, U1, I1, K1.
  assert (Hid : Product.ID p3 = id).
  { subst p3. simpl. rewrite K2. subst p2. simpl. rewrite K1. reflexivity. }
  assert (Hh3 : healthy 1 w3 = true)
    by (apply (same_store_healthy 1 w2 w3 Hs3), (same_store_healthy 1 w1 w2 Hs2), Hh1).
  assert (Hp3 : products w3 !! Product.ID p3 = Some p).
  { destruct Hs3 as (-> & _). destruct Hs2 as (-> & _). rewrite Hid. exact Hp. }
  destruct (productRepo_Update_healthy p3 p w3 Hh3 Hp3) as (w4 & Hrun4 & Hst4).
  exists (Product.with_UpdatedAt (clock w3) p3), w4.
  split; [|split; [|split; [|split]]].
  - unfold UpdateProduct. rewrite bind_run, Hg. fold p1.
    rewrite bind_run, Hrun2, bind_run, Hrun3. exact Hrun4.
  - rewrite Hst4, Hid. apply lookup_insert_eq.
  - exact Hid.
  - intros id' Hne. rewrite Hst4, Hid, lookup_insert_ne by congruence.
    destruct Hs3 as (-> & _). destruct Hs2 as (-> & _). reflexivity.
  - unfold partially_updated. subst p3. simpl.
    rewrite N2, D2, P2, C2, B2, S2, A2, T2. subst p2. simpl.
    rewrite N1, D1, P1, C1, B1, S1, A1, T1. simpl.
    repeat split.
    + intros He. rewrite U2. simpl. rewrite He. simpl. exact U1.
    + intros He1 He2. rewrite (Hi3 He2), I2. simpl. rewrite (Hi2 He1). exact I1.
Qed.

(** Renaming product A with a negative stock in the request: only the name
    changes. *)
Lemma UpdateProduct_partial_update_witness :
  exists p' w',
    UpdateProduct 7%N Sample.request_rename Sample.shop = (Ok p', w') /\
    products w' !! 7%N = Some p' /\
    Product.ID p' = 7%N /\
    (forall id', id' <> 7%N -> products w' !! id' = products Sample.shop !! id') /\
    partially_updated Sample.request_rename Sample.productA p'.
Proof.
  apply (UpdateProduct_partial_update Sample.shop 7%N Sample.productA Sample.request_rename);
    reflexivity.
Defined.

(** ** Catalog: counting and listing (C7) *)

Lemma insert_desc_perm {A} (key : A -> Z) (x : A) (l : list A) :
  Permutation (insert_desc key x l) (x :: l).
Proof.
  induction l as [|y rest IH]; simpl; [reflexivity|].
  destruct (key y <? key x); [reflexivity|].
  rewrite IH. apply perm_swap.
Qed.

Lemma sort_desc_perm {A} (key : A -> Z) (l : list A) : Permutation (sort_desc key l) l.
Proof.
  induction l as [|x rest IH]; simpl; [reflexivity|].
  rewrite insert_desc_perm. by rewrite IH.
Qed.

Section CountList.
Context `{Regex}.

(** [Count] and [List] build their filter by the same steps. *)
Lemma Count_filter_is_List_filter (filter : ProductFilter.t) :
  Count_mongoFilter filter = List_mongoFilter filter.
Proof. reflexivity. Qed.

(** C7. For every filter, Count and List build the same query filter;
    when pagination is disabled (page or limit not positive) and the
    database works, List returns exactly the matching products and Count
    returns the number of products List returns. *)
Theorem Count_equals_length_of_List (filter : ProductFilter.t) (w w2 : World) :
  Count_mongoFilter filter = List_mongoFilter filter /\
  (~ (0 < ProductFilter.Page filter /\ 0 < ProductFilter.Limit filter) ->
   healthy 1 w = true -> healthy 1 w2 = true -> products w2 = products w ->
   exists (found : list Product.t) (count : Z) (w' w2' : World),
     productRepo_List filter w = (Ok found, w') /\
     productRepo_Count filter w2 = (Ok count, w2') /\
     Permutation found (List.filter (matches (List_mongoFilter filter)) (documents w)) /\
     count = Z.of_nat (length found)).
Proof.
  split; [apply Count_filter_is_List_filter|].
  intros Hpage Hh Hh2 Hsame.
  assert (Hopts : (0 <? ProductFilter.Page filter) && (0 <? ProductFilter.Limit filter) = false).
  { apply andb_false_iff.
    destruct (Z.ltb_spec 0 (ProductFilter.Page filter)); [|by left].
    destruct (Z.ltb_spec 0 (ProductFilter.Limit filter)); [|by right].
    exfalso. apply Hpage. by split. }
  destruct (storage_call_healthy 0 w Hh) as [Hs _].
  destruct (storage_call_healthy 0 w2 Hh2) as [Hs2 _].
  unfold productRepo_List, productRepo_Count.
  rewrite Hopts. change (Count_mongoFilter filter) with (List_mongoFilter filter).
  cbv [mbind M_bind mret M_ret get]. rewrite Hs, Hs2.
  do 4 eexists. split; [reflexivity|]. split; [reflexivity|].
  split; [apply sort_desc_perm|].
  unfold documents. simpl. rewrite Hsame.
  f_equal. symmetry. apply Permutation_length, sort_desc_perm.
Qed.
End CountList.

(** The active tools named like "Plough" in the sample shop. *)
Lemma Count_equals_length_of_List_witness :
  exists (found : list Product.t) (count : Z),
    (productRepo_List (H := Sample.literal_regex) Sample.filter_tools Sample.shop).1 = Ok found /\
    (productRepo_Count (H := Sample.literal_regex) Sample.filter_tools Sample.shop).1 = Ok count /\
    count = Z.of_nat (length found).
Proof.
  destruct (Count_equals_length_of_List (H := Sample.literal_regex)
              Sample.filter_tools Sample.shop Sample.shop) as [_ Hcount].
  destruct Hcount as (found & count & w' & w2' & Hl & Hc & _ & Hn);
    [simpl; lia | reflexivity | reflexivity | reflexivity |].
  exists found, count. rewrite Hl, Hc. by repeat split.
Defined.

(** ** Sales: the CSV export (C8) *)

Lemma append_assoc (a b c : string) : (a +:+ b) +:+ c = a +:+ (b +:+ c).
Proof.
  induction a as [|ch a IH]; [reflexivity|].
  change (String ch ((a +:+ b) +:+ c) = String ch (a +:+ (b +:+ c))). by rewrite IH.
Qed.

Lemma append_empty_r (a : string) : a +:+ "" = a.
Proof.
  induction a as [|ch a IH]; [reflexivity|].
  change (String ch (a +:+ "") = String ch a). by rewrite IH.
Qed.

Lemma eqb_csv (format : string) : format <> "csv" -> String.eqb format "csv" = false.
Proof. intros Hne. apply String.eqb_neq. exact Hne. Qed.

Section ExportRows.
Context `{Formatting}.

(** The loop writes one row per sale after what was written before, looks
    each product up once, and changes nothing that is stored. *)
Lemma ExportSales_rows_spec (listed : list Sale.t) :
  forall (csvBuilder : string) (w : World),
  exists (names : list string) (w' : World),
    ExportSales_rows listed csvBuilder w = (Ok (csvBuilder +:+ csv_rows listed names), w') /\
    Forall2 (row_name_ok w) listed names /\
    (healthy (length listed) w = true -> names = List.map (product_name w) listed) /\
    products w' = products w /\ sales w' = sales w.
Proof.
  induction listed as [|sale rest IH]; intros csvBuilder w.
  - exists [], w. simpl. unfold csv_rows. simpl. rewrite append_empty_r.
    repeat split; constructor.
  - simpl. run.
    destruct (faults w) as [|[e|] fs] eqn:Hf; simpl.
    + destruct (IH (csvBuilder +:+ csv_row sale (product_name w sale))
                   (set_faults [] w))
        as (names & w' & Hrun & Hall & Hex & Hp & Hs).
      exists (product_name w sale :: names), w'.
      unfold product_name in *.
      destruct (products w !! Sale.ProductID sale) as [p|] eqn:Hl; simpl.
      all: rewrite Hrun; unfold csv_rows; simpl; rewrite append_assoc.
      all: split; [reflexivity|].
      all: split; [constructor; [unfold row_name_ok; rewrite Hl; auto | exact Hall]|].
      all: split; [|by split].
      all: intros _; rewrite Hex; [reflexivity|].
      all: unfold healthy; simpl; by rewrite take_nil.
    + destruct (IH (csvBuilder +:+ csv_row sale "Unknown") (set_faults fs w))
        as (names & w' & Hrun & Hall & Hex & Hp & Hs).
      exists ("Unknown" :: names), w'.
      rewrite Hrun. unfold csv_rows. simpl. rewrite append_assoc.
      split; [reflexivity|].
      split; [constructor; [|exact Hall]|].
      { unfold row_name_ok. destruct (products w !! Sale.ProductID sale); auto. }
      split; [|by split].
      unfold healthy. rewrite Hf. simpl. discriminate.
    + destruct (IH (csvBuilder +:+ csv_row sale (product_name w sale))
                   (set_faults fs w))
        as (names & w' & Hrun & Hall & Hex & Hp & Hs).
      exists (product_name w sale :: names), w'.
      unfold product_name in *.
      destruct (products w !! Sale.ProductID sale) as [p|] eqn:Hl; simpl.
      all: rewrite Hrun; unfold csv_rows; simpl; rewrite append_assoc.
      all: split; [reflexivity|].
      all: split; [constructor; [unfold row_name_ok; rewrite Hl; auto | exact Hall]|].
      all: split; [|by split].
      all: unfold healthy; rewrite Hf; simpl; intros Hh; rewrite Hex; [reflexivity|].
      all: exact Hh.
Qed.
End ExportRows.

(** The text of lines and the text of the export. *)
Lemma no_line_feed_app (a b : string) :
  no_line_feed (a +:+ b) = no_line_feed a && no_line_feed b.
Proof.
  induction a as [|c a IH]; [reflexivity|].
  change (negb (Ascii.eqb c line_feed) && no_line_feed (a +:+ b)
          = negb (Ascii.eqb c line_feed) && no_line_feed a && no_line_feed b).
  by rewrite IH, andb_assoc.
Qed.

Lemma lines_of_line (line rest cur : string) :
  no_line_feed line = true ->
  lines_of (line +:+ newline +:+ rest) cur = (cur +:+ line) :: lines_of rest "".
Proof.
  revert cur. induction line as [|c line IH]; intros cur Hline.
  - change (lines_of (String line_feed rest) cur = (cur +:+ "") :: lines_of rest "").
    simpl. by rewrite append_empty_r.
  - simpl in Hline. apply andb_true_iff in Hline as [Hc Hline].
    apply negb_true_iff in Hc.
    change (lines_of (String c (line +:+ newline +:+ rest)) cur
            = (cur +:+ String c line) :: lines_of rest "").
    simpl. rewrite Hc, (IH _ Hline), append_assoc. reflexivity.
Qed.

Lemma hex_digit_no_line_feed (n : N) : Ascii.eqb (hex_digit n) line_feed = false.
Proof.
  unfold hex_digit. generalize (N.to_nat n). intros k.
  do 16 (destruct k as [|k]; [reflexivity|]). simpl. by destruct k.
Qed.

Lemma hex_digits_no_line_feed (k : nat) :
  forall (n : N) (acc : string),
  no_line_feed acc = true -> no_line_feed (hex_digits k n acc) = true.
Proof.
  induction k as [|k IH]; intros n acc Hacc; simpl; [exact Hacc|].
  apply IH. simpl. by rewrite hex_digit_no_line_feed.
Qed.

Lemma digits_no_line_feed (d : Decimal.uint) :
  no_line_feed (NilEmpty.string_of_uint d) = true.
Proof. induction d; simpl; try reflexivity; assumption. Qed.

Lemma string_of_uint_no_line_feed (d : Decimal.uint) :
  no_line_feed (NilZero.string_of_uint d) = true.
Proof. destruct d; try reflexivity; apply (digits_no_line_feed (_ d)). Qed.

Lemma sprintf_d_no_line_feed (z : Z) : no_line_feed (sprintf_d z) = true.
Proof.
  unfold sprintf_d, NilZero.string_of_int.
  destruct (Z.to_int z); simpl; apply string_of_uint_no_line_feed.
Qed.

Section ExportLines.
Context `{Formatting}.
Hypothesis Hformats : formats_on_one_line.

Lemma sale_line_no_line_feed (sale : Sale.t) (name : string) :
  no_line_feed name = true -> no_line_feed (sale_line sale name) = true.
Proof.
  intros Hname. destruct Hformats as [Hf Ht].
  unfold sale_line, sale_columns, String.concat, ObjectID_Hex.
  rewrite !no_line_feed_app, !hex_digits_no_line_feed, !Hf, Ht, Hname, sprintf_d_no_line_feed
    by reflexivity.
  reflexivity.
Qed.

(** A row as the code writes it is the line of its sale and a line feed. *)
Lemma csv_row_is_sale_line (sale : Sale.t) (name : string) :
  csv_row sale name = sale_line sale name +:+ newline.
Proof.
  unfold csv_row, sale_line, sale_columns, String.concat.
  rewrite !append_assoc. reflexivity.
Qed.

Lemma lines_of_csv_rows (listed : list Sale.t) :
  forall names : list string,
  Forall (fun name => no_line_feed name = true) names ->
  lines_of (csv_rows listed names) "" = zip_with sale_line listed names.
Proof.
  unfold csv_rows.
  induction listed as [|sale rest IH]; intros names Hnames; [reflexivity|].
  destruct names as [|name names]; [reflexivity|].
  apply Forall_cons in Hnames as [Hname Hnames].
  cbn [zip_with foldr]. rewrite csv_row_is_sale_line, append_assoc.
  rewrite lines_of_line by (by apply sale_line_no_line_feed).
  by rewrite (IH _ Hnames).
Qed.
End ExportLines.

Lemma row_names_on_one_line (w : World) (listed : list Sale.t) (names : list string) :
  names_on_one_line w ->
  Forall2 (row_name_ok w) listed names ->
  Forall (fun name => no_line_feed name = true) names.
Proof.
  intros Hw Hall. induction Hall as [|sale name listed names Hok _ IH]; constructor; [|exact IH].
  unfold row_name_ok in Hok.
  destruct (products w !! Sale.ProductID sale) as [p|] eqn:Hp.
  - destruct Hok as [-> | ->]; [by apply (Hw _ _ Hp) | reflexivity].
  - by subst name.
Qed.

Lemma plain_formatting_on_one_line : formats_on_one_line (H := Sample.plain_formatting).
Proof.
  split.
  - intros x. cbn [sprintf_2f Sample.plain_formatting].
    destruct (PrimFloat.eqb x 10); [reflexivity|].
    destruct (PrimFloat.eqb x 20); [reflexivity|].
    destruct (PrimFloat.eqb x 4); reflexivity.
  - intros layout t. apply sprintf_d_no_line_feed.
Qed.


Section ExportProperties.
Context `{Formatting}.

End ExportProperties.


(** ** Uploads: removing a file (C9) *)

(** The parts of C9 that hold: an empty path is a success that removes
    nothing, and a path that does not start with the upload directory is
    refused without removing anything. *)
Lemma DeleteFile_empty_path (uc : UploadConfig.t) (fs : FileSystem) :
  DeleteFile uc "" fs = (Ok tt, fs).
Proof. reflexivity. Qed.

Lemma DeleteFile_without_prefix (uc : UploadConfig.t) (filePath : string) (fs : FileSystem) :
  filePath <> "" ->
  String.prefix (UploadConfig.UploadDir uc) filePath = false ->
  DeleteFile uc filePath fs = (Err "file path is outside upload directory", fs).
Proof.
  intros Hne Hpre. unfold DeleteFile.
  destruct (String.eqb_spec filePath ""); [contradiction|].
  by rewrite Hpre.
Qed.

(** Whatever the path, at most the file it names is removed. *)
Lemma DeleteFile_removes_at_most_target (uc : UploadConfig.t) (filePath : string)
    (fs : FileSystem) (place : list string) :
  place ∈ files fs -> place <> resolve fs filePath ->
  place ∈ files (DeleteFile uc filePath fs).2.
Proof.
  intros Hin Hne. unfold DeleteFile, os_Remove.
  destruct (String.eqb filePath ""); [exact Hin|].
  destruct (negb (String.prefix (UploadConfig.UploadDir uc) filePath)); [exact Hin|].
  destruct (walk_error fs _ _); [exact Hin|].
  case_bool_decide; simpl; [|exact Hin].
  set_solver.
Qed.

(** C9, at the failing input. The path "uploads/products/../../.env" starts
    with the upload directory, so the textual check lets it through; it
    names the application's environment file, which lies outside the upload
    directory, and DeleteFile removes that file and reports success. *)
Theorem DeleteFile_removes_file_outside_upload_dir :
  let target := resolve Sample.disk Sample.escaping_path in
  target = ["srv"; "app"; ".env"] /\
  target ∈ files Sample.disk /\
  ~ in_upload_dir NewUploadConfig Sample.disk target /\
  exists fs',
    DeleteFile NewUploadConfig Sample.escaping_path Sample.disk = (Ok tt, fs') /\
    target ∉ files fs'.
Proof.
  assert (Ht : resolve Sample.disk Sample.escaping_path = ["srv"; "app"; ".env"])
    by (vm_compute; reflexivity).
  cbv zeta. rewrite Ht.
  split; [reflexivity|]. split; [unfold Sample.disk; simpl; set_solver|].
  split.
  - unfold in_upload_dir. intros [k Hk]. vm_compute in Hk. discriminate Hk.
  - unfold DeleteFile, os_Remove. rewrite Ht.
    change (String.eqb Sample.escaping_path "") with false.
    assert (Hpre : String.prefix (UploadConfig.UploadDir NewUploadConfig) Sample.escaping_path = true)
      by (vm_compute; reflexivity).
    rewrite Hpre. cbn [negb].
    assert (Hwalk : walk_error Sample.disk (cwd Sample.disk)
                      (split_on "/" Sample.escaping_path "") = None)
      by (vm_compute; reflexivity).
    change (String.prefix "/" Sample.escaping_path) with false. cbv iota.
    rewrite Hwalk.
    rewrite bool_decide_eq_true_2 by (unfold Sample.disk; simpl; set_solver).
    eexists. split; [reflexivity|]. simpl.
    apply not_elem_of_difference. right. by apply elem_of_singleton.
Qed.

(** ** Registration: the role (C10) *)

Section RegisterProperties.
Context `{Bcrypt}.

(** C10. When the email is free, the password hashes and the database
    works, Register succeeds and stores a user whose role is the request's
    role verbatim, whatever it is, except that an empty role becomes
    "user"; in particular a request with role "admin" creates an admin.
    Nothing on the path looks at who asks. *)
Theorem Register_stores_requested_role (req : CreateUserRequest.t) (w : World)
    (hashedPassword : string) :
  List.find (fun u => String.eqb (User.Email u) (CreateUserRequest.Email req)) (users w) = None ->
  bcrypt_GenerateFromPassword (CreateUserRequest.Password req) bcrypt_DefaultCost
    = Ok hashedPassword ->
  healthy 2 w = true ->
  exists (user : User.t) (w' : World),
    Register req w = (Ok user, w') /\
    users w' = users w ++ [user] /\
    User.Email user = CreateUserRequest.Email req /\
    User.Role user = stored_role req /\
    (CreateUserRequest.Role req <> "" -> User.Role user = CreateUserRequest.Role req) /\
    (CreateUserRequest.Role req = "" -> User.Role user = "user") /\
    (CreateUserRequest.Role req = "admin" -> User.Role user = "admin").
Proof.
  intros Hfree Hhash Hh. unfold healthy in Hh. unfold Register, stored_role. run.
  destruct (faults w) as [|[e1|] [|[e2|] rest]]; simpl in *; try discriminate.
  all: rewrite Hfree, Hhash; simpl.
  all: eexists; eexists; split; [reflexivity|]; simpl.
  all: repeat split; try reflexivity.
  all: try (intros Hr; destruct (String.eqb_spec (CreateUserRequest.Role req) "");
            [contradiction | reflexivity]).
  all: try (intros Hr; rewrite Hr; reflexivity).
Qed.
End RegisterProperties.

(** A registration that asks for the admin role gets it. *)
Lemma Register_stores_requested_role_witness :
  exists (user : User.t) (w' : World),
    Register (H := Sample.tagging_hasher) Sample.request_admin Sample.shop = (Ok user, w') /\
    users w' = users Sample.shop ++ [user] /\
    User.Role user = "admin".
Proof.
  destruct (Register_stores_requested_role (H := Sample.tagging_hasher)
              Sample.request_admin Sample.shop "$2a$10$secret1")
    as (user & w' & Hrun & Husers & _ & _ & _ & _ & Hadmin);
    [reflexivity | reflexivity | reflexivity |].
  exists user, w'. split; [exact Hrun|]. split; [exact Husers|].
  apply Hadmin. reflexivity.
Defined.

(** * Properties of the rest of the code *)

(** ** Sorting *)

Lemma insert_desc_sorted {A} (key : A -> Z) (x : A) (l : list A) :
  descending key l -> descending key (insert_desc key x l).
Proof.
  unfold descending. induction l as [|y rest IH]; intros Hs; simpl.
  - repeat constructor.
  - apply StronglySorted_inv in Hs as [Hrest Hall].
    destruct (Z.ltb_spec (key y) (key x)) as [Hlt|Hge].
    + constructor; [by constructor|].
      constructor; [lia|]. eapply Forall_impl; [exact Hall|]. simpl. intros b Hb. lia.
    + constructor; [by apply IH|].
      eapply Permutation_Forall; [symmetry; apply insert_desc_perm|].
      constructor; [lia | exact Hall].
Qed.

Lemma sort_desc_sorted {A} (key : A -> Z) (l : list A) : descending key (sort_desc key l).
Proof.
  induction l as [|x rest IH]; simpl; [constructor|]. by apply insert_desc_sorted.
Qed.

Lemma sort_asc_sorted {A} (key : A -> Z) (l : list A) : ascending key (sort_asc key l).
Proof.
  unfold ascending, sort_asc.
  pose proof (sort_desc_sorted (fun x => - key x) l) as Hs. unfold descending in Hs.
  induction Hs as [|a rest Hrest IH Hall]; constructor; [exact IH|].
  eapply Forall_impl; [exact Hall|]. simpl. intros b Hb. lia.
Qed.

(** ** Products that are not there *)

(** X1. Every use case that addresses a product by an identity nothing is
    stored under fails with "product not found" when the lookup itself
    succeeds, and leaves the stored products and sales as they were. *)
Theorem missing_product_is_reported (w : World) (id : ObjectID)
    (stock : StockUpdateRequest.t) (update : UpdateProductRequest.t)
    (uploadedImages : list ProductImage.t) (quantity : Z) (price : float64) :
  products w !! id = None ->
  healthy 1 w = true ->
  rejected_with "product not found" (GetProductByID id) w /\
  rejected_with "product not found" (DeleteProduct id) w /\
  rejected_with "product not found" (InventoryUseCase_UpdateStock id stock) w /\
  rejected_with "product not found" (UpdateProduct id update) w /\
  rejected_with "product not found" (UpdateProductWithImages id update uploadedImages) w /\
  rejected_with "product not found"
    (SaleUseCase_CreateSale (CreateSaleRequest.mk id quantity price)) w /\
  rejected_with "product not found"
    (SalesUseCase_CreateSale (CreateSaleRequest.mk id quantity price)) w.
Proof.
  intros Hnone Hh.
  destruct (GetByID_healthy 0 id w Hh) as [Hg _]. rewrite Hnone in Hg. simpl in Hg.
  unfold rejected_with, GetProductByID, DeleteProduct, InventoryUseCase_UpdateStock,
    UpdateProduct, UpdateProductWithImages, SaleUseCase_CreateSale, SalesUseCase_CreateSale.
  simpl CreateSaleRequest.ProductID.
  rewrite !bind_run, Hg.
  repeat split; eexists; (split; [reflexivity|]); split; reflexivity.
Qed.

(** An identity that is not in the sample store. *)
Lemma missing_product_is_reported_witness :
  rejected_with "product not found" (GetProductByID 8%N) Cases.store /\
  rejected_with "product not found" (DeleteProduct 8%N) Cases.store.
Proof.
  destruct (missing_product_is_reported Cases.store 8%N (StockUpdateRequest.mk 4)
              Sample.request_nothing [] 1 1%float) as (Hget & Hdel & _);
    [reflexivity | reflexivity |].
  split; [exact Hget | exact Hdel].
Defined.

(** ** Inventory *)

(** X2. Updating the stock of a stored product, while the database works,
    stores exactly the requested stock, whatever it is (the use case applies
    no floor), refreshes the update time and leaves every other field of the
    product, every other product and the sales untouched. *)
Theorem UpdateStock_overwrites_stock_only (w : World) (id : ObjectID) (p : Product.t)
    (req : StockUpdateRequest.t) :
  products w !! id = Some p ->
  healthy 2 w = true ->
  exists w',
    InventoryUseCase_UpdateStock id req w = (Ok tt, w') /\
    products w' !! id
      = Some (Product.with_UpdatedAt (clock w) (Product.with_Stock (StockUpdateRequest.Stock req) p)) /\
    (forall id', id' <> id -> products w' !! id' = products w !! id') /\
    sales w' = sales w.
Proof.
  intros Hp Hh. unfold healthy in Hh. unfold InventoryUseCase_UpdateStock. run.
  destruct (faults w) as [|[e1|] [|[e2|] rest]]; simpl in *; try discriminate.
  all: rewrite Hp; simpl.
  all: eexists; split; [reflexivity|]; simpl.
  all: split; [by rewrite lookup_alter_eq, Hp|].
  all: split; [|reflexivity].
  all: intros id' Hne; by rewrite lookup_alter_ne.
Qed.

(** Setting the stock of the plough to zero. *)
Lemma UpdateStock_overwrites_stock_only_witness :
  exists w',
    InventoryUseCase_UpdateStock 1%N (StockUpdateRequest.mk 0) Cases.store = (Ok tt, w') /\
    Product.Stock <$> products w' !! 1%N = Some 0.
Proof.
  destruct (UpdateStock_overwrites_stock_only Cases.store 1%N Cases.plough
              (StockUpdateRequest.mk 0)) as (w' & Hrun & Hst & _);
    [reflexivity | reflexivity |].
  exists w'. split; [exact Hrun|]. rewrite Hst. reflexivity.
Defined.

Lemma filter_all_satisfy {A} (f : A -> bool) (l found : list A) :
  Permutation found (List.filter f l) -> Forall (fun x => In x l /\ f x = true) found.
Proof.
  intros Hperm. apply Forall_forall. intros x Hx.
  apply list_elem_of_In in Hx.
  apply (Permutation_in _ Hperm), filter_In in Hx. exact Hx.
Qed.

Lemma ascending_map {A B} (f : A -> B) (key : B -> Z) (l : list A) :
  ascending (fun x => key (f x)) l -> ascending key (List.map f l).
Proof.
  unfold ascending. induction 1 as [|a rest Hrest IH Hall]; simpl; constructor; [exact IH|].
  apply Forall_map. exact Hall.
Qed.

(** X3. The low-stock report, while the database works, lists exactly the
    active products whose stock is strictly below the threshold, by
    increasing stock; a threshold that is zero or negative stands for 10.
    Nothing stored is changed. *)
Theorem GetLowStockProducts_report (w : World) (threshold : Z) :
  healthy 1 w = true ->
  let limit := if threshold <=? 0 then 10 else threshold in
  exists (report : list LowStockProduct.t) (w' : World),
    InventoryUseCase_GetLowStockProducts threshold w = (Ok report, w') /\
    ascending LowStockProduct.Stock report /\
    Permutation report
      (List.map low_stock_entry
         (List.filter (fun p => (Product.Stock p <? limit) && Bool.eqb (Product.IsActive p) true)
                      (documents w))) /\
    Forall (fun entry => LowStockProduct.Stock entry < limit) report /\
    products w' = products w.
Proof.
  intros Hh limit.
  destruct (storage_call_healthy 0 w Hh) as [Hs _].
  unfold InventoryUseCase_GetLowStockProducts, productRepo_GetLowStockProducts.
  fold limit. cbv [mbind M_bind mret M_ret get]. rewrite Hs.
  do 2 eexists. split; [reflexivity|].
  change (documents (set_faults (tail (faults w)) w)) with (documents w).
  assert (Hperm : Permutation (sort_asc Product.Stock (List.filter (low_stock limit) (documents w)))
                              (List.filter (low_stock limit) (documents w)))
    by apply sort_desc_perm.
  split; [|split; [|split; [|reflexivity]]].
  - apply (ascending_map _ LowStockProduct.Stock). apply sort_asc_sorted.
  - apply Permutation_map. exact Hperm.
  - apply Forall_map. eapply Forall_impl; [apply (filter_all_satisfy _ _ _ Hperm)|].
    simpl. intros p [_ Hlow]. unfold low_stock in Hlow.
    apply andb_true_iff in Hlow as [Hlt _]. by apply Z.ltb_lt.
Qed.

(** In the sample store the report with the default threshold lists the
    sprayer (stock 2) before the plough (stock 5) and leaves out the inactive
    tractor. *)
Lemma GetLowStockProducts_report_witness :
  exists (report : list LowStockProduct.t),
    (InventoryUseCase_GetLowStockProducts 0 Cases.store).1 = Ok report /\
    List.map LowStockProduct.Name report = ["Sprayer"; "Plough"].
Proof.
  destruct (GetLowStockProducts_report Cases.store 0 eq_refl)
    as (report & w' & Hrun & _).
  exists report. rewrite Hrun. split; [reflexivity|].
  vm_compute in Hrun. inversion Hrun. reflexivity.
Defined.

(** ** Catalog: pages *)

Lemma pages_concat {A} (limit : nat) (xs : list A) (n : nat) :
  flat_map (fun i => take limit (drop ((i - 1) * limit) xs)) (seq 1 n) = take (n * limit) xs.
Proof.
  induction n as [|n IH]; [reflexivity|].
  rewrite seq_S, flat_map_app, IH. simpl. rewrite app_nil_r.
  replace (n - 0)%nat with n by lia.
  rewrite take_take_drop. f_equal. lia.
Qed.

Lemma in_take_drop {A} (n m : nat) (l : list A) (x : A) :
  In x (take n (drop m l)) -> In x l.
Proof.
  intros Hin.
  rewrite <- (take_drop m l). apply in_or_app. right.
  rewrite <- (take_drop n (drop m l)). apply in_or_app. by left.
Qed.

(** Distinct keys leave one way to put a list in decreasing order. *)
Lemma descending_unique {A} (key : A -> Z) (l1 : list A) :
  forall l2 : list A,
  descending key l1 -> descending key l2 -> Permutation l1 l2 ->
  NoDup (List.map key l1) -> l1 = l2.
Proof.
  unfold descending. induction l1 as [|x r1 IH]; intros l2 Hs1 Hs2 Hperm Hnodup.
  - by apply Permutation_nil in Hperm.
  - destruct l2 as [|y r2]; [by apply Permutation_sym, Permutation_nil in Hperm|].
    apply StronglySorted_inv in Hs1 as [Hr1 Hall1].
    apply StronglySorted_inv in Hs2 as [Hr2 Hall2].
    simpl in Hnodup. apply NoDup_cons in Hnodup as [Hx Hnodup].
    assert (Hxy : x = y).
    { assert (Hy : In y (x :: r1))
        by (apply (Permutation_in _ (Permutation_sym Hperm)); by left).
      destruct Hy as [Hy|Hy]; [exact Hy|].
      assert (Hx2 : In x (y :: r2)) by (apply (Permutation_in _ Hperm); by left).
      destruct Hx2 as [Hx2|Hx2]; [by symmetry|].
      rewrite Forall_forall in Hall1, Hall2.
      assert (Hle1 : key y <= key x) by (apply Hall1; by apply list_elem_of_In).
      assert (Hle2 : key x <= key y) by (apply Hall2; by apply list_elem_of_In).
      destruct Hx. replace (key x) with (key y) by lia.
      apply list_elem_of_In, in_map, Hy. }
    subst y. f_equal. apply IH; try assumption.
    by apply Permutation_cons_inv in Hperm.
Qed.

Section CatalogPages.
Context `{Regex}.

Lemma whole_listing_at_page (filter : ProductFilter.t) (page : Z) (w : World) :
  whole_listing (at_page filter page) w = whole_listing filter w.
Proof. reflexivity. Qed.

(** The paginated branch of [productRepository.List], run. *)
Lemma productRepo_List_page (filter : ProductFilter.t) (w : World) :
  0 < ProductFilter.Page filter ->
  0 < ProductFilter.Limit filter ->
  (ProductFilter.Page filter - 1) * ProductFilter.Limit filter < 2 ^ 63 ->
  healthy 1 w = true ->
  productRepo_List filter w
    = (Ok (take (Z.to_nat (ProductFilter.Limit filter))
             (drop (Z.to_nat ((ProductFilter.Page filter - 1) * ProductFilter.Limit filter))
                (whole_listing filter w))),
       set_faults (tail (faults w)) w).
Proof.
  intros Hpage Hlimit Hbound Hh.
  destruct (storage_call_healthy 0 w Hh) as [Hs _].
  assert (Hopts : (0 <? ProductFilter.Page filter) && (0 <? ProductFilter.Limit filter) = true).
  { apply andb_true_iff. split; apply Z.ltb_lt; assumption. }
  assert (Hw : wrap64 ((ProductFilter.Page filter - 1) * ProductFilter.Limit filter)
               = (ProductFilter.Page filter - 1) * ProductFilter.Limit filter)
    by (apply wrap64_id; unfold int64_range; nia).
  unfold productRepo_List. rewrite Hopts, Hw.
  cbv [mbind M_bind mret M_ret get]. rewrite Hs.
  assert (Hskip : ((ProductFilter.Page filter - 1) * ProductFilter.Limit filter <? 0) = false)
    by (apply Z.ltb_ge; nia).
  rewrite Hskip. reflexivity.
Qed.


(** X5. When the matching products have distinct creation times, the
    listing is settled: reading pages 1, 2, ..., n one after the other, on
    a store that does not change and while the database works, yields the
    first [n * limit] products of the one list that holds the matching
    products newest first, so no product is skipped and none comes twice.
    (With equal creation times the database may order each page's query
    differently, and nothing of the kind holds.) *)
Theorem pages_tile_the_listing (filter : ProductFilter.t) (w : World) (n : nat)
    (listing : list Product.t) :
  0 < ProductFilter.Limit filter ->
  Z.of_nat n * ProductFilter.Limit filter < 2 ^ 63 ->
  healthy 1 w = true ->
  NoDup (List.map Product.CreatedAt
           (List.filter (matches (List_mongoFilter filter)) (documents w))) ->
  Permutation listing (List.filter (matches (List_mongoFilter filter)) (documents w)) ->
  descending Product.CreatedAt listing ->
  flat_map (fun i : nat => returned (productRepo_List (at_page filter (Z.of_nat i)) w)) (seq 1 n)
    = take (n * Z.to_nat (ProductFilter.Limit filter)) listing.
Proof.
  intros Hlimit Hbound Hh Htimes Hperm Hsorted.
  assert (Hlisting : listing = whole_listing filter w).
  { apply (descending_unique Product.CreatedAt); [exact Hsorted | apply sort_desc_sorted | |].
    - rewrite Hperm. symmetry. apply sort_desc_perm.
    - by rewrite (Permutation_map Product.CreatedAt Hperm). }
  subst listing. clear Htimes Hperm Hsorted.
  induction n as [|n IH]; [reflexivity|].
  rewrite seq_S, flat_map_app, IH by nia. simpl flat_map. rewrite app_nil_r.
  unfold returned at 1.
  rewrite productRepo_List_page; simpl ProductFilter.Page; simpl ProductFilter.Limit;
    [|lia|exact Hlimit|nia|exact Hh].
  simpl fst. rewrite whole_listing_at_page.
  replace (Z.to_nat ((Z.of_nat (S n) - 1) * ProductFilter.Limit filter))
    with (n * Z.to_nat (ProductFilter.Limit filter))%nat
    by (rewrite Z2Nat.inj_mul by lia; f_equal; lia).
  rewrite take_take_drop. f_equal. lia.
Qed.

End CatalogPages.


(** The two pages of the sample store make up its three products, newest first. *)
Lemma pages_tile_the_listing_witness :
  List.map Product.Name
    (flat_map (fun i : nat =>
                 returned (productRepo_List (H := Sample.literal_regex)
                             (at_page (Cases.two_per_page 0) (Z.of_nat i)) Cases.store))
              (seq 1 2))
  = ["Tractor"; "Sprayer"; "Plough"].
Proof.
  rewrite (pages_tile_the_listing (H := Sample.literal_regex)
             (Cases.two_per_page 0) Cases.store 2
             (whole_listing (H := Sample.literal_regex) (Cases.two_per_page 0) Cases.store));
    [vm_compute; reflexivity | simpl; lia | simpl; lia | reflexivity | |
     apply sort_desc_perm | apply sort_desc_sorted].
  vm_compute.
  repeat (apply NoDup_cons_2;
          [rewrite ?not_elem_of_cons; repeat split; try discriminate; apply not_elem_of_nil|]).
  apply NoDup_nil_2.
Defined.


(** ** Catalog: deleting and creating *)

(** X7. Deleting a stored product, while the database works, removes it and
    nothing else; reading it afterwards fails with "product not found". *)
Theorem DeleteProduct_removes_the_product (w : World) (id : ObjectID) (p : Product.t) :
  products w !! id = Some p ->
  healthy 2 w = true ->
  exists w',
    DeleteProduct id w = (Ok tt, w') /\
    products w' !! id = None /\
    (forall id', id' <> id -> products w' !! id' = products w !! id') /\
    sales w' = sales w /\
    (healthy 1 w' = true -> rejected_with "product not found" (GetProductByID id) w').
Proof.
  intros Hp Hh. unfold healthy in Hh. unfold DeleteProduct, productRepo_Delete. run.
  destruct (faults w) as [|[e1|] [|[e2|] rest]] eqn:Hf; simpl in *; try discriminate.
  all: rewrite Hp; simpl.
  all: eexists; split; [reflexivity|]; simpl.
  all: split; [apply lookup_delete_eq|].
  all: split; [intros id' Hne; by apply lookup_delete_ne|].
  all: split; [reflexivity|].
  all: intros Hh1.
  all: match goal with
       | |- rejected_with _ _ ?w1 =>
         destruct (GetByID_healthy 0 id w1 Hh1) as [Hg _]; simpl in Hg;
         rewrite lookup_delete_eq in Hg; simpl in Hg
       end.
  all: unfold rejected_with, GetProductByID.
  all: rewrite bind_run, Hg; eexists; split; [reflexivity|]; by split.
Qed.

(** Deleting the sprayer from the sample store. *)
Lemma DeleteProduct_removes_the_product_witness :
  exists w',
    DeleteProduct 2%N Cases.store = (Ok tt, w') /\
    products w' !! 2%N = None /\
    products w' !! 1%N = Some Cases.plough.
Proof.
  destruct (DeleteProduct_removes_the_product Cases.store 2%N Cases.sprayer)
    as (w' & Hrun & Hgone & Hothers & _); [reflexivity | reflexivity |].
  exists w'. split; [exact Hrun|]. split; [exact Hgone|].
  rewrite Hothers by discriminate. reflexivity.
Defined.

Lemma CreateProduct_urls_ok (urls : list string) :
  forall (i : nat) (images : list ProductImage.t) (w : World),
  exists images' w',
    CreateProduct_urls i urls images w = (Ok images', w') /\ same_store w w'.
Proof.
  induction urls as [|url rest IH]; intros i images w; simpl.
  - exists images, w. split; [reflexivity | apply same_store_refl].
  - destruct (nonempty url); [|apply IH].
    run.
    match goal with
    | |- context [CreateProduct_urls ?j rest ?imgs ?w1] =>
      destruct (IH j imgs w1) as (images' & w' & Hrun & Hs)
    end.
    exists images', w'. split; [exact Hrun | exact Hs].
Qed.

Lemma legacy_image_ok (imageURL : string) (images : list ProductImage.t) (w : World) :
  exists images' w', legacy_image imageURL images w = (Ok images', w') /\ same_store w w'.
Proof.
  unfold legacy_image.
  destruct (nonempty imageURL && Nat.eqb (length images) 0).
  - run. eexists. eexists. split; [reflexivity|]. by repeat split.
  - exists images, w. split; [reflexivity | apply same_store_refl].
Qed.

(** What [productRepository.Create] stores when it succeeds. *)
Lemma productRepo_Create_stored (product created : Product.t) (w w' : World) :
  productRepo_Create product w = (Ok created, w') ->
  products w !! Product.ID created = None /\
  products w' = <[Product.ID created := created]> (products w) /\
  decode (Product.ID created) created = created /\
  Product.Stock created = Product.Stock product /\
  Product.IsActive created = Product.IsActive product /\
  Product.Name created = Product.Name product /\
  Product.Price created = Product.Price product /\
  sales w' = sales w /\
  faults w' = tail (faults w).
Proof.
  run. destruct (faults w) as [|[e|] rest]; simpl.
  all: try discriminate.
  all: destruct (products w !! oids w) eqn:Hfree; simpl; try discriminate.
  all: intros Heq; inversion Heq; subst; simpl.
  all: by repeat split.
Qed.

(** X8. A product that CreateProduct returns is stored under a fresh
    identity and can be read back unchanged with GetProductByID; it is
    active, carries the name, price and stock of the request, and every
    product stored before is still stored unchanged. *)
Theorem CreateProduct_then_GetProductByID (req : CreateProductRequest.t) (w w' : World)
    (created : Product.t) :
  CreateProduct req w = (Ok created, w') ->
  healthy 2 w = true ->
  products w !! Product.ID created = None /\
  (exists w'', GetProductByID (Product.ID created) w' = (Ok created, w'')) /\
  Product.IsActive created = true /\
  Product.Name created = CreateProductRequest.Name req /\
  Product.Price created = CreateProductRequest.Price req /\
  Product.Stock created = CreateProductRequest.Stock req /\
  (forall id p, products w !! id = Some p -> products w' !! id = Some p).
Proof.
  intros Hrun Hh. unfold CreateProduct in Hrun. cbn [new_product Product.Images] in Hrun.
  assert (Hstep : exists images1 w1,
            (if (0 <? length (CreateProductRequest.ImageURLs req))%nat
             then CreateProduct_urls 0 (CreateProductRequest.ImageURLs req) []
             else mret []) w = (Ok images1, w1) /\ same_store w w1).
  { destruct (0 <? length (CreateProductRequest.ImageURLs req))%nat.
    - apply CreateProduct_urls_ok.
    - exists [], w. split; [reflexivity | apply same_store_refl]. }
  destruct Hstep as (images1 & w1 & Hrun1 & Hs1).
  destruct (legacy_image_ok (CreateProductRequest.ImageURL req) images1 w1)
    as (images2 & w2 & Hrun2 & Hs2).
  rewrite bind_run, Hrun1, bind_run, Hrun2 in Hrun.
  apply productRepo_Create_stored in Hrun
    as (Hfree & Hst & Hdec & Hstock & Hact & Hname & Hprice & _ & Hf).
  destruct Hs1 as (Hp1 & _ & _ & Hf1). destruct Hs2 as (Hp2 & _ & _ & Hf2).
  rewrite Hp2, Hp1 in Hfree, Hst. rewrite Hf2, Hf1 in Hf.
  split; [exact Hfree|]. split.
  - assert (Hh' : healthy 1 w' = true).
    { unfold healthy in *. rewrite Hf.
      destruct (faults w) as [|[e1|] [|[e2|] rest]]; simpl in *; try done. }
    destruct (GetByID_healthy 0 (Product.ID created) w' Hh') as [Hg _].
    rewrite Hst, lookup_insert_eq in Hg. simpl in Hg. rewrite Hdec in Hg.
    unfold GetProductByID. rewrite bind_run, Hg. eauto.
  - repeat split; try assumption.
    intros id p Hp. rewrite Hst.
    destruct (decide (id = Product.ID created)) as [->|Hne]; [congruence|].
    by rewrite lookup_insert_ne.
Qed.

(** Creating a product in the sample store and reading it back. *)
Lemma CreateProduct_then_GetProductByID_witness :
  exists (created : Product.t) (w' w'' : World),
    CreateProduct Sample.request_blank_first_url Cases.store = (Ok created, w') /\
    GetProductByID (Product.ID created) w' = (Ok created, w'') /\
    products w' !! 1%N = Some Cases.plough.
Proof.
  destruct (CreateProduct Sample.request_blank_first_url Cases.store) as [[created|e] w'] eqn:Hrun;
    [|vm_compute in Hrun; discriminate].
  destruct (CreateProduct_then_GetProductByID Sample.request_blank_first_url Cases.store w'
              created Hrun eq_refl) as (_ & [w'' Hget] & _ & _ & _ & _ & Hold).
  exists created, w', w''. split; [reflexivity|]. split; [exact Hget|].
  apply Hold. reflexivity.
Defined.

(** ** Sales: listings *)

Lemma descending_app {A} (key : A -> Z) (l1 l2 : list A) :
  descending key (l1 ++ l2) -> descending key l1 /\ descending key l2.
Proof.
  unfold descending. induction l1 as [|x rest IH]; simpl; intros Hs.
  - split; [constructor | exact Hs].
  - apply StronglySorted_inv in Hs as [Hrest Hall].
    destruct (IH Hrest) as [H1 H2]. split; [|exact H2].
    constructor; [exact H1|]. apply Forall_app in Hall. tauto.
Qed.

Lemma descending_take_drop {A} (key : A -> Z) (n m : nat) (l : list A) :
  descending key l -> descending key (take n (drop m l)).
Proof.
  intros Hs.
  rewrite <- (take_drop m l) in Hs. apply descending_app in Hs as [_ Hs].
  rewrite <- (take_drop n (drop m l)) in Hs. by apply descending_app in Hs as [Hs _].
Qed.

(** The sales a filter selects are those it asks for. *)
Lemma sale_matches_wanted (filter : SaleFilter.t) (s : Sale.t) :
  sale_matches (SaleList_mongoFilter filter) s = true -> sale_wanted filter s.
Proof.
  unfold sale_matches. intros Hm.
  assert (Hall : map_Forall (fun k v => sale_entry_matches s (k, v) = true)
                            (SaleList_mongoFilter filter)).
  { apply map_Forall_to_list, Forall_forall. intros [k v] Hin.
    apply list_elem_of_In in Hin.
    rewrite forallb_forall in Hm. exact (Hm (k, v) Hin). }
  clear Hm. unfold SaleList_mongoFilter, sale_wanted, ObjectID_IsZero, Time_IsZero in *.
  destruct (N.eqb_spec (SaleFilter.ProductID filter) NilObjectID) as [Hid|Hid];
    destruct (Z.eqb_spec (SaleFilter.FromDate filter) zeroTime) as [Hfrom|Hfrom];
    destruct (Z.eqb_spec (SaleFilter.ToDate filter) zeroTime) as [Hto|Hto];
    simpl in Hall.
  all: repeat match goal with
       | H : map_Forall _ (<[_ := _]> _) |- _ =>
         apply map_Forall_insert in H as [? H]; [|by simplify_map_eq]
       end.
  all: unfold sale_doc_time, sale_doc_id in *; simpl in *.
  all: repeat split; intros Hne; try contradiction.
  all: repeat match goal with
       | H : N.eqb _ _ = true |- _ => apply N.eqb_eq in H
       | H : _ && _ = true |- _ => apply andb_true_iff in H as [? ?]
       | H : (_ <=? _) = true |- _ => apply Z.leb_le in H
       end; try assumption.
Qed.

(** The filter that List and Count build selects the sales asked for. *)
Lemma sale_matches_asked (filter : SaleFilter.t) (s : Sale.t) :
  sale_matches (SaleList_mongoFilter filter) s = sale_asked filter s.
Proof.
  apply eq_iff_eq_true. unfold sale_matches.
  transitivity (map_Forall (fun k v => sale_entry_matches s (k, v) = true)
                           (SaleList_mongoFilter filter)).
  { rewrite forallb_forall, map_Forall_to_list, Forall_forall. split.
    - intros Hm [k v] Hin. apply (Hm (k, v)). by apply list_elem_of_In.
    - intros Hm [k v] Hin. apply (Hm (k, v)). by apply list_elem_of_In. }
  unfold SaleList_mongoFilter, sale_asked, ObjectID_IsZero, Time_IsZero.
  destruct (N.eqb (SaleFilter.ProductID filter) NilObjectID);
    destruct (Z.eqb (SaleFilter.FromDate filter) zeroTime);
    destruct (Z.eqb (SaleFilter.ToDate filter) zeroTime); simpl.
  all: rewrite ?map_Forall_insert by (by simplify_map_eq).
  all: unfold sale_doc_time, sale_doc_id; simpl.
  all: rewrite ?andb_true_iff, ?andb_true_r.
  all: pose proof (map_Forall_empty (M := gmap string)
                     (fun k v => sale_entry_matches s (k, v) = true)) as Hempty.
  all: tauto.
Qed.



(** X10. The sales of a date range, while the database works, are exactly
    the stored sales whose date lies between the two bounds, both included,
    returned latest first; nothing stored is changed. *)
Theorem GetSalesByDateRange_sorted_in_range (fromDate toDate : Time) (w : World) :
  healthy 1 w = true ->
  exists (found : list Sale.t) (w' : World),
    GetSalesByDateRange fromDate toDate w = (Ok found, w') /\
    descending Sale.DateSold found /\
    (forall s, In s found <-> In s (sales w) /\ fromDate <= Sale.DateSold s <= toDate) /\
    length found = length (List.filter (date_sold_in fromDate toDate) (sales w)) /\
    sales w' = sales w /\ products w' = products w.
Proof.
  intros Hh. destruct (storage_call_healthy 0 w Hh) as [Hs _].
  unfold GetSalesByDateRange, saleRepo_GetSalesByDateRange.
  cbv [mbind M_bind mret M_ret get]. rewrite Hs.
  do 2 eexists. split; [reflexivity|].
  change (sales (set_faults (tail (faults w)) w)) with (sales w).
  split; [apply sort_desc_sorted|].
  split; [|split; [apply Permutation_length, sort_desc_perm | by split]].
  intros s. split.
  - intros Hin. apply (Permutation_in _ (sort_desc_perm _ _)), filter_In in Hin as [Hin Hm].
    split; [exact Hin|]. unfold date_sold_in in Hm.
    apply andb_true_iff in Hm as [H1 H2]. apply Z.leb_le in H1, H2. lia.
  - intros [Hin Hr]. apply (Permutation_in _ (Permutation_sym (sort_desc_perm _ _))).
    apply filter_In. split; [exact Hin|]. unfold date_sold_in.
    apply andb_true_iff. split; apply Z.leb_le; lia.
Qed.

(** The sample books between instants 155 and 200. *)
Lemma GetSalesByDateRange_sorted_in_range_witness :
  exists (found : list Sale.t) (w' : World),
    GetSalesByDateRange 155 200 Cases.books = (Ok found, w') /\
    descending Sale.DateSold found /\ length found = 2%nat.
Proof.
  destruct (GetSalesByDateRange_sorted_in_range 155 200 Cases.books eq_refl)
    as (found & w' & Hrun & Hsorted & _ & Hlen & _).
  exists found, w'. split; [exact Hrun|]. split; [exact Hsorted|].
  rewrite Hlen. reflexivity.
Defined.

(** ** Sales: units are conserved *)

Lemma units_sold_snoc (id : ObjectID) (w w' : World) (sale : Sale.t) :
  sales w' = sales w ++ [sale] ->
  units_sold id w' =
    units_sold id w + (if N.eqb (Sale.ProductID sale) id then Sale.Quantity sale else 0).
Proof.
  unfold units_sold. intros ->. induction (sales w) as [|s rest IH]; simpl.
  - destruct (N.eqb (Sale.ProductID sale) id); lia.
  - rewrite IH. destruct (N.eqb (Sale.ProductID s) id); lia.
Qed.

(** X11. A sale that succeeds moves units from the stock to the sales and
    loses none: for a validated request that the stock covers, the units of
    the product in stock plus the units of it sold are the same before and
    after, in both CreateSale implementations. *)
Theorem CreateSale_conserves_units (w : World) (req : CreateSaleRequest.t) (p : Product.t) :
  products w !! CreateSaleRequest.ProductID req = Some p ->
  0 < CreateSaleRequest.Quantity req <= Product.Stock p ->
  int64_range (Product.Stock p) ->
  let id := CreateSaleRequest.ProductID req in
  (forall sale w', SaleUseCase_CreateSale req w = (Ok sale, w') ->
     units_in_stock id w' + units_sold id w' = units_in_stock id w + units_sold id w) /\
  (forall sale w', SalesUseCase_CreateSale req w = (Ok sale, w') ->
     units_in_stock id w' + units_sold id w' = units_in_stock id w + units_sold id w).
Proof.
  intros Hp Hq Hr id.
  destruct (SaleUseCase_CreateSale_contract w req p Hp Hq Hr) as [_ Hall1].
  destruct (SalesUseCase_CreateSale_contract w req p Hp Hq Hr) as [_ Hall2].
  split; intros sale w' Hrun.
  - destruct (Hall1 sale w' Hrun) as (Hsales & Hpid & Hqty & _ & _ & Hstock).
    rewrite (units_sold_snoc id w w' sale Hsales). unfold units_in_stock, id.
    rewrite Hpid, N.eqb_refl, Hqty, Hp.
    destruct (products w' !! CreateSaleRequest.ProductID req); simpl in Hstock; [|discriminate].
    inversion Hstock. lia.
  - destruct (Hall2 sale w' Hrun) as (Hsales & Hpid & Hqty & _ & _ & Hstock).
    rewrite (units_sold_snoc id w w' sale Hsales). unfold units_in_stock, id.
    rewrite Hpid, N.eqb_refl, Hqty, Hp.
    destruct (products w' !! CreateSaleRequest.ProductID req); simpl in Hstock; [|discriminate].
    inversion Hstock. lia.
Qed.

(** Selling 2 of the 5 ploughs of the sample books: 3 in stock, 5 sold in all. *)
Lemma CreateSale_conserves_units_witness :
  exists (sale : Sale.t) (w' : World),
    SaleUseCase_CreateSale (CreateSaleRequest.mk 1%N 2 10%float) Cases.books = (Ok sale, w') /\
    units_in_stock 1%N w' + units_sold 1%N w' = 8.
Proof.
  destruct (SaleUseCase_CreateSale (CreateSaleRequest.mk 1%N 2 10%float) Cases.books)
    as [[sale|e] w'] eqn:Hrun; [|vm_compute in Hrun; discriminate].
  exists sale, w'. split; [reflexivity|].
  destruct (CreateSale_conserves_units Cases.books (CreateSaleRequest.mk 1%N 2 10%float)
              Cases.plough) as [Hkeep _];
    [reflexivity | simpl; lia | unfold int64_range; simpl; lia |].
  simpl in Hkeep. rewrite (Hkeep sale w' Hrun). reflexivity.
Defined.

(** ** Registration and login *)

Lemma find_snoc {A} (f : A -> bool) (l : list A) (x : A) :
  List.find f l = None -> f x = true -> List.find f (l ++ [x]) = Some x.
Proof.
  induction l as [|y rest IH]; simpl; intros Hnone Hx; [by rewrite Hx|].
  destruct (f y); [discriminate | by apply IH].
Qed.

Section RegisterLogin.
Context `{Bcrypt} `{BcryptCompare} `{JwtSigner}.

(** What a successful Register has stored. *)
Lemma Register_stored (req : CreateUserRequest.t) (w w' : World) (user : User.t) :
  Register req w = (Ok user, w') ->
  List.find (fun u => String.eqb (User.Email u) (CreateUserRequest.Email req)) (users w) = None /\
  users w' = users w ++ [user] /\
  User.Email user = CreateUserRequest.Email req /\
  User.IsActive user = true /\
  bcrypt_GenerateFromPassword (CreateUserRequest.Password req) bcrypt_DefaultCost
    = Ok (User.Password user) /\
  faults w' = tail (tail (faults w)).
Proof.
  unfold Register. run.
  destruct (faults w) as [|[e1|] rest]; simpl; try discriminate.
  all: destruct (List.find _ (users w)) eqn:Hfind; simpl; try discriminate.
  all: destruct (bcrypt_GenerateFromPassword _ _) eqn:Hhash; simpl; try discriminate.
  all: try (destruct rest as [|[e2|] rest]; simpl; try discriminate).
  all: intros Heq; inversion Heq; subst; simpl; by repeat split.
Qed.

(** X12. An email can be registered once: after a successful Register, every
    further Register with the same email fails with "user already exists"
    when the lookup succeeds, and stores nothing, whatever its password,
    name and role. *)
Theorem Register_twice_is_refused (req again : CreateUserRequest.t) (w w' : World)
    (user : User.t) :
  Register req w = (Ok user, w') ->
  CreateUserRequest.Email again = CreateUserRequest.Email req ->
  healthy 1 w' = true ->
  exists w'', Register again w' = (Err "user already exists", w'') /\ users w'' = users w'.
Proof.
  intros Hrun Hemail Hh.
  apply Register_stored in Hrun as (Hfree & Husers & Huser & _).
  destruct (storage_call_healthy 0 w' Hh) as [Hs _].
  unfold Register, userRepo_GetByEmail. cbv [mbind M_bind mret M_ret get]. rewrite Hs.
  change (users (set_faults (tail (faults w')) w')) with (users w').
  rewrite Husers, Hemail, (find_snoc _ _ user Hfree) by (rewrite Huser; apply String.eqb_refl).
  eexists. split; [reflexivity|]. simpl. by rewrite Husers.
Qed.

(** X13. Login tells nothing apart between an unknown email and a wrong
    password: both fail with "invalid email or password". An inactive
    account is reported as such before the password is looked at, whatever
    the password. No failed login stores anything. *)
Theorem Login_failures (jwtSecret : string) (req : LoginRequest.t) (w : World) :
  healthy 1 w = true ->
  let found := List.find (fun u => String.eqb (User.Email u) (LoginRequest.Email req)) (users w) in
  (found = None -> login_refused "invalid email or password" (Login jwtSecret req) w) /\
  (forall user e, found = Some user -> User.IsActive user = true ->
     bcrypt_CompareHashAndPassword (User.Password user) (LoginRequest.Password req) = Some e ->
     login_refused "invalid email or password" (Login jwtSecret req) w) /\
  (forall user, found = Some user -> User.IsActive user = false ->
     login_refused "user account is inactive" (Login jwtSecret req) w).
Proof.
  intros Hh found.
  destruct (storage_call_healthy 0 w Hh) as [Hs _].
  assert (Hget : userRepo_GetByEmail (LoginRequest.Email req) w
                 = (Ok found, set_faults (tail (faults w)) w)).
  { unfold userRepo_GetByEmail. cbv [mbind M_bind mret M_ret get]. rewrite Hs. reflexivity. }
  unfold login_refused, Login. rewrite bind_run, Hget.
  split; [|split].
  - intros ->. eexists. split; reflexivity.
  - intros user e -> Hactive Hcmp. rewrite Hactive, Hcmp. eexists. split; reflexivity.
  - intros user -> Hactive. rewrite Hactive. eexists. split; reflexivity.
Qed.

(** X14. A registered user can log in with the registered password: when
    the comparison accepts the stored hash, Login after a successful
    Register returns the stored user and the token signed over claims that
    name that user's identity, email and role (or the signer's error). *)
Theorem Register_then_Login (jwtSecret : string) (req : CreateUserRequest.t) (w w' : World)
    (user : User.t) :
  Register req w = (Ok user, w') ->
  bcrypt_CompareHashAndPassword (User.Password user) (CreateUserRequest.Password req) = None ->
  healthy 1 w' = true ->
  exists (claims : gmap string claim) (w'' : World),
    claims !! "user_id" = Some (ClaimString (ObjectID_Hex (User.ID user))) /\
    claims !! "email" = Some (ClaimString (CreateUserRequest.Email req)) /\
    claims !! "role" = Some (ClaimString (User.Role user)) /\
    Login jwtSecret
          (LoginRequest.mk (CreateUserRequest.Email req) (CreateUserRequest.Password req)) w'
      = (match jwt_SignedString claims jwtSecret with
         | Ok token => Ok (LoginResponse.mk token user)
         | Err e => Err e
         end, w'').
Proof.
  intros Hrun Hcmp Hh.
  apply Register_stored in Hrun as (Hfree & Husers & Huser & Hactive & _).
  destruct (storage_call_healthy 0 w' Hh) as [Hs _].
  assert (Hget : userRepo_GetByEmail (CreateUserRequest.Email req) w'
                 = (Ok (Some user), set_faults (tail (faults w')) w')).
  { unfold userRepo_GetByEmail. cbv [mbind M_bind mret M_ret get]. rewrite Hs.
    change (users (set_faults (tail (faults w')) w')) with (users w').
    rewrite Husers, (find_snoc _ _ user Hfree) by (rewrite Huser; apply String.eqb_refl).
    reflexivity. }
  unfold Login. simpl LoginRequest.Email. simpl LoginRequest.Password.
  rewrite bind_run, Hget, Hactive, Hcmp.
  unfold generateJWT. cbv [mbind M_bind mret M_ret time_Now fail negb]. cbv beta iota.
  rewrite <- Huser.
  match goal with |- context [jwt_SignedString ?c jwtSecret] => exists c end.
  eexists. split; [|split; [|split]]; [by simplify_map_eq ..|].
  destruct (jwt_SignedString _ jwtSecret); reflexivity.
Qed.
End RegisterLogin.

(** Mallory registers twice. *)
Lemma Register_twice_is_refused_witness :
  exists (user : User.t) (w' w'' : World),
    Register (H := Sample.tagging_hasher) Sample.request_admin Sample.shop = (Ok user, w') /\
    Register (H := Sample.tagging_hasher) Sample.request_admin w'
      = (Err "user already exists", w'').
Proof.
  destruct (Register (H := Sample.tagging_hasher) Sample.request_admin Sample.shop)
    as [[user|e] w'] eqn:Hrun; [|vm_compute in Hrun; discriminate].
  destruct (Register_twice_is_refused (H := Sample.tagging_hasher)
              Sample.request_admin Sample.request_admin Sample.shop w' user Hrun eq_refl)
    as (w'' & Hagain & _).
  { vm_compute in Hrun. inversion Hrun. reflexivity. }
  exists user, w', w''. split; [reflexivity | exact Hagain].
Defined.

(** Ann's account when it is inactive, and a wrong password for it when it
    is active. *)
Lemma Login_failures_witness :
  login_refused "user account is inactive"
    (Login (H := tagging_compare) (H0 := plain_signer) "key"
           (LoginRequest.mk "ann@example.com" "guess")) (club false) /\
  login_refused "invalid email or password"
    (Login (H := tagging_compare) (H0 := plain_signer) "key"
           (LoginRequest.mk "ann@example.com" "guess")) (club true).
Proof.
  split.
  - apply (Login_failures (H0 := tagging_compare) (H1 := plain_signer) "key"
             (LoginRequest.mk "ann@example.com" "guess") (club false) eq_refl
             ) with (user := member false); reflexivity.
  - eapply (Login_failures (H0 := tagging_compare) (H1 := plain_signer) "key"
             (LoginRequest.mk "ann@example.com" "guess") (club true) eq_refl
             ) with (user := member true); reflexivity.
Defined.

(** Mallory registers as admin and logs in: the token says admin. *)
Lemma Register_then_Login_witness :
  exists (user : User.t) (w' : World) (response : LoginResponse.t),
    Register (H := Sample.tagging_hasher) Sample.request_admin Sample.shop = (Ok user, w') /\
    (Login (H := tagging_compare) (H0 := plain_signer) "key"
           (LoginRequest.mk "mallory@example.com" "secret1") w').1 = Ok response /\
    LoginResponse.User response = user.
Proof.
  destruct (Register (H := Sample.tagging_hasher) Sample.request_admin Sample.shop)
    as [[user|e] w'] eqn:Hrun; [|vm_compute in Hrun; discriminate].
  destruct (Register_then_Login (H := Sample.tagging_hasher) (H0 := tagging_compare)
              (H1 := plain_signer) "key" Sample.request_admin Sample.shop w' user Hrun)
    as (claims & w'' & Hid & _ & Hrole & Hlogin).
  { vm_compute in Hrun. inversion Hrun. reflexivity. }
  { vm_compute in Hrun. inversion Hrun. reflexivity. }
  simpl in Hlogin. rewrite Hid, Hrole in Hlogin.
  eexists user, w', _. split; [reflexivity|]. rewrite Hlogin. split; reflexivity.
Defined.

(** ** The middleware in front of the admin routes *)

Lemma split_on_not_nil (sep : ascii) (s cur : string) : split_on sep s cur <> [].
Proof.
  revert cur. induction s as [|c rest IH]; intros cur; simpl; [discriminate|].
  destruct (Ascii.eqb c sep); [discriminate | apply IH].
Qed.

Lemma split_on_one (sep : ascii) (s cur b : string) :
  split_on sep s cur = [b] -> b = cur +:+ s.
Proof.
  revert cur. induction s as [|c rest IH]; intros cur; simpl.
  - intros [= <-]. by rewrite append_empty_r.
  - destruct (Ascii.eqb c sep).
    + intros [= _ Hnil]. by apply split_on_not_nil in Hnil.
    + intros Hs. rewrite (IH _ Hs), append_assoc. reflexivity.
Qed.

Lemma split_on_two (sep : ascii) (s cur a b : string) :
  split_on sep s cur = [a; b] -> cur +:+ s = a +:+ String sep b.
Proof.
  revert cur. induction s as [|c rest IH]; intros cur; simpl; [discriminate|].
  destruct (Ascii.eqb c sep) eqn:Hc.
  - apply Ascii.eqb_eq in Hc as ->. intros [= -> Hrest].
    apply split_on_one in Hrest as ->. reflexivity.
  - intros Hs. rewrite <- (IH _ Hs), append_assoc. reflexivity.
Qed.

Lemma two_parts (parts : list string) :
  negb (Nat.eqb (length parts) 2) || negb (String.eqb (nth 0 parts "") "Bearer") = false ->
  exists token, parts = ["Bearer"; token] /\ nth 1 parts "" = token.
Proof.
  intros Hparts. apply orb_false_iff in Hparts as [Hlen Hfirst].
  apply negb_false_iff in Hlen, Hfirst.
  apply Nat.eqb_eq in Hlen. apply String.eqb_eq in Hfirst.
  destruct parts as [|a [|b [|c more]]]; try discriminate.
  simpl in Hfirst. subst a. by exists b.
Qed.

Section AdminRoutes.
Context `{TokenValidator}.

(** What RequireAuth has set when it lets a request through. *)
Lemma RequireAuth_next (authHeader : string) (keys0 keys : gmap string (option claim)) :
  RequireAuth authHeader keys0 = Next keys ->
  exists (token : string) (claims : gmap string claim),
    authHeader = "Bearer " +:+ token /\
    ValidateToken token = Ok claims /\
    keys !! "user_role" = Some (claims !! "role").
Proof.
  unfold RequireAuth.
  destruct (String.eqb authHeader ""); [discriminate|].
  destruct (negb _ || negb _) eqn:Hparts; [discriminate|].
  apply two_parts in Hparts as (token & Hsplit & ->).
  apply split_on_two in Hsplit.
  destruct (ValidateToken token) as [claims|e] eqn:Hvalid; [|discriminate].
  intros [= <-]. exists token, claims. split; [exact Hsplit|]. split; [exact Hvalid|].
  by simplify_map_eq.
Qed.

(** X15. Behind RequireAuth and RequireAdmin a handler runs only for a
    request whose header is "Bearer " followed by a token that validates
    and whose role claim is the string "admin"; the answer 403 is given only
    to a valid token of another role; and "user role not found", the answer
    of RequireAdmin to a missing role, is never given. *)
Theorem admin_route_lets_only_admins_through (authHeader : string) :
  (forall keys, admin_route authHeader = Next keys -> bearer_of authHeader true) /\
  (forall e, admin_route authHeader = Aborted 403 e -> bearer_of authHeader false) /\
  admin_route authHeader <> Aborted 401 "user role not found".
Proof.
  unfold admin_route, bearer_of.
  destruct (RequireAuth authHeader ∅) as [keys|status error] eqn:Hauth.
  - apply RequireAuth_next in Hauth as (token & claims & Hheader & Hvalid & Hrole).
    unfold RequireAdmin. rewrite Hrole.
    split; [|split].
    + intros keys'. exists token, claims. split; [done|]. split; [done|].
      destruct (claims !! "role") as [[r| |]|]; try discriminate.
      destruct (String.eqb r "admin") eqn:Hr; [|discriminate].
      by apply String.eqb_eq in Hr as ->.
    + intros e. exists token, claims. split; [done|]. split; [done|].
      destruct (claims !! "role") as [[r| |]|]; try discriminate.
      destruct (String.eqb r "admin") eqn:Hr; [discriminate|].
      apply String.eqb_neq in Hr. congruence.
    + destruct (claims !! "role") as [[r| |]|]; try discriminate.
      destruct (String.eqb r "admin"); discriminate.
  - unfold RequireAuth in Hauth.
    destruct (String.eqb authHeader ""); [by inversion Hauth|].
    destruct (negb _ || negb _); [by inversion Hauth|].
    destruct (ValidateToken _); [discriminate|]. by inversion Hauth.
Qed.

(** X16. A token without a space that validates with the role "admin" is
    let through by the admin routes, and with any other role it is answered
    403 "admin access required". *)
Theorem admin_route_by_role (token : string) (claims : gmap string claim) :
  split_on " " token "" = [token] ->
  ValidateToken token = Ok claims ->
  (claims !! "role" = Some (ClaimString "admin") ->
     exists keys, admin_route ("Bearer " +:+ token) = Next keys) /\
  (claims !! "role" <> Some (ClaimString "admin") ->
     admin_route ("Bearer " +:+ token) = Aborted 403 "admin access required").
Proof.
  intros Hplain Hvalid.
  assert (Hsplit : split_on " " ("Bearer " +:+ token) "" = ["Bearer"; token]).
  { change ("Bearer" :: split_on " " token "" = ["Bearer"; token]). by rewrite Hplain. }
  unfold admin_route, RequireAuth.
  change (String.eqb ("Bearer " +:+ token) "") with false. cbv iota.
  rewrite Hsplit. simpl. rewrite Hvalid.
  unfold RequireAdmin. rewrite lookup_insert_eq.
  split.
  - intros ->. simpl. eexists. reflexivity.
  - intros Hrole. destruct (claims !! "role") as [[r| |]|]; try reflexivity.
    destruct (String.eqb r "admin") eqn:Hr; [|reflexivity].
    apply String.eqb_eq in Hr as ->. by destruct Hrole.
Qed.

(** X17. OptionalAuth never refuses a request: it hands on exactly what
    RequireAuth would hand on where that one accepts, and the request
    untouched, as anonymous, where that one answers 401. *)
Theorem OptionalAuth_never_aborts (authHeader : string) (keys : gmap string (option claim)) :
  OptionalAuth authHeader keys =
  match RequireAuth authHeader keys with
  | Next identified => Next identified
  | Aborted _ _ => Next keys
  end.
Proof.
  unfold OptionalAuth, RequireAuth.
  destruct (String.eqb authHeader ""); [reflexivity|].
  destruct (negb _ || negb _); [reflexivity|].
  destruct (ValidateToken _); reflexivity.
Qed.
End AdminRoutes.

(** A user's token at an admin route is a valid token of another role. *)
Lemma admin_route_lets_only_admins_through_witness :
  bearer_of (H := plain_validator) "Bearer 7.user" false.
Proof.
  apply (proj1 (proj2 (admin_route_lets_only_admins_through (H := plain_validator)
                         "Bearer 7.user")) "admin access required").
  reflexivity.
Defined.

(** An admin's token and a user's token at an admin route. *)
Lemma admin_route_by_role_witness :
  (exists keys, admin_route (H := plain_validator) "Bearer 7.admin" = Next keys) /\
  admin_route (H := plain_validator) "Bearer 7.user" = Aborted 403 "admin access required".
Proof.
  split.
  - apply (admin_route_by_role (H := plain_validator) "7.admin" _ eq_refl eq_refl).
    reflexivity.
  - apply (admin_route_by_role (H := plain_validator) "7.user" _ eq_refl eq_refl).
    vm_compute. discriminate.
Defined.

(** ** Uploads: extension, validation and URL *)

Lemma list_ascii_of_append (a b : string) :
  list_ascii_of_string (a +:+ b) = list_ascii_of_string a ++ list_ascii_of_string b.
Proof.
  induction a as [|c a IH]; [reflexivity|].
  change (c :: list_ascii_of_string (a +:+ b) = c :: (list_ascii_of_string a ++ list_ascii_of_string b)).
  by rewrite IH.
Qed.

Lemma string_of_snoc (l : list ascii) (c : ascii) (after : string) :
  string_of_list_ascii (l ++ [c]) +:+ after = string_of_list_ascii l +:+ String c after.
Proof.
  induction l as [|d l IH]; [reflexivity|].
  change (String d (string_of_list_ascii (l ++ [c]) +:+ after)
          = String d (string_of_list_ascii l +:+ String c after)).
  by rewrite IH.
Qed.

Lemma string_of_app (l m : list ascii) :
  string_of_list_ascii (l ++ m) = string_of_list_ascii l +:+ string_of_list_ascii m.
Proof.
  induction l as [|d l IH]; [reflexivity|].
  change (String d (string_of_list_ascii (l ++ m))
          = String d (string_of_list_ascii l +:+ string_of_list_ascii m)).
  by rewrite IH.
Qed.

(** The loop of [filepath.Ext] walks over bytes that are neither a dot nor
    a separator. *)
Lemma Ext_loop_plain (l m : list ascii) (after : string) :
  forallb plain_byte l = true ->
  Ext_loop (l ++ m) after = Ext_loop m (string_of_list_ascii (rev l) +:+ after).
Proof.
  revert after. induction l as [|c l IH]; intros after Hl; [reflexivity|].
  simpl in Hl. apply andb_true_iff in Hl as [Hc Hl].
  apply andb_true_iff in Hc as [Hdot Hsep].
  apply negb_true_iff in Hdot, Hsep.
  simpl. rewrite Hsep, Hdot, (IH _ Hl), string_of_snoc. reflexivity.
Qed.

(** Where the loop stops with a result, it stopped at a dot. *)
Lemma Ext_loop_stops_at_dot (before : list ascii) (after : string) :
  Ext_loop before after = "" \/
  exists l m, before = l ++ "."%char :: m /\ forallb plain_byte l = true /\
    Ext_loop before after = String "." (string_of_list_ascii (rev l) +:+ after).
Proof.
  revert after. induction before as [|c before IH]; intros after; [by left|].
  simpl. destruct (Ascii.eqb c "/") eqn:Hsep; [by left|].
  destruct (Ascii.eqb c ".") eqn:Hdot.
  - apply Ascii.eqb_eq in Hdot as ->. right. exists [], before. by repeat split.
  - destruct (IH (String c after)) as [Hnone | (l & m & -> & Hl & Hres)]; [by left|].
    right. exists (c :: l), m. split; [reflexivity|]. split.
    + simpl. unfold plain_byte at 1. by rewrite Hdot, Hsep.
    + rewrite Hres. simpl. by rewrite string_of_snoc.
Qed.

Lemma forallb_rev {A} (f : A -> bool) (l : list A) :
  forallb f l = true -> forallb f (rev l) = true.
Proof.
  rewrite !forallb_forall. intros Hl x Hx. apply Hl. by apply in_rev.
Qed.

(** [filepath.Ext] gives the last extension of the last path element:
    the extension of [stem.ext] is [.ext] when [ext] holds no dot and no
    separator, whatever the stem; and every result that is not empty arises
    like this. *)
Lemma filepath_Ext_is_the_last_extension :
  (forall stem ext : string, plain_name ext = true ->
     filepath_Ext (stem +:+ String "." ext) = String "." ext) /\
  (forall path : string, filepath_Ext path = "" \/
     exists stem ext : string, plain_name ext = true /\
       path = stem +:+ String "." ext /\ filepath_Ext path = String "." ext).
Proof.
  split.
  - intros stem ext Hplain. unfold filepath_Ext.
    rewrite list_ascii_of_append. simpl list_ascii_of_string.
    rewrite rev_app_distr. simpl rev. rewrite <- app_assoc. simpl app.
    rewrite Ext_loop_plain by (by apply forallb_rev).
    simpl. by rewrite rev_involutive, string_of_list_ascii_of_string, append_empty_r.
  - intros path. unfold filepath_Ext.
    destruct (Ext_loop_stops_at_dot (rev (list_ascii_of_string path)) "")
      as [Hnone | (l & m & Hsplit & Hl & Hres)]; [by left|].
    right. exists (string_of_list_ascii (rev m)), (string_of_list_ascii (rev l)).
    split; [|split].
    + unfold plain_name. rewrite list_ascii_of_string_of_list_ascii. by apply forallb_rev.
    + apply (f_equal (@rev ascii)) in Hsplit.
      rewrite rev_involutive, rev_app_distr in Hsplit. simpl in Hsplit.
      rewrite <- app_assoc in Hsplit. simpl in Hsplit.
      rewrite <- (string_of_list_ascii_of_string path), Hsplit. apply string_of_app.
    + by rewrite Hres, append_empty_r.
Qed.

Lemma allowedExts_are (ext : string) :
  map_bool allowedExts ext = true <-> image_extension ext.
Proof.
  unfold map_bool, allowedExts, image_extension.
  repeat (rewrite lookup_insert; case_decide; [subst; simpl; tauto|]).
  rewrite lookup_empty. simpl. split; [discriminate|].
  intros Hin. repeat (destruct Hin as [Hin|Hin]; [congruence|]). destruct Hin.
Qed.

(** X18. ValidateFile judges a file by its declared size, its declared
    content type and the last extension of its name, lowered; the stem of
    the name, and so any earlier extension, plays no part. *)
Theorem ValidateFile_judges_by_last_extension `{Strings}
    (uc : UploadConfig.t) (header : FileHeader.t) (stem ext : string) :
  FileHeader.Filename header = stem +:+ String "." ext ->
  plain_name ext = true ->
  ValidateFile uc header = None <->
  fits uc header /\ type_allowed uc header /\
  image_extension (strings_ToLower (String "." ext)).
Proof.
  intros Hname Hplain. unfold ValidateFile, fits, type_allowed.
  rewrite Hname, (proj1 filepath_Ext_is_the_last_extension stem ext Hplain).
  rewrite <- allowedExts_are. unfold map_bool at 1.
  destruct (Z.ltb_spec (UploadConfig.MaxFileSize uc) (FileHeader.Size header)).
  { split; [discriminate | lia]. }
  destruct (UploadConfig.AllowedTypes uc !! FileHeader.ContentType header) as [[|]|];
    simpl; try (split; [discriminate | intros (_ & [=] & _)]).
  destruct (map_bool allowedExts _); simpl.
  - split; [by intros _ | reflexivity].
  - split; [discriminate | by intros (_ & _ & [=])].
Qed.

(** A script behind an image's extension passes. *)
Lemma ValidateFile_judges_by_last_extension_witness :
  ValidateFile (H := ascii_strings) NewUploadConfig (upload "shell.php.JPG") = None.
Proof.
  apply (ValidateFile_judges_by_last_extension (H := ascii_strings)
           NewUploadConfig (upload "shell.php.JPG") "shell.php" "JPG" eq_refl eq_refl).
  split; [|split].
  - vm_compute. discriminate.
  - reflexivity.
  - vm_compute. tauto.
Defined.

Lemma trim_suffix_slash_snoc (base : string) : trim_suffix_slash (base +:+ "/") = base.
Proof.
  induction base as [|c base IH]; [reflexivity|].
  change (trim_suffix_slash (String c (base +:+ "/")) = String c base).
  destruct base as [|d base]; [reflexivity|].
  change (String c (trim_suffix_slash (String d base +:+ "/")) = String c (String d base)).
  by rewrite IH.
Qed.

Lemma replace_byte_gone (old new : ascii) (s : string) :
  old <> new -> has_byte old (replace_byte old new s) = false.
Proof.
  intros Hne. unfold has_byte. induction s as [|c s IH]; [reflexivity|].
  simpl. rewrite IH, orb_false_r.
  destruct (Ascii.eqb c old) eqn:Hc; apply Ascii.eqb_neq; [done|].
  apply Ascii.eqb_neq in Hc. congruence.
Qed.


(** ** Identities to text and back *)

Lemma hex_value_digit (m : N) : (m < 16)%N -> hex_value (hex_digit m) = Some m.
Proof.
  intros Hm. rewrite <- (N2Nat.id m). assert (Hn : (N.to_nat m < 16)%nat) by lia.
  unfold hex_digit. rewrite Nat2N.id. clear Hm. revert Hn. generalize (N.to_nat m). intros n Hn.
  do 16 (destruct n as [|n]; [reflexivity|]). lia.
Qed.

Lemma hex_digits_length (k : nat) (n : N) (acc : string) :
  String.length (hex_digits k n acc) = (k + String.length acc)%nat.
Proof.
  revert n acc. induction k as [|k IH]; intros n acc; simpl; [reflexivity|].
  rewrite IH. simpl. lia.
Qed.

Section HexRoundTrip.
Context `{HexErrors}.

Lemma hex_Decode_digits (k : nat) (n a : N) (acc : string) :
  hex_Decode (hex_digits k n acc) a = hex_Decode acc (a * 16 ^ N.of_nat k + n mod 16 ^ N.of_nat k)%N.
Proof.
  revert n a acc. induction k as [|k IH]; intros n a acc.
  - simpl. f_equal. rewrite N.mod_1_r. lia.
  - cbn [hex_digits]. rewrite IH. cbn [hex_Decode].
    rewrite hex_value_digit by (apply N.mod_upper_bound; lia).
    f_equal. rewrite Nat2N.inj_succ, N.pow_succ_r'.
    rewrite (N.Div0.mod_mul_r n 16 (16 ^ N.of_nat k)). lia.
Qed.

Lemma ObjectIDFromHex_Hex (id : ObjectID) :
  (id < 2 ^ 96)%N -> ObjectIDFromHex (ObjectID_Hex id) = Ok id.
Proof.
  intros Hid. unfold ObjectIDFromHex, ObjectID_Hex.
  rewrite hex_digits_length. simpl negb. cbv iota.
  rewrite hex_Decode_digits. cbn [hex_Decode]. f_equal.
  rewrite N.mul_0_l, N.add_0_l. apply N.mod_small.
  change (16 ^ N.of_nat 24)%N with (2 ^ 96)%N. exact Hid.
Qed.

(** X20. An identity written with ObjectID.Hex is read back by
    parseObjectID as the same identity, for every identity of twelve bytes;
    a text of another length than 24 is no identity. *)
Theorem parseObjectID_reads_back_Hex (id : ObjectID) :
  (id < 2 ^ 96)%N ->
  parseObjectID (ObjectID_Hex id) = Ok id /\
  (forall s, String.length s <> 24%nat -> exists e, parseObjectID s = Err e).
Proof.
  intros Hid. split; [by apply ObjectIDFromHex_Hex|].
  intros s Hlen. unfold parseObjectID, ObjectIDFromHex.
  apply Nat.eqb_neq in Hlen. rewrite Hlen. by eexists.
Qed.
End HexRoundTrip.

(** The identity 2024 written and read. *)
Lemma parseObjectID_reads_back_Hex_witness :
  parseObjectID (H := plain_hex_errors) "0000000000000000000007e8" = Ok 2024%N.
Proof.
  apply (parseObjectID_reads_back_Hex (H := plain_hex_errors) 2024%N). reflexivity.
Defined.

(** ** Categories *)

Ltac crun :=
  cbv [categoryRepo_GetByID categoryRepo_GetByName categoryRepo_Create categoryRepo_Delete
       categoryRepo_List mbind mret CM_bind CM_ret lift cat_fail cat_get cat_put
       time_Now NewObjectID];
  simpl.

Lemma elem_of_map {A B} (f : A -> B) (l : list A) (x : A) : x ∈ l -> f x ∈ map f l.
Proof. rewrite !list_elem_of_In. apply in_map. Qed.

Lemma find_name_none (name : string) (cs : list Category.t) :
  List.find (fun c => String.eqb (Category.Name c) name) cs = None ->
  name ∉ map Category.Name cs.
Proof.
  induction cs as [|c cs IH]; simpl; [intros _; apply not_elem_of_nil|].
  destruct (String.eqb (Category.Name c) name) eqn:Hc; [discriminate|].
  intros Hnone. apply not_elem_of_cons. split; [|by apply IH].
  apply String.eqb_neq in Hc. congruence.
Qed.

Lemma find_id_none (id : ObjectID) (cs : list Category.t) :
  id ∉ map Category.ID cs ->
  List.find (fun c => N.eqb (Category.ID c) id) cs = None.
Proof.
  induction cs as [|c cs IH]; simpl; [done|].
  intros Hnot. apply not_elem_of_cons in Hnot as [Hne Hnot].
  destruct (N.eqb_spec (Category.ID c) id); [congruence | by apply IH].
Qed.

Lemma find_id_some (c : Category.t) (cs : list Category.t) :
  NoDup (map Category.ID cs) -> c ∈ cs ->
  List.find (fun c' => N.eqb (Category.ID c') (Category.ID c)) cs = Some c.
Proof.
  induction cs as [|d cs IH]; simpl; intros Hnodup Hin; [by apply elem_of_nil in Hin|].
  apply NoDup_cons in Hnodup as [Hd Hnodup].
  apply elem_of_cons in Hin as [->|Hin]; [by rewrite N.eqb_refl|].
  destruct (N.eqb_spec (Category.ID d) (Category.ID c)) as [Heq|_]; [|by apply IH].
  destruct Hd. rewrite Heq. by apply elem_of_map.
Qed.

Lemma delete_first_spec (id : ObjectID) (cs : list Category.t) (c : Category.t) :
  NoDup (map Category.ID cs) ->
  c ∈ delete_first id cs <-> c ∈ cs /\ Category.ID c <> id.
Proof.
  induction cs as [|d cs IH]; simpl; intros Hnodup.
  - split; [intros Hin | intros [Hin _]]; by apply elem_of_nil in Hin.
  - apply NoDup_cons in Hnodup as [Hd Hnodup].
    destruct (N.eqb_spec (Category.ID d) id) as [Heq|Hne].
    + rewrite elem_of_cons. split.
      * intros Hin. split; [by right|]. intros Hc. destruct Hd.
        rewrite Heq, <- Hc. by apply elem_of_map.
      * intros [[->|Hin] Hc]; [congruence | done].
    + rewrite !elem_of_cons, (IH Hnodup). split.
      * intros [->|[Hin Hc]]; [split; [by left | done] | split; [by right | done]].
      * intros [[->|Hin] Hc]; [by left | by right].
Qed.

Section CategoryShelf.
Context `{HexErrors}.

(** What CreateCategory does to the shelf. *)
Lemma CreateCategory_cases (req : CreateCategoryRequest.t) (st : Store) :
  match CreateCategory req st with
  | (Ok c, st') =>
      c = Category.mk (oids (world st)) (CreateCategoryRequest.Name req)
                      (clock (world st)) (clock (world st) + 1) /\
      categories st' = categories st ++ [c] /\
      (CreateCategoryRequest.Name req ∉ names st) /\
      faults (world st') = tail (tail (tail (faults (world st))))
  | (Err _, st') => categories st' = categories st
  end.
Proof.
  unfold CreateCategory, names. crun. unfold storage_call. destruct st as [w cs]. simpl.
  destruct (faults w) as [|[e1|] rest]; simpl; try reflexivity.
  all: destruct (List.find _ cs) eqn:Hfind; simpl; try reflexivity.
  all: try (destruct rest as [|[e2|] rest]; simpl; try reflexivity).
  all: try rewrite Hfind; simpl; try reflexivity.
  all: try (destruct rest as [|[e3|] rest]; simpl; try reflexivity).
  all: repeat split; by apply find_name_none.
Qed.

(** X21. No name comes twice among the categories: CreateCategory, run on
    a shelf of distinct names, leaves a shelf of distinct names, whether it
    succeeds or fails and whichever database calls fail. *)
Theorem CreateCategory_keeps_names_distinct (req : CreateCategoryRequest.t) (st : Store) :
  NoDup (names st) ->
  NoDup (names (CreateCategory req st).2).
Proof.
  intros Hnodup. pose proof (CreateCategory_cases req st) as Hcases.
  destruct (CreateCategory req st) as [[c|e] st']; simpl; unfold names in *.
  - destruct Hcases as (-> & -> & Hfresh & _).
    rewrite map_app. simpl. apply NoDup_app. split; [done|]. split.
    + intros name Hin Hnew. apply list_elem_of_singleton in Hnew as ->. by destruct Hfresh.
    + apply NoDup_singleton.
  - by rewrite Hcases.
Qed.

(** X22. A category that was created is found under the text of its
    identity: after a successful CreateCategory that drew an identity no
    category had, GetCategoryByID with the identity's hexadecimal text
    returns the category as it was returned by the creation. *)
Theorem CreateCategory_then_GetCategoryByID (req : CreateCategoryRequest.t)
    (st st' : Store) (c : Category.t) :
  CreateCategory req st = (Ok c, st') ->
  oids (world st) ∉ category_ids st ->
  (oids (world st) < 2 ^ 96)%N ->
  healthy 1 (world st') = true ->
  exists st'', GetCategoryByID (ObjectID_Hex (Category.ID c)) st' = (Ok c, st'') /\
               categories st'' = categories st'.
Proof.
  intros Hrun Hfresh Hrange Hh.
  pose proof (CreateCategory_cases req st) as Hcases. rewrite Hrun in Hcases.
  destruct Hcases as (Hc & Hcats & _).
  assert (Hid : Category.ID c = oids (world st)) by (by rewrite Hc).
  unfold GetCategoryByID. unfold parseObjectID. rewrite Hid, (ObjectIDFromHex_Hex _ Hrange).
  destruct (storage_call_healthy 0 (world st') Hh) as [Hs _].
  crun. rewrite Hs. simpl.
  rewrite Hcats, (find_snoc _ _ c (find_id_none _ _ Hfresh)) by (rewrite Hid; apply N.eqb_refl).
  simpl. eexists. split; reflexivity.
Qed.

(** X23. A name is created once: after a successful CreateCategory, a
    second one with the same name fails with "category already exists" when
    its lookup succeeds, and the shelf stays as it is. *)
Theorem CreateCategory_twice_is_refused (req : CreateCategoryRequest.t) (st st' : Store)
    (c : Category.t) :
  CreateCategory req st = (Ok c, st') ->
  healthy 1 (world st') = true ->
  exists st'', CreateCategory req st' = (Err "category already exists", st'') /\
               categories st'' = categories st'.
Proof.
  intros Hrun Hh.
  pose proof (CreateCategory_cases req st) as Hcases. rewrite Hrun in Hcases.
  destruct Hcases as (Hc & Hcats & Hfresh & _).
  destruct (storage_call_healthy 0 (world st') Hh) as [Hs _].
  unfold CreateCategory. crun. rewrite Hs. simpl.
  rewrite Hcats.
  assert (Hfind : List.find (fun c0 => String.eqb (Category.Name c0) (CreateCategoryRequest.Name req))
                    (categories st ++ [c]) <> None).
  { intros Hnone. apply find_name_none in Hnone. destruct Hnone.
    rewrite map_app. apply elem_of_app. right. rewrite Hc. simpl. by apply list_elem_of_singleton. }
  destruct (List.find _ (categories st ++ [c])); [|done].
  simpl. eexists. split; reflexivity.
Qed.

(** X24. An identity that is not 24 characters long is refused by
    GetCategoryByID and by DeleteCategory before the database is called:
    both fail and leave everything as it was. *)
Theorem malformed_category_id_is_refused (id : string) (st : Store) :
  String.length id <> 24%nat ->
  refused_untouched (GetCategoryByID id) st /\ refused_untouched (DeleteCategory id) st.
Proof.
  intros Hlen. unfold refused_untouched, GetCategoryByID, DeleteCategory, parseObjectID,
    ObjectIDFromHex.
  apply Nat.eqb_neq in Hlen. rewrite Hlen. simpl. split; eexists; reflexivity.
Qed.

(** X25. DeleteCategory removes the category of the given identity and no
    other: on a shelf of distinct identities, with the database answering,
    it succeeds for a category that is there and leaves exactly the
    categories of other identities. *)
Theorem DeleteCategory_removes_that_category (c : Category.t) (st : Store) :
  c ∈ categories st ->
  NoDup (category_ids st) ->
  (Category.ID c < 2 ^ 96)%N ->
  healthy 2 (world st) = true ->
  exists st', DeleteCategory (ObjectID_Hex (Category.ID c)) st = (Ok tt, st') /\
    forall c', c' ∈ categories st' <-> c' ∈ categories st /\ Category.ID c' <> Category.ID c.
Proof.
  intros Hin Hnodup Hrange Hh.
  unfold DeleteCategory. unfold parseObjectID. rewrite (ObjectIDFromHex_Hex _ Hrange).
  destruct (storage_call_healthy 1 (world st) Hh) as [Hs1 Hh1].
  destruct (storage_call_healthy 0 _ Hh1) as [Hs2 _].
  crun. rewrite Hs1. simpl.
  rewrite (find_id_some c _ Hnodup Hin). simpl.
  rewrite Hs2. simpl.
  eexists. split; [reflexivity|]. simpl. intros c'. by apply delete_first_spec.
Qed.

(** X26. DeleteCategory of an identity that no category has fails with
    "category not found" and removes nothing. *)
Theorem DeleteCategory_of_missing_category (id : ObjectID) (st : Store) :
  id ∉ category_ids st ->
  (id < 2 ^ 96)%N ->
  healthy 1 (world st) = true ->
  exists st', DeleteCategory (ObjectID_Hex id) st = (Err "category not found", st') /\
              categories st' = categories st.
Proof.
  intros Hnot Hrange Hh.
  unfold DeleteCategory. unfold parseObjectID. rewrite (ObjectIDFromHex_Hex _ Hrange).
  destruct (storage_call_healthy 0 (world st) Hh) as [Hs _].
  crun. rewrite Hs. simpl.
  rewrite (find_id_none _ _ Hnot). simpl. eexists. split; reflexivity.
Qed.
End CategoryShelf.

(** Ploughs come to a shelf that holds Tractors. *)
Lemma CreateCategory_keeps_names_distinct_witness :
  NoDup (names (CreateCategory (CreateCategoryRequest.mk "Ploughs") shelf).2).
Proof.
  apply (CreateCategory_keeps_names_distinct (CreateCategoryRequest.mk "Ploughs") shelf).
  apply NoDup_singleton.
Defined.

Lemma CreateCategory_then_GetCategoryByID_witness :
  exists (c : Category.t) (st' st'' : Store),
    CreateCategory (CreateCategoryRequest.mk "Ploughs") shelf = (Ok c, st') /\
    GetCategoryByID (H := plain_hex_errors) (ObjectID_Hex (Category.ID c)) st' = (Ok c, st'').
Proof.
  destruct (CreateCategory (CreateCategoryRequest.mk "Ploughs") shelf)
    as [[c|e] st'] eqn:Hrun; [|vm_compute in Hrun; discriminate].
  destruct (CreateCategory_then_GetCategoryByID (H := plain_hex_errors)
              (CreateCategoryRequest.mk "Ploughs") shelf st' c Hrun)
    as (st'' & Hget & _).
  { intros Hin%list_elem_of_singleton. discriminate. }
  { reflexivity. }
  { vm_compute in Hrun. inversion Hrun. reflexivity. }
  exists c, st', st''. split; [reflexivity | exact Hget].
Defined.

Lemma CreateCategory_twice_is_refused_witness :
  exists (c : Category.t) (st' st'' : Store),
    CreateCategory (CreateCategoryRequest.mk "Ploughs") shelf = (Ok c, st') /\
    CreateCategory (CreateCategoryRequest.mk "Ploughs") st'
      = (Err "category already exists", st'').
Proof.
  destruct (CreateCategory (CreateCategoryRequest.mk "Ploughs") shelf)
    as [[c|e] st'] eqn:Hrun; [|vm_compute in Hrun; discriminate].
  destruct (CreateCategory_twice_is_refused (CreateCategoryRequest.mk "Ploughs") shelf st' c Hrun)
    as (st'' & Hagain & _).
  { vm_compute in Hrun. inversion Hrun. reflexivity. }
  exists c, st', st''. split; [reflexivity | exact Hagain].
Defined.

(** The identity "7" as a client is likely to write it. *)
Lemma malformed_category_id_is_refused_witness :
  refused_untouched (DeleteCategory (H := plain_hex_errors) "7") shelf.
Proof.
  apply (malformed_category_id_is_refused (H := plain_hex_errors) "7" shelf). discriminate.
Defined.

Lemma DeleteCategory_removes_that_category_witness :
  exists st', DeleteCategory (H := plain_hex_errors) "000000000000000000000007" shelf = (Ok tt, st') /\
              tractors ∉ categories st'.
Proof.
  destruct (DeleteCategory_removes_that_category (H := plain_hex_errors) tractors shelf)
    as (st' & Hrun & Hleft).
  { by apply list_elem_of_singleton. }
  { apply NoDup_singleton. }
  { reflexivity. }
  { reflexivity. }
  exists st'. split; [exact Hrun|]. intros Hin. apply Hleft in Hin as [_ Hne]. by destruct Hne.
Defined.

Lemma DeleteCategory_of_missing_category_witness :
  exists st', DeleteCategory (H := plain_hex_errors) "000000000000000000000008" shelf
              = (Err "category not found", st').
Proof.
  destruct (DeleteCategory_of_missing_category (H := plain_hex_errors) 8%N shelf)
    as (st' & Hrun & _).
  { intros Hin%list_elem_of_singleton. discriminate. }
  { reflexivity. }
  { reflexivity. }
  exists st'. exact Hrun.
Defined.

(** ** The primary image on the paths that take uploads *)

Lemma no_primary_flagged (images : list ProductImage.t) :
  existsb ProductImage.IsPrimary images = false <-> primary_count images = 0%nat.
Proof.
  unfold primary_count. induction images as [|img rest IH]; simpl; [done|].
  destruct (ProductImage.IsPrimary img); simpl; [split; discriminate | exact IH].
Qed.

Lemma tidy_snoc (images : list ProductImage.t) (id url : string) (now : Time) :
  tidy images ->
  tidy (images ++ [ProductImage.of_url id url (Nat.eqb (length images) 0) now]).
Proof.
  destruct images as [|first rest]; [intros _; right; by split|].
  intros [Hnone | [Hfirst Hrest]].
  - left. by rewrite primary_count_app, Hnone.
  - right. split; [exact Hfirst|]. by rewrite primary_count_app, Hrest.
Qed.

Lemma WithImages_urls_tidy (urls : list string) :
  forall (images : list ProductImage.t) (w : World),
  tidy images ->
  exists images' w', WithImages_urls urls images w = (Ok images', w') /\ tidy images'.
Proof.
  induction urls as [|url rest IH]; intros images w Htidy; simpl.
  - by exists images, w.
  - destruct (nonempty url); [|by apply IH].
    run.
    match goal with
    | |- context [WithImages_urls rest ?imgs ?w1] =>
      destruct (IH imgs w1) as (images' & w' & Hrun & Ht); [by apply tidy_snoc|]
    end.
    by exists images', w'.
Qed.

Lemma legacy_image_tidy (imageURL : string) (images : list ProductImage.t) (w : World) :
  tidy images ->
  exists images' w', legacy_image imageURL images w = (Ok images', w') /\ tidy images'.
Proof.
  intros Htidy. unfold legacy_image.
  destruct (nonempty imageURL && Nat.eqb (length images) 0) eqn:Hcond.
  - apply andb_true_iff in Hcond as [_ Hlen]. apply Nat.eqb_eq in Hlen.
    destruct images; [|discriminate]. run.
    eexists. eexists. split; [reflexivity|]. right. by split.
  - by exists images, w.
Qed.

Lemma ensure_primary_tidy (images : list ProductImage.t) :
  tidy images -> first_is_only_primary (ensure_primary images).
Proof.
  unfold ensure_primary. destruct images as [|first rest]; [done|].
  intros Htidy. cbn [length Nat.ltb Nat.leb].
  destruct (existsb ProductImage.IsPrimary (first :: rest)) eqn:Hflag.
  - destruct Htidy as [Hnone | Hfirst]; [|exact Hfirst].
    apply no_primary_flagged in Hnone. congruence.
  - apply no_primary_flagged in Hflag. simpl. split; [reflexivity|].
    unfold primary_count in *. simpl in Hflag.
    destruct (ProductImage.IsPrimary first); [discriminate | exact Hflag].
Qed.

Lemma ensure_primary_flags_one (images : list ProductImage.t) :
  images <> [] -> existsb ProductImage.IsPrimary (ensure_primary images) = true.
Proof.
  unfold ensure_primary. destruct images as [|first rest]; [done|]. intros _.
  cbn [length Nat.ltb Nat.leb].
  destruct (existsb ProductImage.IsPrimary (first :: rest)) eqn:Hflag; [exact Hflag|].
  reflexivity.
Qed.

Lemma ensure_primary_nil (images : list ProductImage.t) :
  ensure_primary images = [] -> images = [].
Proof.
  unfold ensure_primary. destruct images as [|first rest]; [done|].
  cbn [length Nat.ltb Nat.leb].
  destruct (existsb ProductImage.IsPrimary (first :: rest)); discriminate.
Qed.

(** X27. A product that CreateProductWithImages returns has a primary
    image whenever it has an image at all; and when no uploaded image came
    flagged, the first image is the primary one and the only one, also when
    the first URL of the request is blank. *)
Theorem CreateProductWithImages_primary_image (req : CreateProductRequest.t)
    (uploadedImages : list ProductImage.t) (w w' : World) (created : Product.t) :
  CreateProductWithImages req uploadedImages w = (Ok created, w') ->
  (Product.Images created <> [] ->
     existsb ProductImage.IsPrimary (Product.Images created) = true) /\
  (primary_count uploadedImages = 0%nat -> first_is_only_primary (Product.Images created)).
Proof.
  unfold CreateProductWithImages. intros Hrun.
  assert (Himages : exists images,
            Product.Images created = ensure_primary images /\
            (primary_count uploadedImages = 0%nat -> tidy images)).
  { rewrite bind_run in Hrun.
    set (collected := if (0 <? length (CreateProductRequest.ImageURLs req))%nat
                      then _ else _) in Hrun.
    destruct (collected w) as [[images1|e1] w1] eqn:H1; [|discriminate].
    rewrite bind_run in Hrun.
    destruct (legacy_image _ images1 w1) as [[images2|e2] w2] eqn:H2; [|discriminate].
    apply productRepo_Create_images in Hrun. exists images2. split; [exact Hrun|].
    intros Hnone.
    assert (Ht1 : tidy images1).
    { subst collected. destruct (0 <? length _)%nat.
      - destruct (WithImages_urls_tidy (CreateProductRequest.ImageURLs req)
                    (Product.Images (new_product req) ++ uploadedImages) w)
          as (i & w0 & Hr & Ht); [by left|].
        rewrite Hr in H1. by inversion H1; subst.
      - inversion H1; subst. by left. }
    destruct (legacy_image_tidy (CreateProductRequest.ImageURL req) images1 w1 Ht1)
      as (i & w0 & Hr & Ht).
    rewrite Hr in H2. by inversion H2; subst. }
  destruct Himages as (images & -> & Htidy). split.
  - intros Hne. apply ensure_primary_flags_one. intros ->. by destruct Hne.
  - intros Hnone. by apply ensure_primary_tidy, Htidy.
Qed.

(** X28. The same holds for UpdateProductWithImages, which replaces the
    images of the product: the updated product has a primary image whenever
    it has an image, and the first image alone is primary when no uploaded
    image came flagged. *)
Theorem UpdateProductWithImages_primary_image (id : ObjectID) (req : UpdateProductRequest.t)
    (uploadedImages : list ProductImage.t) (w w' : World) (updated : Product.t) :
  UpdateProductWithImages id req uploadedImages w = (Ok updated, w') ->
  (Product.Images updated <> [] ->
     existsb ProductImage.IsPrimary (Product.Images updated) = true) /\
  (primary_count uploadedImages = 0%nat -> first_is_only_primary (Product.Images updated)).
Proof.
  unfold UpdateProductWithImages. intros Hrun.
  assert (Himages : exists images,
            Product.Images updated = ensure_primary images /\
            (primary_count uploadedImages = 0%nat -> tidy images)).
  { rewrite bind_run in Hrun.
    destruct (productRepo_GetByID id w) as [[[product|]|e0] w0]; try discriminate.
    rewrite bind_run in Hrun.
    set (collected := if (0 <? length (UpdateProductRequest.ImageURLs req))%nat
                      then _ else _) in Hrun.
    destruct (collected w0) as [[images1|e1] w1] eqn:H1; [|discriminate].
    assert (Ht1 : primary_count uploadedImages = 0%nat -> tidy images1).
    { intros Hnone. subst collected. destruct (0 <? length _)%nat.
      - destruct (WithImages_urls_tidy (UpdateProductRequest.ImageURLs req)
                    ([] ++ uploadedImages) w0) as (i & w2 & Hr & Ht); [by left|].
        rewrite Hr in H1. by inversion H1; subst.
      - inversion H1; subst. by left. }
    rewrite bind_run in Hrun.
    destruct (nonempty (UpdateProductRequest.ImageURL req) && Nat.eqb (length images1) 0)
      eqn:Hcond.
    - apply andb_true_iff in Hcond as [_ Hlen]. apply Nat.eqb_eq in Hlen.
      destruct images1; [|discriminate].
      revert Hrun. cbv [mbind mret M_bind M_ret uuid_New time_Now]. cbv beta iota.
      intros Hrun. apply productRepo_Update_images in Hrun.
      eexists. split; [exact Hrun|]. intros _. right. by split.
    - revert Hrun. cbv [mbind mret M_bind M_ret]. cbv beta iota.
      intros Hrun. apply productRepo_Update_images in Hrun.
      exists images1. split; [exact Hrun | exact Ht1]. }
  destruct Himages as (images & -> & Htidy). split.
  - intros Hne. apply ensure_primary_flags_one. intros ->. by destruct Hne.
  - intros Hnone. by apply ensure_primary_tidy, Htidy.
Qed.

(** The request whose first URL is blank, with an uploaded picture and
    without: the first image is primary. *)
Lemma CreateProductWithImages_primary_image_witness :
  exists (created : Product.t) (w' : World),
    CreateProductWithImages Sample.request_blank_first_url [photo] Sample.shop = (Ok created, w') /\
    first_is_only_primary (Product.Images created).
Proof.
  destruct (CreateProductWithImages Sample.request_blank_first_url [photo] Sample.shop)
    as [[created|e] w'] eqn:Hrun; [|vm_compute in Hrun; discriminate].
  exists created, w'. split; [reflexivity|].
  apply (CreateProductWithImages_primary_image _ _ _ _ _ Hrun). reflexivity.
Defined.

(** The harrow gets a new picture in place of its primary one. *)
Lemma UpdateProductWithImages_primary_image_witness :
  exists (updated : Product.t) (w' : World),
    UpdateProductWithImages 9%N Sample.request_rename [photo] Sample.shopC = (Ok updated, w') /\
    first_is_only_primary (Product.Images updated).
Proof.
  destruct (UpdateProductWithImages 9%N Sample.request_rename [photo] Sample.shopC)
    as [[updated|e] w'] eqn:Hrun; [|vm_compute in Hrun; discriminate].
  exists updated, w'. split; [reflexivity|].
  apply (UpdateProductWithImages_primary_image _ _ _ _ _ _ Hrun). reflexivity.
Defined.
